(** * CRAB_Model: the model class of the Climate-economy Regional Agent-Based model

    A shallow embedding of [model.py]: the per-type random streams set up by
    [CRAB_Model.__init__], the firm registry with [add_subsidiary],
    [remove_firm] and [get_firms], and the step driver [CRAB_Model.step].

    Conventions of the embedding.
    - A Python float is the rational ([Q]) it denotes.  Sums, products and
      quotients of floats are exact, with two exceptions: [round] at
      line 199 and [np.around] at line 208 turn a float into an integer or
      a three-decimal number, and their result depends on the last bit of
      their argument.  The operations of line 199 and of lines 206 to 208
      are the binary64 ones: the exact result, rounded by [b64] to the
      nearest binary64 number.  Infinities and NaN are not numbers of the
      model: it follows the code as long as no operation overflows.
    - Python exceptions are the [Raise] branch of [result]; an exception
      aborts the run, so no state is returned with it.
    - Python objects that are shared by reference (firms) live in a store
      [heap], and the registry, the removal queues and the supplier and
      client relations hold references into it.
    - Dictionaries whose iteration order is observable ([N_FIRMS[0]],
      [self.firms[region]]) are association lists in insertion order; the
      others are [gmap]s. *)

From Stdlib Require Import ZArith QArith Qround Qabs Lqa Lia.
From stdpp Require Import base option list gmap strings.

Local Open Scope Z_scope.

(** ** Agent classes *)

(** The classes [model.py] names: the firm classes imported from
    [CRAB_agents], [Household], and [Government]. *)
Inductive AgentClass :=
  | Firm
  | CapitalFirm
  | ConsumptionFirm
  | ConsumptionGoodFirm
  | ServiceFirm
  | Household
  | Government.

#[global] Instance AgentClass_eq_dec : EqDecision AgentClass.
Proof. solve_decision. Defined.

Definition class_index (c : AgentClass) : nat :=
  match c with
  | Firm => 0 | CapitalFirm => 1 | ConsumptionFirm => 2
  | ConsumptionGoodFirm => 3 | ServiceFirm => 4
  | Household => 5 | Government => 6
  end%nat.

Definition class_of_index (n : nat) : option AgentClass :=
  match n with
  | 0 => Some Firm | 1 => Some CapitalFirm | 2 => Some ConsumptionFirm
  | 3 => Some ConsumptionGoodFirm | 4 => Some ServiceFirm
  | 5 => Some Household | 6 => Some Government
  | _ => None
  end%nat.

#[global] Instance AgentClass_countable : Countable AgentClass :=
  inj_countable class_index class_of_index
    (λ c, match c as c0 return class_of_index (class_index c0) = Some c0 with
          | Firm | CapitalFirm | ConsumptionFirm | ConsumptionGoodFirm
          | ServiceFirm | Household | Government => eq_refl
          end).

(** Modelled from the spec: the class hierarchy of [CRAB_agents], which is
    not part of [model.py].  Consumption-good and service producers are the
    two kinds of [ConsumptionFirm]; every firm class is a [Firm]; the class
    tests of [add_subsidiary] are [isinstance] tests against it. *)
Definition base_class (c : AgentClass) : option AgentClass :=
  match c with
  | CapitalFirm | ConsumptionFirm => Some Firm
  | ConsumptionGoodFirm | ServiceFirm => Some ConsumptionFirm
  | Firm | Household | Government => None
  end.

(** [isinstance(obj, cls)] for an object whose [type] is [c]: walk up the
    (two-level) hierarchy. *)
Definition isinstance (c cls : AgentClass) : bool :=
  bool_decide (c = cls)
  || match base_class c with
     | Some b =>
         bool_decide (b = cls)
         || match base_class b with
            | Some b' => bool_decide (b' = cls)
            | None => false
            end
     | None => false
     end.

(** Keys of [self.RNGs]: an agent class, or the string ["Adaptation"]. *)
Inductive RngKey :=
  | KClass (c : AgentClass)
  | KAdaptation.

#[global] Instance RngKey_eq_dec : EqDecision RngKey.
Proof. solve_decision. Defined.

Definition rngkey_code (k : RngKey) : option AgentClass :=
  match k with KClass c => Some c | KAdaptation => None end.

Definition rngkey_of_code (o : option AgentClass) : RngKey :=
  match o with Some c => KClass c | None => KAdaptation end.

#[global] Instance RngKey_countable : Countable RngKey :=
  inj_countable' rngkey_code rngkey_of_code
    (λ k, match k as k0 return rngkey_of_code (rngkey_code k0) = k0 with
          | KClass _ | KAdaptation => eq_refl
          end).

(** ** Exceptions *)

Inductive PyError :=
  | KeyError
  | AttributeError
  | TypeError
  | ValueError (msg : string)
  | ZeroDivisionError
  (** raised by a collaborator outside [model.py] *)
  | ExternalError
  (** no Python counterpart: a reference that is not in the store *)
  | DanglingRef.

Inductive result (A : Type) :=
  | Ok (a : A)
  | Raise (e : PyError).
Arguments Ok {A} a.
Arguments Raise {A} e.

#[global] Instance result_ret : MRet result := @Ok.
#[global] Instance result_bind : MBind result := λ A B f r,
  match r with
  | Ok a => f a
  | Raise e => Raise e
  end.

Definition is_Ok {A} (r : result A) : Prop := ∃ a, r = Ok a.

(** [d[k]] on a dictionary. *)
Definition getitem {K V} `{Countable K} (d : gmap K V) (k : K) : result V :=
  match d !! k with
  | Some v => Ok v
  | None => Raise KeyError
  end.

(** Dictionaries in insertion order. *)
Fixpoint alist_lookup {V} (c : AgentClass) (d : list (AgentClass * V)) : option V :=
  match d with
  | [] => None
  | (c', v) :: d' => if decide (c = c') then Some v else alist_lookup c d'
  end.

Fixpoint alist_set {V} (c : AgentClass) (v : V) (d : list (AgentClass * V))
  : list (AgentClass * V) :=
  match d with
  | [] => [(c, v)]
  | (c', v') :: d' =>
      if decide (c = c') then (c', v) :: d' else (c', v') :: alist_set c v d'
  end.

Definition alist_getitem {V} (d : list (AgentClass * V)) (c : AgentClass) : result V :=
  match alist_lookup c d with
  | Some v => Ok v
  | None => Raise KeyError
  end.

(** [l.remove(x)]: drops the first occurrence, [ValueError] if there is none. *)
Fixpoint list_remove (x : nat) (l : list nat) : option (list nat) :=
  match l with
  | [] => None
  | y :: l' => if decide (x = y) then Some l' else (y ::.) <$> list_remove x l'
  end.

(** ** Numbers *)

(** [max(a, b)] of Python: [b] only when it is strictly greater. *)
Definition py_max (a b : Q) : Q :=
  if Qlt_le_dec a b then b else a.

(** [round(x)] of Python: to the nearest integer, ties to the even one. *)
Definition py_round (x : Q) : Z :=
  let fl := Qfloor x in
  match (x - inject_Z fl ?= 1 # 2)%Q with
  | Lt => fl
  | Gt => fl + 1
  | Eq => if Z.even fl then fl else fl + 1
  end.

(** [2 ** e] *)
Definition pow2 (e : Z) : Q :=
  if 0 <=? e then inject_Z (2 ^ e) else 1 # Z.to_pos (2 ^ (- e)).

(** The integer [k] with [2 ** k <= x < 2 ** (k + 1)], for a positive [x]. *)
Definition ilog2 (x : Q) : Z :=
  let k := Z.log2 (Qnum x) - Z.log2 (Zpos (Qden x)) in
  if Qle_bool (pow2 k) x then k else k - 1.

(** The binary64 number nearest to [x], ties to the even significand: 53
    significant bits, and multiples of [2 ** -1074] below [2 ** -1022].
    This is the float that a decimal literal denotes, and the float that
    an arithmetic operation of IEEE 754 returns for the exact result [x],
    when [x] is below the overflow threshold. *)
Definition b64 (x : Q) : Q :=
  if Qeq_bool x 0 then 0%Q
  else
    let e := Z.max (-1074) (ilog2 (Qabs x) - 52) in
    Qred (inject_Z (py_round (x / pow2 e)) * pow2 e).

(** [x + y], [x - y], [x * y] and [x / y] on floats. *)
Definition fadd (x y : Q) : Q := b64 (x + y).
Definition fsub (x y : Q) : Q := b64 (x - y).
Definition fmul (x y : Q) : Q := b64 (x * y).
Definition fdiv (x y : Q) : Q := b64 (x / y).

(** [np.around(x, 3)]: [numpy] multiplies by [10 ** 3], rounds to the
    nearest integer, ties to even, and divides by [10 ** 3], each step on
    floats. *)
Definition np_around3 (x : Q) : Q :=
  fdiv (inject_Z (py_round (fmul x 1000))) 1000.

(** [1 / n] for an integer [n]. *)
Definition py_inv (n : nat) : result Q :=
  match n with
  | O => Raise ZeroDivisionError
  | S _ => Ok (1 / inject_Z (Z.of_nat n))%Q
  end.

(** ** Random streams *)

(** A [numpy] generator is a deterministic function of its seed and of the
    draws made from it so far. *)
Inductive Draw :=
  | DrawUniform
  | DrawBeta (a b : Z).

Record Generator := {
  rng_seed : Z;
  rng_history : list Draw
}.

(** The generator of a seed, before any draw. *)
Definition seeded (seed : Z) : Generator :=
  {| rng_seed := seed; rng_history := [] |}.

(** [np.random.default_rng(seed)] for an integer: a negative seed is
    refused. *)
Definition default_rng (seed : Z) : result Generator :=
  if seed <? 0 then Raise (ValueError "expected non-negative integer")
  else Ok (seeded seed).

Definition advance (d : Draw) (g : Generator) : Generator :=
  {| rng_seed := rng_seed g; rng_history := rng_history g ++ [d] |}.

(** ** Agents *)

(** The attributes of [Government] that [model.py] reads and writes. *)
Record GovObj := {
  avg_net_worth : Q;
  top_prod : Q;
  capital_new_firm : gmap AgentClass Q;
  avg_comp_norm : gmap AgentClass Q;
  bailout_cost : Q;
  new_firms_resources : Q
}.

Definition set_bailout_cost (x : Q) (g : GovObj) : GovObj :=
  {| avg_net_worth := avg_net_worth g; top_prod := top_prod g;
     capital_new_firm := capital_new_firm g; avg_comp_norm := avg_comp_norm g;
     bailout_cost := x; new_firms_resources := new_firms_resources g |}.

Definition set_new_firms_resources (x : Q) (g : GovObj) : GovObj :=
  {| avg_net_worth := avg_net_worth g; top_prod := top_prod g;
     capital_new_firm := capital_new_firm g; avg_comp_norm := avg_comp_norm g;
     bailout_cost := bailout_cost g; new_firms_resources := x |}.

(** A firm object; [supplier], [offers] and [clients] hold references. *)
Record FirmObj := {
  f_class : AgentClass;
  region : nat;
  flood_depths : gmap Z Q;
  market_share : Q;
  net_worth : Q;
  n_machines : Z;
  cap_amount : Z;
  sales : Q;
  wage : Q;
  price : Q;
  prod : Q;
  old_prod : Q;
  lifetime : Z;
  cap_out_ratio : Q;
  competitiveness : Q;
  brochure : gmap string Q;
  supplier : option nat;
  offers : list (nat * gmap string Q);
  clients : list nat
}.

(** The keyword arguments [add_subsidiary] passes to a firm constructor;
    [None] for one it leaves to the constructor's default. *)
Record FirmKwargs := {
  kw_flood_depths : gmap Z Q;
  kw_market_share : Q;
  kw_net_worth : Q;
  kw_init_n_machines : Z;
  kw_init_cap_amount : Z;
  kw_sales : Q;
  kw_wage : Q;
  kw_price : Q;
  kw_prod : Q;
  kw_old_prod : option Q;
  kw_lifetime : Z
}.

(** Modelled from the spec: the scheduler of [schedule.py], which is not part
    of [model.py]: a time counter and the registered agents; removing an
    agent that is not registered is a lookup failure. *)
Record Schedule := {
  time : nat;
  agents : gset nat
}.

Definition schedule_add (a : nat) (s : Schedule) : Schedule :=
  {| time := time s; agents := {[a]} ∪ agents s |}.

Definition schedule_remove (a : nat) (s : Schedule) : result Schedule :=
  if decide (a ∈ agents s)
  then Ok {| time := time s; agents := agents s ∖ {[a]} |}
  else Raise KeyError.

Definition schedule_tick (s : Schedule) : Schedule :=
  {| time := S (time s); agents := agents s |}.

(** ** The model *)

(** The module constants of [model.py]. *)
Record Config := {
  N_REGIONS : nat;
  N_FIRMS : gmap nat (list (AgentClass * nat));
  FLOOD_WHEN : gmap nat nat
}.

(** The values [model.py] gives them. *)
Definition reference_config : Config :=
  {| N_REGIONS := 1;
     N_FIRMS := {[ 0%nat := [(CapitalFirm, 125%nat);
                             (ConsumptionGoodFirm, 200%nat);
                             (ServiceFirm, 300%nat)] ]};
     FLOOD_WHEN := {[ 40%nat := 1000%nat; 80%nat := 100%nat ]} |}.

(** [range(N_REGIONS)] *)
Definition REGIONS (cfg : Config) : list nat := seq 0 (N_REGIONS cfg).

(** The attributes of a [CRAB_Model] that the lifecycle and the step driver
    touch, and the store [heap] of the firm objects they refer to. *)
Record Model := {
  RNGs : gmap RngKey Generator;
  governments : gmap nat GovObj;
  firms : gmap nat (list (AgentClass * list nat));
  firms_to_remove : gmap nat (list nat);
  schedule : Schedule;
  flood_now : bool;
  flood_return : nat;
  heap : gmap nat FirmObj
}.

Definition set_RNGs (x : gmap RngKey Generator) (m : Model) : Model :=
  {| RNGs := x; governments := governments m; firms := firms m;
     firms_to_remove := firms_to_remove m; schedule := schedule m;
     flood_now := flood_now m; flood_return := flood_return m; heap := heap m |}.

Definition set_governments (x : gmap nat GovObj) (m : Model) : Model :=
  {| RNGs := RNGs m; governments := x; firms := firms m;
     firms_to_remove := firms_to_remove m; schedule := schedule m;
     flood_now := flood_now m; flood_return := flood_return m; heap := heap m |}.

Definition set_firms (x : gmap nat (list (AgentClass * list nat))) (m : Model) : Model :=
  {| RNGs := RNGs m; governments := governments m; firms := x;
     firms_to_remove := firms_to_remove m; schedule := schedule m;
     flood_now := flood_now m; flood_return := flood_return m; heap := heap m |}.

Definition set_firms_to_remove (x : gmap nat (list nat)) (m : Model) : Model :=
  {| RNGs := RNGs m; governments := governments m; firms := firms m;
     firms_to_remove := x; schedule := schedule m;
     flood_now := flood_now m; flood_return := flood_return m; heap := heap m |}.

Definition set_schedule (x : Schedule) (m : Model) : Model :=
  {| RNGs := RNGs m; governments := governments m; firms := firms m;
     firms_to_remove := firms_to_remove m; schedule := x;
     flood_now := flood_now m; flood_return := flood_return m; heap := heap m |}.

Definition set_flood (now : bool) (rp : nat) (m : Model) : Model :=
  {| RNGs := RNGs m; governments := governments m; firms := firms m;
     firms_to_remove := firms_to_remove m; schedule := schedule m;
     flood_now := now; flood_return := rp; heap := heap m |}.

Definition set_heap (x : gmap nat FirmObj) (m : Model) : Model :=
  {| RNGs := RNGs m; governments := governments m; firms := firms m;
     firms_to_remove := firms_to_remove m; schedule := schedule m;
     flood_now := flood_now m; flood_return := flood_return m; heap := x |}.

(** An attribute access on [self.governments[region]].  [self.governments]
    is a [defaultdict(list)]: a region without a government yields an empty
    list, which has no such attribute. *)
Definition gov_attr (slot : option GovObj) : result GovObj :=
  match slot with
  | Some g => Ok g
  | None => Raise AttributeError
  end.

(** [self.firms[region][cls]].  [self.firms] is a [defaultdict(list)] too:
    for a region without firms the subscript is applied to an empty list. *)
Definition firms_bucket (m : Model) (r : nat) (cls : AgentClass) : result (list nat) :=
  match firms m !! r with
  | Some by_type => alist_getitem by_type cls
  | None => Raise TypeError
  end.

Definition set_bucket (r : nat) (cls : AgentClass) (b : list nat) (m : Model) : Model :=
  set_firms (<[r := alist_set cls b (default [] (firms m !! r))]> (firms m)) m.

(** A firm object from its reference. *)
Definition deref (m : Model) (ref : nat) : result FirmObj :=
  match heap m !! ref with
  | Some f => Ok f
  | None => Raise DanglingRef
  end.

(** ** Seeding the streams: [CRAB_Model.__init__], lines 83 to 89 *)

(** [list(N_FIRMS[0].keys()) + [Household] + [Government]] *)
Definition agent_types (cfg : Config) : result (list AgentClass) :=
  by_type ← getitem (N_FIRMS cfg) 0%nat;
  Ok (by_type.*1 ++ [Household; Government]).

(** The loop over [enumerate(agent_types)], from index [i] on. *)
Fixpoint seed_streams (random_seed : Z) (i : nat) (types : list AgentClass)
    (rngs : gmap RngKey Generator) : result (gmap RngKey Generator) :=
  match types with
  | [] => Ok rngs
  | agent_class :: types' =>
      rng ← default_rng (random_seed + Z.of_nat i);
      seed_streams random_seed (S i) types' (<[KClass agent_class := rng]> rngs)
  end.

(** The streams after line 89; the loop variable [i] is then the last
    index of [agent_types]. *)
Definition init_RNGs (cfg : Config) (random_seed : Z) : result (gmap RngKey Generator) :=
  types ← agent_types cfg;
  rngs ← seed_streams random_seed 0 types ∅;
  let i := Z.of_nat (length types) - 1 in
  rng ← default_rng (random_seed + i + 1);
  Ok (<[KAdaptation := rng]> rngs).

(** ** Reading the registry *)

(** [get_firms]: the values of [self.firms[region]], chained into one list;
    [attr] is a parameter of the source's signature. *)
Definition get_firms {A} (m : Model) (r : nat) (attr : option A) : result (list nat) :=
  match firms m !! r with
  | Some by_type => Ok (concat (by_type.*2))
  | None => Raise AttributeError
  end.

(** [get_cons_firms] *)
Definition get_cons_firms (m : Model) (r : nat) : result (list nat) :=
  goods ← firms_bucket m r ConsumptionGoodFirm;
  services ← firms_bucket m r ServiceFirm;
  Ok (goods ++ services).

(** [get_firms_by_type] *)
Definition get_firms_by_type (m : Model) (firm_type : AgentClass) (r : nat)
  : result (list nat) :=
  firms_bucket m r firm_type.

(** ** Mutating a firm object *)

(** [sub.competitiveness = c] *)
Definition set_competitiveness (c : Q) (f : FirmObj) : FirmObj :=
  {| f_class := f_class f; region := region f; flood_depths := flood_depths f;
     market_share := market_share f; net_worth := net_worth f;
     n_machines := n_machines f; cap_amount := cap_amount f; sales := sales f;
     wage := wage f; price := price f; prod := prod f; old_prod := old_prod f;
     lifetime := lifetime f; cap_out_ratio := cap_out_ratio f;
     competitiveness := c; brochure := brochure f; supplier := supplier f;
     offers := offers f; clients := clients f |}.

(** [sub.supplier = s; sub.offers = {s: b}] *)
Definition set_supplier (s : nat) (b : gmap string Q) (f : FirmObj) : FirmObj :=
  {| f_class := f_class f; region := region f; flood_depths := flood_depths f;
     market_share := market_share f; net_worth := net_worth f;
     n_machines := n_machines f; cap_amount := cap_amount f; sales := sales f;
     wage := wage f; price := price f; prod := prod f; old_prod := old_prod f;
     lifetime := lifetime f; cap_out_ratio := cap_out_ratio f;
     competitiveness := competitiveness f; brochure := brochure f;
     supplier := Some s; offers := [(s, b)]; clients := clients f |}.

(** [f.clients.append(c)] *)
Definition add_client (c : nat) (f : FirmObj) : FirmObj :=
  {| f_class := f_class f; region := region f; flood_depths := flood_depths f;
     market_share := market_share f; net_worth := net_worth f;
     n_machines := n_machines f; cap_amount := cap_amount f; sales := sales f;
     wage := wage f; price := price f; prod := prod f; old_prod := old_prod f;
     lifetime := lifetime f; cap_out_ratio := cap_out_ratio f;
     competitiveness := competitiveness f; brochure := brochure f;
     supplier := supplier f; offers := offers f; clients := clients f ++ [c] |}.

(** ** The lifecycle manager and the step driver *)

Section CRAB.

(** The module constants. *)
Variable cfg : Config.

(** The value a generator of the given seed returns for a draw, after the
    given earlier draws. *)
Variable sample : Z → list Draw → Draw → Q.

(** [Government.get_best_cap], of [government.py]: the best capital
    producer of a region, as the government ranks them. *)
Variable get_best_cap : Model → nat → result nat.

(** The attributes a firm constructor of [CRAB_agents] derives on its own. *)
Variable class_defaults : AgentClass → FirmKwargs → FirmObj.

(** The eight stages of [schedule.step()], run over all agents. *)
Variable agent_stages : Model → result Model.

(** What the reporter of [datacollection.py] reads off the model. *)
Variable Obs : Type.
Variable report : Model → Obs.

(** [rng.uniform()] and [rng.beta(a, b)]: the value drawn and the advanced
    generator. *)
Definition uniform (g : Generator) : Q * Generator :=
  (sample (rng_seed g) (rng_history g) DrawUniform, advance DrawUniform g).

Definition beta (g : Generator) (a b : Z) : Q * Generator :=
  (sample (rng_seed g) (rng_history g) (DrawBeta a b), advance (DrawBeta a b) g).

(** Modelled from the spec: a firm constructor of [CRAB_agents], which is
    not part of [model.py]: a firm of the given class in the given region
    with the caller-supplied initial attributes. *)
Definition Firm_init (cls : AgentClass) (r : nat) (kw : FirmKwargs) : FirmObj :=
  let d := class_defaults cls kw in
  {| f_class := cls; region := r;
     flood_depths := kw_flood_depths kw;
     market_share := kw_market_share kw;
     net_worth := kw_net_worth kw;
     n_machines := kw_init_n_machines kw;
     cap_amount := kw_init_cap_amount kw;
     sales := kw_sales kw; wage := kw_wage kw; price := kw_price kw;
     prod := kw_prod kw;
     old_prod := default (old_prod d) (kw_old_prod kw);
     lifetime := kw_lifetime kw;
     cap_out_ratio := cap_out_ratio d;
     competitiveness := competitiveness d;
     brochure := brochure d;
     supplier := supplier d; offers := offers d; clients := clients d |}.

Definition not_recognized : string :=
  "Firm type not recognized in function add_subsidiary().".

(** [fraction_wealth] of line 196, from the uniform draw [u]. *)
Definition fraction_wealth (u : Q) : Q := ((0.9 - 0.1) * u + 0.1)%Q.

(** [fraction_prod] of lines 206 and 207, from the beta draw [b]; the
    sum is taken from the left. *)
Definition fraction_prod (b : Q) : Q :=
  let '(x_low, x_up) := (b64 (-0.075), b64 0.075) in
  fadd (fadd 1 x_low) (fmul b (fsub x_up x_low)).

(** The branch on the class of the failed firm, lines 204 to 232: the
    streams after it and the subsidiary as constructed. *)
Definition derive_subsidiary (rngs : gmap RngKey Generator) (gov : GovObj)
    (f : FirmObj) (nw : Q) (capital_amount : Z)
    (offer : gmap string Q) : result (gmap RngKey Generator * FirmObj) :=
  if isinstance (f_class f) CapitalFirm then
    rng ← getitem rngs (KClass (f_class f));
    let '(b, rng') := beta rng 2 4 in
    let rngs := <[KClass (f_class f) := rng']> rngs in
    let old := np_around3 (fmul (top_prod gov) (fraction_prod b)) in
    p ← getitem offer "prod";
    by_type ← getitem (N_FIRMS cfg) (region f);
    n ← alist_getitem by_type CapitalFirm;
    share ← py_inv n;
    Ok (rngs,
        Firm_init (f_class f) (region f)
          {| kw_flood_depths := flood_depths f;
             kw_market_share := share; kw_net_worth := nw;
             kw_init_n_machines := 1; kw_init_cap_amount := capital_amount;
             kw_sales := inject_Z capital_amount;
             kw_wage := wage f; kw_price := price f;
             kw_prod := p; kw_old_prod := Some old;
             kw_lifetime := 0 |})
  else if isinstance (f_class f) ConsumptionFirm then
    p ← getitem offer "prod";
    let sub :=
      Firm_init (f_class f) (region f)
        {| kw_flood_depths := flood_depths f;
           kw_market_share := 0; kw_net_worth := nw;
           kw_init_n_machines := 1; kw_init_cap_amount := capital_amount;
           kw_sales := 0;
           kw_wage := wage f; kw_price := price f;
           kw_prod := p; kw_old_prod := None;
           kw_lifetime := 0 |} in
    comp ← getitem (avg_comp_norm gov) (f_class f);
    Ok (rngs, set_competitiveness comp sub)
  else Raise (ValueError not_recognized).

(** [add_subsidiary]: the model after it and the reference of the new
    firm. *)
Definition add_subsidiary (m : Model) (firm : nat) : result (Model * nat) :=
  f ← deref m firm;
  let gov_slot := governments m !! region f in
  (* line 196 *)
  rng ← getitem (RNGs m) (KClass (f_class f));
  let '(u, rng') := uniform rng in
  let rngs := <[KClass (f_class f) := rng']> (RNGs m) in
  (* line 197 *)
  gov ← gov_attr gov_slot;
  let nw := (py_max (avg_net_worth gov) 1 * fraction_wealth u)%Q in
  (* line 199 *)
  cap ← getitem (capital_new_firm gov) (f_class f);
  let capital_amount := py_round (fmul cap (cap_out_ratio f)) in
  (* lines 201 and 202 *)
  best_cap ← get_best_cap (set_RNGs rngs m) (region f);
  best ← deref m best_cap;
  let offer := brochure best in
  (* lines 204 to 232 *)
  '(rngs, sub_obj) ← derive_subsidiary rngs gov f nw capital_amount offer;
  let sub := fresh (dom (heap m)) in
  (* lines 235 to 237 *)
  let sub_obj := set_supplier best_cap offer sub_obj in
  let m := set_RNGs rngs m in
  let m := set_heap (<[best_cap := add_client sub best]> (<[sub := sub_obj]> (heap m))) m in
  (* lines 240 and 241 *)
  bucket ← firms_bucket m (region sub_obj) (f_class sub_obj);
  let m := set_bucket (region sub_obj) (f_class sub_obj) (bucket ++ [sub]) m in
  let m := set_schedule (schedule_add sub (schedule m)) m in
  (* line 243 *)
  let gov := set_new_firms_resources
               (new_firms_resources gov + avg_net_worth gov)%Q gov in
  Ok (set_governments (<[region f := gov]> (governments m)) m, sub).

(** [remove_firm] *)
Definition remove_firm (m : Model) (firm : nat) : result Model :=
  f ← deref m firm;
  (* line 248 *)
  gov ← gov_attr (governments m !! region f);
  let gov := set_bailout_cost (bailout_cost gov + net_worth f)%Q gov in
  let m := set_governments (<[region f := gov]> (governments m)) m in
  (* line 249 *)
  bucket ← firms_bucket m (region f) (f_class f);
  bucket ← match list_remove firm bucket with
           | Some b => Ok b
           | None => Raise (ValueError "list.remove(x): x not in list")
           end;
  let m := set_bucket (region f) (f_class f) bucket m in
  (* line 250 *)
  sch ← schedule_remove firm (schedule m);
  Ok (set_schedule sch m).

(** The flood shock of [step], lines 299 to 304. *)
Definition flood_shock (m : Model) : Model :=
  match FLOOD_WHEN cfg !! time (schedule m) with
  | Some rp => set_flood true rp m
  | None => set_flood false 0 m
  end.

(** Modelled from the spec: [schedule.step()] of [schedule.py], which is
    not part of [model.py]: all stages of all agents, then the time counter
    advances by one. *)
Definition schedule_step (m : Model) : result Model :=
  m ← agent_stages m;
  Ok (set_schedule (schedule_tick (schedule m)) m).

(** The inner loop of [step], lines 311 to 315, over a queue. *)
Fixpoint drain_queue (queue : list nat) (m : Model) : result Model :=
  match queue with
  | [] => Ok m
  | firm :: queue' =>
      m ← remove_firm m firm;
      '(m, new_firm) ← add_subsidiary m firm;
      drain_queue queue' m
  end.

(** Lines 316 and 317. *)
Definition reset_counters (r : nat) (m : Model) : result Model :=
  gov ← gov_attr (governments m !! r);
  let gov := set_bailout_cost 0 gov in
  let gov := set_new_firms_resources 0 gov in
  Ok (set_governments (<[r := gov]> (governments m)) m).

(** The body of the loop over the regions, lines 311 to 319;
    [self.firms_to_remove] is a [defaultdict(list)]. *)
Definition remove_region (r : nat) (m : Model) : result Model :=
  m ← drain_queue (default [] (firms_to_remove m !! r)) m;
  m ← reset_counters r m;
  Ok (set_firms_to_remove (<[r := []]> (firms_to_remove m)) m).

Fixpoint remove_regions (regions : list nat) (m : Model) : result Model :=
  match regions with
  | [] => Ok m
  | r :: regions' => m ← remove_region r m; remove_regions regions' m
  end.

(** Lines 310 to 319. *)
Definition remove_bankrupt_firms (m : Model) : result Model :=
  remove_regions (REGIONS cfg) m.

(** [step]: the model after the step and what the data collector holds. *)
Definition step (m : Model) (collected : list Obs) : result (Model * list Obs) :=
  let m := flood_shock m in
  m ← schedule_step m;
  m ← remove_bankrupt_firms m;
  Ok (m, collected ++ [report m]).

End CRAB.

(** ** Observations on a model *)

(** The classes [add_subsidiary] has a branch for. *)
Definition recognized (cls : AgentClass) : bool :=
  isinstance cls CapitalFirm || isinstance cls ConsumptionFirm.

(** The seed of the stream stored under a key. *)
Definition stream_seed (rngs : gmap RngKey Generator) (k : RngKey) : option Z :=
  rng_seed <$> rngs !! k.

(** The number of firms of a class registered in a region. *)
Definition n_firms (m : Model) (r : nat) (cls : AgentClass) : nat :=
  match firms m !! r with
  | Some by_type => length (default [] (alist_lookup cls by_type))
  | None => 0
  end.

(** Two states of a firm object with the same class, region, net worth and
    brochure. *)
Definition same_firm (f f' : FirmObj) : Prop :=
  f_class f' = f_class f ∧ region f' = region f ∧ net_worth f' = net_worth f
  ∧ brochure f' = brochure f.

(** What the exit and the replacement of a firm look up: the firm is an
    object of the model, registered in its bucket and in the scheduler; its
    region has a government; its class has a stream and a capital endowment
    and is one [add_subsidiary] has a branch for, with what that branch
    reads. *)
Definition replaceable (cfg : Config) (m : Model) (x : nat) : Prop :=
  ∃ f gov bucket,
    heap m !! x = Some f
    ∧ governments m !! region f = Some gov
    ∧ firms_bucket m (region f) (f_class f) = Ok bucket
    ∧ x ∈ bucket
    ∧ x ∈ agents (schedule m)
    ∧ is_Some (RNGs m !! KClass (f_class f))
    ∧ is_Some (capital_new_firm gov !! f_class f)
    ∧ if isinstance (f_class f) CapitalFirm
      then ∃ by_type n,
             N_FIRMS cfg !! region f = Some by_type
             ∧ alist_lookup CapitalFirm by_type = Some (S n)
      else isinstance (f_class f) ConsumptionFirm = true
           ∧ is_Some (avg_comp_norm gov !! f_class f).

(** The firms a government may rank best are objects of the model whose
    brochure states a productivity. *)
Definition published (h : gmap nat FirmObj) (good : nat → Prop) : Prop :=
  ∀ b, good b → ∃ best, h !! b = Some best ∧ is_Some (brochure best !! "prod").

(** The firms queued in the given regions, in the order of the drain. *)
Definition all_queued (m : Model) (regions : list nat) : list nat :=
  concat ((λ r, default [] (firms_to_remove m !! r)) <$> regions).

(** Every reference in a queue is a firm object. *)
Definition queued_firms (h : gmap nat FirmObj) (queue : list nat) : Prop :=
  ∀ x, x ∈ queue → is_Some (h !! x).

(** Every firm in a removal queue is a firm object of the region it is
    queued under. *)
Definition queued_in_own_region (m : Model) : Prop :=
  ∀ r queue x,
    firms_to_remove m !! r = Some queue → x ∈ queue →
    ∃ f, heap m !! x = Some f ∧ region f = r.

(** The net worth a queue of exiting firms brings to the government of
    region [r], and the number of its firms that are of region [r]. *)
Fixpoint exits_net_worth (h : gmap nat FirmObj) (r : nat) (queue : list nat) : Q :=
  match queue with
  | [] => 0
  | x :: queue' =>
      match h !! x with
      | Some f =>
          if decide (region f = r)
          then (net_worth f + exits_net_worth h r queue')%Q
          else exits_net_worth h r queue'
      | None => exits_net_worth h r queue'
      end
  end.

Fixpoint exits_count (h : gmap nat FirmObj) (r : nat) (queue : list nat) : nat :=
  match queue with
  | [] => 0
  | x :: queue' =>
      match h !! x with
      | Some f =>
          if decide (region f = r)
          then S (exits_count h r queue')
          else exits_count h r queue'
      | None => exits_count h r queue'
      end
  end.

(** ** The rest of the model *)

Section Population.

(** A firm constructor of [CRAB_agents], called as
    [firm_class(model=self, region=region, **kwargs)]: the object it
    returns, for whatever keyword arguments [K] the caller passes. *)
Context {K : Type}.
Variable constructor : AgentClass → nat → K → FirmObj.

(** [add_firm]: the model after it and the reference of the new firm. *)
Definition add_firm (m : Model) (firm_class : AgentClass) (r : nat) (kwargs : K)
  : result (Model * nat) :=
  (* line 182 *)
  let firm := fresh (dom (heap m)) in
  let m := set_heap (<[firm := constructor firm_class r kwargs]> (heap m)) m in
  (* line 183 *)
  bucket ← firms_bucket m r firm_class;
  let m := set_bucket r firm_class (bucket ++ [firm]) m in
  (* lines 184 and 185 *)
  Ok (set_schedule (schedule_add firm (schedule m)) m, firm).

End Population.

Section Suppliers.

(** [Generator.choice(a)] of [numpy] on a list of objects: the element
    drawn and the advanced generator. *)
Variable choice : Generator → list nat → result (nat * Generator).

(** The body of the loop of [__init__] over the capital firms, lines 145
    to 150.  The supplier is read again after the firm has been given its
    supplier and offer, since a firm may be drawn as its own supplier. *)
Definition connect_supplier (cap_firms : list nat) (m : Model) (firm : nat)
  : result Model :=
  f ← deref m firm;
  (* line 146 *)
  rng ← getitem (RNGs m) (KClass (f_class f));
  '(s, rng') ← choice rng cap_firms;
  let m := set_RNGs (<[KClass (f_class f) := rng']> (RNGs m)) m in
  (* line 148 *)
  fs ← deref m s;
  let m := set_heap (<[firm := set_supplier s (brochure fs) f]> (heap m)) m in
  (* line 150 *)
  fs ← deref m s;
  Ok (set_heap (<[s := add_client firm fs]> (heap m)) m).

(** The loop over [cap_firms], line 144. *)
Fixpoint connect_firms (cap_firms todo : list nat) (m : Model) : result Model :=
  match todo with
  | [] => Ok m
  | firm :: todo' =>
      m ← connect_supplier cap_firms m firm;
      connect_firms cap_firms todo' m
  end.

(** The loop over the regions, lines 141 to 150. *)
Fixpoint connect_regions (regions : list nat) (m : Model) : result Model :=
  match regions with
  | [] => Ok m
  | r :: regions' =>
      cap_firms ← get_firms_by_type m CapitalFirm r;
      m ← connect_firms cap_firms cap_firms m;
      connect_regions regions' m
  end.

Definition connect_suppliers (cfg : Config) (m : Model) : result Model :=
  connect_regions (REGIONS cfg) m.

End Suppliers.

(** [c in chars] for a character and a string. *)
Fixpoint char_in (c : Ascii.ascii) (chars : string) : bool :=
  match chars with
  | EmptyString => false
  | String c' chars' => if Ascii.eqb c c' then true else char_in c chars'
  end.

(** [s.lstrip(chars)]: [s] without its leading characters that occur in
    [chars]. *)
Fixpoint py_lstrip (chars s : string) : string :=
  match s with
  | EmptyString => EmptyString
  | String c s' => if char_in c chars then py_lstrip chars s' else s
  end.

(** The text [__init__] hands to [int] for a flood-depth column [RP],
    line 111. *)
Definition return_period_text (RP : string) : string :=
  py_lstrip "Flood depth RP" RP.

(** ** More observations on a model *)

(** A firm object after the given firms were appended to its clients. *)
Definition add_clients (cs : list nat) (f : FirmObj) : FirmObj :=
  foldl (λ f c, add_client c f) f cs.

(** Every bucket of the registry lists objects of the model, each once. *)
Definition registry_wf (m : Model) : Prop :=
  ∀ r by_type cls bucket,
    firms m !! r = Some by_type → (cls, bucket) ∈ by_type →
    NoDup bucket ∧ ∀ x, x ∈ bucket → is_Some (heap m !! x).

(** The firm [x] has a supplier, an object of the model that lists [x]
    among its clients, and the single offer of [x] is that supplier's
    brochure. *)
Definition linked (h : gmap nat FirmObj) (x : nat) : Prop :=
  ∃ f s fs,
    h !! x = Some f ∧ supplier f = Some s ∧ h !! s = Some fs
    ∧ offers f = [(s, brochure fs)] ∧ x ∈ clients fs.

(** A string of decimal digits. *)
Fixpoint all_digits (s : string) : bool :=
  match s with
  | EmptyString => true
  | String c s' => char_in c "0123456789" && all_digits s'
  end.

(** ** Concrete configurations and states *)

Module Scenario.

(** Four firm types, then [Household] and [Government]: six streams. *)
Definition four_firm_types : Config :=
  {| N_REGIONS := 1;
     N_FIRMS := {[ 0%nat := [(CapitalFirm, 125%nat);
                             (ConsumptionGoodFirm, 200%nat);
                             (ServiceFirm, 300%nat);
                             (ConsumptionFirm, 50%nat)] ]};
     FLOOD_WHEN := ∅ |}.

(** One region, two capital producers, one flood at step 5. *)
Definition two_producers : Config :=
  {| N_REGIONS := 1;
     N_FIRMS := {[ 0%nat := [(CapitalFirm, 2%nat)] ]};
     FLOOD_WHEN := {[ 5%nat := 100%nat ]} |}.

(** A generator whose uniform draws are all [1/2] and beta draws [1/3]. *)
Definition fixed_sample (seed : Z) (history : list Draw) (d : Draw) : Q :=
  match d with
  | DrawUniform => 1 # 2
  | DrawBeta _ _ => 1 # 3
  end.

(** A government that ranks firm 2 best. *)
Definition second_is_best (m : Model) (r : nat) : result nat := Ok 2%nat.

(** A constructor whose firms publish their productivity and price. *)
Definition plain_defaults (cls : AgentClass) (kw : FirmKwargs) : FirmObj :=
  {| f_class := cls; region := 0%nat; flood_depths := ∅;
     market_share := 0; net_worth := 0; n_machines := 0; cap_amount := 0;
     sales := 0; wage := 0; price := 0; prod := 0; old_prod := 1;
     lifetime := 1; cap_out_ratio := 1; competitiveness := 1;
     brochure := {[ "prod" := kw_prod kw; "price" := kw_price kw ]};
     supplier := None; offers := []; clients := [] |}.

Definition idle_stages (m : Model) : result Model := Ok m.

(** A reporter of the two counters of the government of region 0. *)
Definition counters (m : Model) : option (Q * Q) :=
  (λ g, (bailout_cost g, new_firms_resources g)) <$> governments m !! 0%nat.

Definition producer (cls : AgentClass) (worth : Q) : FirmObj :=
  {| f_class := cls; region := 0%nat; flood_depths := ∅;
     market_share := 1 # 2; net_worth := worth;
     n_machines := 20; cap_amount := 3; sales := 10; wage := 1; price := 1;
     prod := 1; old_prod := 1; lifetime := 7; cap_out_ratio := 1 # 2;
     competitiveness := 1;
     brochure := {[ "prod" := (3 # 2)%Q; "price" := 1%Q ]};
     supplier := Some 2%nat; offers := []; clients := [] |}.

Definition government : GovObj :=
  {| avg_net_worth := 100; top_prod := 2;
     capital_new_firm := {[ CapitalFirm := 7%Q; Firm := 7%Q ]};
     avg_comp_norm := ∅;
     bailout_cost := 0; new_firms_resources := 0 |}.

(** Region 0 at step 5: capital producers 1 and 2; producer 1, of net
    worth -10, is queued for removal.  Object 9 is a plain [Firm], of no
    class [add_subsidiary] recognizes, given a stream and a capital
    endowment of its own. *)
Definition bankrupt_producer : Model :=
  {| RNGs := {[ KClass CapitalFirm := seeded 0;
                KClass Firm := seeded 7 ]};
     governments := {[ 0%nat := government ]};
     firms := {[ 0%nat := [(CapitalFirm, [1%nat; 2%nat])] ]};
     firms_to_remove := {[ 0%nat := [1%nat] ]};
     schedule := {| time := 5; agents := {[ 1%nat; 2%nat ]} |};
     flood_now := false; flood_return := 0;
     heap := {[ 1%nat := producer CapitalFirm (-10);
                2%nat := producer CapitalFirm 50;
                9%nat := producer Firm 50 ]} |}.

(** The states the scenario goes through: after [remove_firm] on
    producer 1, after [add_subsidiary] on it, and after the whole drain
    of region 0. *)
Definition after_exit : Model :=
  match remove_firm bankrupt_producer 1 with
  | Ok m => m
  | Raise _ => bankrupt_producer
  end.

Definition after_entry : Model :=
  match add_subsidiary two_producers fixed_sample second_is_best
          plain_defaults after_exit 1 with
  | Ok (m, _) => m
  | Raise _ => after_exit
  end.

Definition after_drain : Model :=
  match remove_region two_producers fixed_sample second_is_best
          plain_defaults 0 bankrupt_producer with
  | Ok m => m
  | Raise _ => bankrupt_producer
  end.

Definition after_step : Model :=
  match step two_producers fixed_sample second_is_best plain_defaults
          idle_stages _ counters bankrupt_producer [] with
  | Ok (m, _) => m
  | Raise _ => bankrupt_producer
  end.

(** The same region one step later. *)
Definition next_step : Model :=
  set_schedule (schedule_tick (schedule bankrupt_producer)) bankrupt_producer.


(** A generator whose uniform draws are all [1/2] and beta draws [3/4]. *)
Definition skewed_sample (seed : Z) (history : list Draw) (d : Draw) : Q :=
  match d with
  | DrawUniform => 1 # 2
  | DrawBeta _ _ => 3 # 4
  end.

(** A government with top productivity 3 that endows a new capital
    producer with the float 0.35. *)
Definition frugal_government : GovObj :=
  {| avg_net_worth := 100; top_prod := 3;
     capital_new_firm := {[ CapitalFirm := b64 0.35 ]};
     avg_comp_norm := ∅;
     bailout_cost := -10; new_firms_resources := 0 |}.

(** A capital producer with a capital-output ratio of 10. *)
Definition heavy_producer : FirmObj :=
  {| f_class := CapitalFirm; region := 0%nat; flood_depths := ∅;
     market_share := 1 # 2; net_worth := -10;
     n_machines := 20; cap_amount := 3; sales := 10; wage := 1; price := 1;
     prod := 1; old_prod := 1; lifetime := 7; cap_out_ratio := 10;
     competitiveness := 1;
     brochure := {[ "prod" := (3 # 2)%Q; "price" := 1%Q ]};
     supplier := Some 2%nat; offers := []; clients := [] |}.

(** Region 0 after the heavy producer, object 1, has been removed, and
    after its subsidiary has been added. *)
Definition failed_heavy : Model :=
  {| RNGs := {[ KClass CapitalFirm := seeded 0 ]};
     governments := {[ 0%nat := frugal_government ]};
     firms := {[ 0%nat := [(CapitalFirm, [2%nat])] ]};
     firms_to_remove := {[ 0%nat := [1%nat] ]};
     schedule := {| time := 5; agents := {[ 2%nat ]} |};
     flood_now := false; flood_return := 0;
     heap := {[ 1%nat := heavy_producer;
                2%nat := producer CapitalFirm 50 ]} |}.

Definition heavy_entry : Model :=
  match add_subsidiary two_producers skewed_sample second_is_best
          plain_defaults failed_heavy 1 with
  | Ok (m, _) => m
  | Raise _ => failed_heavy
  end.

End Scenario.

(** ** More configurations and states *)

Module Cases.
Import Scenario.

(** Region 0 with the three buckets [__init__] creates, in its order. *)
Definition three_buckets : Model :=
  set_firms {[ 0%nat := [(CapitalFirm, [1%nat; 2%nat]);
                         (ConsumptionGoodFirm, [3%nat]);
                         (ServiceFirm, [4%nat; 5%nat])] ]}
    bankrupt_producer.

(** A firm constructor whose keyword argument is the net worth. *)
Definition hire (cls : AgentClass) (r : nat) (worth : Q) : FirmObj :=
  {| f_class := cls; region := r; flood_depths := ∅;
     market_share := 0; net_worth := worth;
     n_machines := 1; cap_amount := 3; sales := 0; wage := 1; price := 1;
     prod := 1; old_prod := 1; lifetime := 0; cap_out_ratio := 1 # 2;
     competitiveness := 1;
     brochure := {[ "prod" := 1%Q; "price" := 1%Q ]};
     supplier := None; offers := []; clients := [] |}.

Definition after_hire : Model :=
  match add_firm hire bankrupt_producer CapitalFirm 0 30%Q with
  | Ok (m, _) => m
  | Raise _ => bankrupt_producer
  end.

Definition after_dismissal : Model :=
  match remove_firm after_hire 10 with
  | Ok m => m
  | Raise _ => after_hire
  end.

(** A government with an endowment and an average competitiveness for
    service firms. *)
Definition service_government : GovObj :=
  {| avg_net_worth := 100; top_prod := 2;
     capital_new_firm := {[ ServiceFirm := 7%Q ]};
     avg_comp_norm := {[ ServiceFirm := (4 # 5)%Q ]};
     bailout_cost := -10; new_firms_resources := 0 |}.

(** Region 0 after the service firm 3 has been removed: capital producer 2
    is left in the registry. *)
Definition failed_service : Model :=
  {| RNGs := {[ KClass ServiceFirm := seeded 2;
                KAdaptation := seeded 5 ]};
     governments := {[ 0%nat := service_government ]};
     firms := {[ 0%nat := [(CapitalFirm, [2%nat]); (ServiceFirm, [])] ]};
     firms_to_remove := {[ 0%nat := [3%nat] ]};
     schedule := {| time := 5; agents := {[ 2%nat ]} |};
     flood_now := false; flood_return := 0;
     heap := {[ 2%nat := producer CapitalFirm 50;
                3%nat := producer ServiceFirm (-10) ]} |}.

Definition service_entry : Model :=
  match add_subsidiary two_producers fixed_sample second_is_best
          plain_defaults failed_service 3 with
  | Ok (m, _) => m
  | Raise _ => failed_service
  end.

(** A configuration that counts no capital producer in region 0. *)
Definition no_producers : Config :=
  {| N_REGIONS := 1;
     N_FIRMS := {[ 0%nat := [(CapitalFirm, 0%nat)] ]};
     FLOOD_WHEN := ∅ |}.

(** The scenario without any stream, and without its government. *)
Definition no_streams : Model := set_RNGs ∅ bankrupt_producer.

Definition no_government : Model := set_governments ∅ bankrupt_producer.

Definition no_endowment : Model :=
  set_governments
    {[ 0%nat := {| avg_net_worth := 100; top_prod := 2;
                   capital_new_firm := ∅; avg_comp_norm := ∅;
                   bailout_cost := 0; new_firms_resources := 0 |} ]}
    bankrupt_producer.

(** A generator whose [choice] is the first element of the list. *)
Definition first_choice (g : Generator) (l : list nat)
  : result (nat * Generator) :=
  match l with
  | [] => Raise (ValueError "a cannot be empty unless no samples are taken")
  | x :: _ => Ok (x, advance DrawUniform g)
  end.

(** The scenario before its capital producers know their suppliers, and
    after the loop of [__init__] has connected them. *)
Definition unconnected : Model :=
  set_heap {[ 1%nat := hire CapitalFirm 0 (-10);
              2%nat := hire CapitalFirm 0 50;
              9%nat := producer Firm 50 ]}
    bankrupt_producer.

Definition connected : Model :=
  match connect_firms first_choice [1%nat; 2%nat] [1%nat; 2%nat] unconnected with
  | Ok m => m
  | Raise _ => unconnected
  end.

End Cases.

(** ** Basic facts *)

Lemma bind_Ok {A B} (e : result A) (k : A → result B) (b : B) :
  e ≫= k = Ok b ↔ ∃ a, e = Ok a ∧ k a = Ok b.
Proof.
  destruct e as [a|err]; simpl.
  - split; [eauto | intros (a' & [= <-] & ?); done].
  - split; [done | intros (a' & ? & ?); done].
Qed.

Lemma getitem_Ok {K V} `{Countable K} (d : gmap K V) (k : K) (v : V) :
  getitem d k = Ok v ↔ d !! k = Some v.
Proof. unfold getitem. destruct (d !! k); split; congruence. Qed.

Lemma alist_getitem_Ok {V} (d : list (AgentClass * V)) c (v : V) :
  alist_getitem d c = Ok v ↔ alist_lookup c d = Some v.
Proof. unfold alist_getitem. destruct (alist_lookup c d); split; congruence. Qed.

Lemma gov_attr_Ok slot g : gov_attr slot = Ok g ↔ slot = Some g.
Proof. destruct slot; simpl; split; congruence. Qed.

Lemma deref_Ok m ref f : deref m ref = Ok f ↔ heap m !! ref = Some f.
Proof. unfold deref. destruct (heap m !! ref); split; congruence. Qed.

Lemma py_inv_Ok n q :
  py_inv n = Ok q → n ≠ 0%nat ∧ q = (1 / inject_Z (Z.of_nat n))%Q.
Proof. destruct n; simpl; [done | intros [= <-]; done]. Qed.

(** [round]: the nearest integer, the even one of two. *)
Lemma py_round_near (x : Q) :
  (x - (1 # 2) <= inject_Z (py_round x))%Q
  ∧ (inject_Z (py_round x) <= x + (1 # 2))%Q.
Proof.
  unfold py_round.
  pose proof (Qfloor_le x) as Hlo. pose proof (Qlt_floor x) as Hhi.
  rewrite inject_Z_plus in Hhi. change (inject_Z 1) with 1%Q in Hhi.
  destruct (x - inject_Z (Qfloor x) ?= 1 # 2)%Q eqn:E.
  - apply Qeq_alt in E.
    destruct (Z.even (Qfloor x)); rewrite ?inject_Z_plus;
      change (inject_Z 1) with 1%Q; split; lra.
  - apply Qlt_alt in E. split; lra.
  - apply Qgt_alt in E. rewrite inject_Z_plus.
    change (inject_Z 1) with 1%Q. split; lra.
Qed.

Lemma py_round_tie (x : Q) :
  (x - inject_Z (Qfloor x) == 1 # 2)%Q → Z.even (py_round x) = true.
Proof.
  unfold py_round. intros E. apply Qeq_alt in E. rewrite E.
  destruct (Z.even (Qfloor x)) eqn:Ev; [done |].
  rewrite Z.even_add, Ev. reflexivity.
Qed.

(** Peel the successful binds off a hypothesis [e ≫= k = Ok b]. *)
Ltac inv_bind H :=
  repeat
    (let a := fresh "a" in
     let Ha := fresh "Ha" in
     apply bind_Ok in H as (a & Ha & H)).

(** ** Reading the registry: [get_firms] *)

(** C10: [get_firms(region, attr)] does not look at [attr]: whatever [attr]
    is, the call is the call with [attr=None], and for a region that has a
    firm dictionary it returns the type buckets of that region chained in
    the dictionary's order. *)
Theorem get_firms_ignores_attr {A} (m : Model) (r : nat) (attr : option A) :
  get_firms m r attr = get_firms m r (@None A)
  ∧ ∀ by_type, firms m !! r = Some by_type →
      get_firms m r attr = Ok (concat (by_type.*2)).
Proof.
  split; [reflexivity |].
  intros by_type Hr. unfold get_firms. by rewrite Hr.
Qed.

(** ** Seeding the streams *)

Lemma default_rng_Ok seed :
  0 <= seed → default_rng seed = Ok {| rng_seed := seed; rng_history := [] |}.
Proof.
  intros H. unfold default_rng. by destruct (Z.ltb_spec seed 0); [lia |].
Qed.

Lemma default_rng_inv seed g :
  default_rng seed = Ok g →
  0 <= seed ∧ g = {| rng_seed := seed; rng_history := [] |}.
Proof.
  unfold default_rng. destruct (Z.ltb_spec seed 0); [done |].
  intros [= <-]. done.
Qed.

Lemma default_rng_negative seed :
  seed < 0 → default_rng seed = Raise (ValueError "expected non-negative integer").
Proof.
  intros H. unfold default_rng. by destruct (Z.ltb_spec seed 0); [| lia].
Qed.

Lemma seed_streams_succeeds s types : ∀ i rngs,
  0 <= s → is_Ok (seed_streams s i types rngs).
Proof.
  induction types as [|c types IH]; intros i rngs Hs; simpl; [by eexists |].
  rewrite default_rng_Ok by lia. simpl. by apply IH.
Qed.

Lemma seed_streams_other s types : ∀ i rngs rngs' k,
  seed_streams s i types rngs = Ok rngs' →
  (∀ c, k = KClass c → c ∉ types) →
  rngs' !! k = rngs !! k.
Proof.
  induction types as [|c types IH]; intros i rngs rngs' k H Hk; simpl in H.
  - by injection H as <-.
  - apply bind_Ok in H as (g & _ & H).
    rewrite (IH _ _ _ k H).
    + apply lookup_insert_ne. intros <-. apply (Hk c eq_refl). left.
    + intros c' -> Hin. apply (Hk c' eq_refl). by right.
Qed.

Lemma seed_streams_lookup s types : ∀ i rngs rngs' j c,
  seed_streams s i types rngs = Ok rngs' →
  NoDup types → types !! j = Some c →
  0 <= s + Z.of_nat (i + j)
  ∧ rngs' !! KClass c
    = Some {| rng_seed := s + Z.of_nat (i + j); rng_history := [] |}.
Proof.
  induction types as [|c0 types IH]; intros i rngs rngs' j c H Hnd Hj; [done |].
  apply NoDup_cons in Hnd as [Hnotin Hnd].
  simpl in H. apply bind_Ok in H as (g & [Hpos ->]%default_rng_inv & H).
  destruct j as [|j]; simpl in Hj.
  - injection Hj as ->.
    rewrite (seed_streams_other _ _ _ _ _ (KClass c) H).
    + rewrite lookup_insert_eq, Nat.add_0_r. done.
    + intros c' [= <-]. done.
  - destruct (IH (S i) _ _ j c H Hnd Hj) as [Hpos' Hlook].
    replace (i + S j)%nat with (S i + j)%nat by lia. done.
Qed.

Lemma init_RNGs_negative cfg s types :
  agent_types cfg = Ok types → s < 0 →
  init_RNGs cfg s = Raise (ValueError "expected non-negative integer").
Proof.
  intros Htypes Hs. unfold init_RNGs. rewrite Htypes.
  cbn [mbind result_bind].
  assert (Hshape : ∃ c l, types = c :: l).
  { unfold agent_types in Htypes.
    destruct (getitem (N_FIRMS cfg) 0%nat) as [by_type|]; [| done].
    injection Htypes as <-. destruct (by_type.*1); by eexists _, _. }
  destruct Hshape as (c & l & ->). cbn [seed_streams].
  by rewrite (default_rng_negative (s + Z.of_nat 0)) by lia.
Qed.

(** C4: with a base seed [s] that is not negative, the stream of the
    [i]-th agent type (the keys of [N_FIRMS[0]] in order, then [Household],
    then [Government]) is a fresh generator seeded [s + i], and the
    adaptation stream is seeded [s + i_max + 1] for the last index [i_max];
    with four firm types (six streams) and seed 0 the per-type seeds are
    0, 1, 2, 3, 4, 5 in order and the adaptation seed is 6.  With a negative
    base seed the construction stops at the first stream, with the
    [ValueError] of [default_rng]. *)
Theorem init_RNGs_seeds :
  (∀ cfg s types,
     agent_types cfg = Ok types → NoDup types → 0 <= s →
     ∃ rngs,
       init_RNGs cfg s = Ok rngs
       ∧ (∀ i c, types !! i = Some c →
            rngs !! KClass c
            = Some {| rng_seed := s + Z.of_nat i; rng_history := [] |})
       ∧ rngs !! KAdaptation
         = Some {| rng_seed := s + (Z.of_nat (length types) - 1) + 1;
                   rng_history := [] |})
  ∧ (∀ cfg s types,
       agent_types cfg = Ok types → s < 0 →
       init_RNGs cfg s = Raise (ValueError "expected non-negative integer"))
  ∧ (∀ cfg by_type,
       N_FIRMS cfg !! 0%nat = Some by_type → length by_type = 4%nat →
       NoDup (by_type.*1 ++ [Household; Government]) →
       ∃ rngs,
         init_RNGs cfg 0 = Ok rngs
         ∧ (stream_seed rngs ∘ KClass)
             <$> (by_type.*1 ++ [Household; Government])
           = Some <$> [0; 1; 2; 3; 4; 5]
         ∧ stream_seed rngs KAdaptation = Some 6).
Proof.
  assert (Hgen : ∀ cfg s types,
     agent_types cfg = Ok types → NoDup types → 0 <= s →
     ∃ rngs,
       init_RNGs cfg s = Ok rngs
       ∧ (∀ i c, types !! i = Some c →
            rngs !! KClass c
            = Some {| rng_seed := s + Z.of_nat i; rng_history := [] |})
       ∧ rngs !! KAdaptation
         = Some {| rng_seed := s + (Z.of_nat (length types) - 1) + 1;
                   rng_history := [] |}).
  { intros cfg s types Htypes Hnd Hs. unfold init_RNGs. rewrite Htypes.
    cbn [mbind result_bind].
    destruct (seed_streams_succeeds s types 0 ∅ Hs) as [rngs0 Hseed].
    rewrite Hseed.
    assert (Hlen : 0 < Z.of_nat (length types)).
    { unfold agent_types in Htypes.
      destruct (getitem (N_FIRMS cfg) 0%nat) as [by_type|]; [| done].
      injection Htypes as <-. rewrite length_app. simpl. lia. }
    rewrite default_rng_Ok by lia.
    eexists. split; [reflexivity |]. split.
    - intros i c Hi. rewrite lookup_insert_ne by done.
      by destruct (seed_streams_lookup s types 0 ∅ _ i c Hseed Hnd Hi).
    - by rewrite lookup_insert_eq. }
  split; [exact Hgen |]. split; [exact init_RNGs_negative |].
  intros cfg by_type H0 Hlen Hnd.
  assert (Htypes : agent_types cfg = Ok (by_type.*1 ++ [Household; Government])).
  { unfold agent_types, getitem. by rewrite H0. }
  destruct (Hgen cfg 0 _ Htypes Hnd) as (rngs & Hinit & Hcls & Hadapt); [done |].
  exists rngs. split; [exact Hinit |].
  destruct by_type as [|[c1 n1] [|[c2 n2] [|[c3 n3] [|[c4 n4] [|]]]]]; try done.
  unfold stream_seed. split.
  - simpl.
    rewrite (Hcls 0%nat c1 eq_refl), (Hcls 1%nat c2 eq_refl),
      (Hcls 2%nat c3 eq_refl), (Hcls 3%nat c4 eq_refl),
      (Hcls 4%nat Household eq_refl), (Hcls 5%nat Government eq_refl).
    reflexivity.
  - rewrite Hadapt. reflexivity.
Qed.

(** The constants of [model.py] itself name three firm types: five per-type
    streams seeded 0 to 4 and the adaptation stream seeded 5. *)
Lemma init_RNGs_reference :
  ∃ rngs,
    init_RNGs reference_config 0 = Ok rngs
    ∧ (stream_seed rngs ∘ KClass)
        <$> [CapitalFirm; ConsumptionGoodFirm; ServiceFirm; Household; Government]
      = Some <$> [0; 1; 2; 3; 4]
    ∧ stream_seed rngs KAdaptation = Some 5.
Proof. eexists. split; [reflexivity |]. by vm_compute. Qed.

(** ** The flood shock *)

Section Flood.
Context (cfg : Config).

Lemma flood_shock_schedule_time m :
  schedule (flood_shock cfg m) = schedule m.
Proof. unfold flood_shock. by destruct (FLOOD_WHEN cfg !! _). Qed.

Lemma flood_shock_now_iff m :
  flood_now (flood_shock cfg m) = true
  ↔ time (schedule m) ∈ dom (FLOOD_WHEN cfg).
Proof.
  unfold flood_shock.
  destruct (FLOOD_WHEN cfg !! time (schedule m)) eqn:E; simpl.
  - split; [intros _ | done]. apply elem_of_dom. by rewrite E.
  - split; [done |]. intros [rp Hrp]%elem_of_dom. congruence.
Qed.

(** C7: at the start of a step at time [t], [step] sets [flood_now] and
    sets [flood_return] to [FLOOD_WHEN[t]] exactly when [t] is a key of
    [FLOOD_WHEN], and otherwise clears [flood_now] (and sets
    [flood_return] to 0); with [FLOOD_WHEN = {5: 100}], at step 5 the flag
    is set with return period 100, and at step 6 the flag is clear. *)
Theorem flood_shock_flag (m : Model) :
  (∀ rp, FLOOD_WHEN cfg !! time (schedule m) = Some rp →
     flood_now (flood_shock cfg m) = true
     ∧ flood_return (flood_shock cfg m) = rp)
  ∧ (FLOOD_WHEN cfg !! time (schedule m) = None →
     flood_now (flood_shock cfg m) = false
     ∧ flood_return (flood_shock cfg m) = 0%nat)
  ∧ (flood_now (flood_shock cfg m) = true
     ↔ time (schedule m) ∈ dom (FLOOD_WHEN cfg))
  ∧ (FLOOD_WHEN cfg = {[ 5%nat := 100%nat ]} →
     (time (schedule m) = 5%nat →
        flood_now (flood_shock cfg m) = true
        ∧ flood_return (flood_shock cfg m) = 100%nat)
     ∧ (time (schedule m) = 6%nat →
        flood_now (flood_shock cfg m) = false)).
Proof.
  split; [| split; [| split]].
  - intros rp Hrp. unfold flood_shock. by rewrite Hrp.
  - intros Hnone. unfold flood_shock. by rewrite Hnone.
  - apply flood_shock_now_iff.
  - intros Hcfg. unfold flood_shock. rewrite Hcfg.
    split; intros Ht; by rewrite Ht.
Qed.
End Flood.

(** ** The lifecycle manager *)

Section Lifecycle.
Context (cfg : Config) (sample : Z → list Draw → Draw → Q)
        (get_best_cap : Model → nat → result nat)
        (class_defaults : AgentClass → FirmKwargs → FirmObj).

Local Abbreviation derive_subsidiary := (derive_subsidiary cfg sample class_defaults).
Local Abbreviation add_subsidiary :=
  (add_subsidiary cfg sample get_best_cap class_defaults).
Local Abbreviation drain_queue :=
  (drain_queue cfg sample get_best_cap class_defaults).
Local Abbreviation remove_region :=
  (remove_region cfg sample get_best_cap class_defaults).
Local Abbreviation remove_regions :=
  (remove_regions cfg sample get_best_cap class_defaults).
Local Abbreviation remove_bankrupt_firms :=
  (remove_bankrupt_firms cfg sample get_best_cap class_defaults).

(** *** What a successful call has done *)

Lemma derive_subsidiary_inv rngs gov f nw capital_amount offer rngs' sub0 :
  derive_subsidiary rngs gov f nw capital_amount offer = Ok (rngs', sub0) →
  f_class sub0 = f_class f ∧ region sub0 = region f
  ∧ net_worth sub0 = nw ∧ lifetime sub0 = 0
  ∧ offer !! "prod" = Some (prod sub0)
  ∧ (isinstance (f_class f) CapitalFirm = true
     ∨ isinstance (f_class f) ConsumptionFirm = true).
Proof.
  unfold derive_subsidiary. intros H.
  destruct (isinstance (f_class f) CapitalFirm) eqn:Ecap.
  - inv_bind H. simpl in H. inv_bind H. injection H as <- <-.
    apply getitem_Ok in Ha0. simpl. auto 10.
  - destruct (isinstance (f_class f) ConsumptionFirm) eqn:Econs; [|done].
    inv_bind H. injection H as <- <-.
    apply getitem_Ok in Ha. simpl. auto 10.
Qed.

Lemma derive_subsidiary_capital rngs gov f nw capital_amount offer rngs' sub0 :
  isinstance (f_class f) CapitalFirm = true →
  derive_subsidiary rngs gov f nw capital_amount offer = Ok (rngs', sub0) →
  ∃ rng by_type n,
    rngs !! KClass (f_class f) = Some rng
    ∧ rngs' = <[KClass (f_class f) := advance (DrawBeta 2 4) rng]> rngs
    ∧ old_prod sub0
      = np_around3
          (fmul (top_prod gov)
             (fraction_prod
                (sample (rng_seed rng) (rng_history rng) (DrawBeta 2 4))))
    ∧ N_FIRMS cfg !! region f = Some by_type
    ∧ alist_lookup CapitalFirm by_type = Some n
    ∧ n ≠ 0%nat
    ∧ market_share sub0 = (1 / inject_Z (Z.of_nat n))%Q.
Proof.
  unfold derive_subsidiary. intros -> H.
  inv_bind H. simpl in H. inv_bind H. injection H as <- <-.
  apply getitem_Ok in Ha, Ha1. apply alist_getitem_Ok in Ha2.
  apply py_inv_Ok in Ha3 as [Hn ->].
  exists a, a1, a2. simpl. auto 10.
Qed.

Lemma add_subsidiary_inv m firm m' sub :
  add_subsidiary m firm = Ok (m', sub) →
  ∃ f rng gov cap best_cap best rngs' sub0 bucket,
    heap m !! firm = Some f
    ∧ RNGs m !! KClass (f_class f) = Some rng
    ∧ governments m !! region f = Some gov
    ∧ capital_new_firm gov !! f_class f = Some cap
    ∧ get_best_cap
        (set_RNGs (<[KClass (f_class f) := advance DrawUniform rng]> (RNGs m)) m)
        (region f) = Ok best_cap
    ∧ heap m !! best_cap = Some best
    ∧ derive_subsidiary
        (<[KClass (f_class f) := advance DrawUniform rng]> (RNGs m)) gov f
        (py_max (avg_net_worth gov) 1
         * fraction_wealth (sample (rng_seed rng) (rng_history rng) DrawUniform))%Q
        (py_round (fmul cap (cap_out_ratio f))) (brochure best)
      = Ok (rngs', sub0)
    ∧ sub = fresh (dom (heap m))
    ∧ firms_bucket m (region f) (f_class f) = Ok bucket
    ∧ RNGs m' = rngs'
    ∧ governments m'
      = <[region f := set_new_firms_resources
                        (new_firms_resources gov + avg_net_worth gov)%Q gov]>
          (governments m)
    ∧ firms m'
      = <[region f := alist_set (f_class f) (bucket ++ [sub])
                        (default [] (firms m !! region f))]> (firms m)
    ∧ firms_to_remove m' = firms_to_remove m
    ∧ schedule m' = schedule_add sub (schedule m)
    ∧ flood_now m' = flood_now m ∧ flood_return m' = flood_return m
    ∧ heap m'
      = <[best_cap := add_client sub best]>
          (<[sub := set_supplier best_cap (brochure best) sub0]> (heap m)).
Proof.
  unfold add_subsidiary. intros H.
  apply bind_Ok in H as (f & Hf & H). apply deref_Ok in Hf.
  apply bind_Ok in H as (rng & Hrng & H). apply getitem_Ok in Hrng.
  cbn [uniform] in H.
  apply bind_Ok in H as (gov & Hgov & H). apply gov_attr_Ok in Hgov.
  apply bind_Ok in H as (cap & Hcap & H). apply getitem_Ok in Hcap.
  apply bind_Ok in H as (best_cap & Hbest_cap & H).
  apply bind_Ok in H as (best & Hbest & H). apply deref_Ok in Hbest.
  apply bind_Ok in H as ([rngs' sub0] & Hsub0 & H).
  apply bind_Ok in H as (bucket & Hbucket & H).
  injection H as <- <-.
  destruct (derive_subsidiary_inv _ _ _ _ _ _ _ _ Hsub0)
    as (Hcls & Hreg & _).
  cbn [region f_class set_supplier] in Hbucket. rewrite Hcls, Hreg in Hbucket.
  exists f, rng, gov, cap, best_cap, best, rngs', sub0, bucket.
  cbn. rewrite ?Hcls, ?Hreg. auto 20.
Qed.

Lemma remove_firm_inv m firm m' :
  remove_firm m firm = Ok m' →
  ∃ f gov bucket bucket',
    heap m !! firm = Some f
    ∧ governments m !! region f = Some gov
    ∧ firms_bucket m (region f) (f_class f) = Ok bucket
    ∧ list_remove firm bucket = Some bucket'
    ∧ firm ∈ agents (schedule m)
    ∧ RNGs m' = RNGs m
    ∧ governments m'
      = <[region f := set_bailout_cost (bailout_cost gov + net_worth f)%Q gov]>
          (governments m)
    ∧ firms m'
      = <[region f := alist_set (f_class f) bucket'
                        (default [] (firms m !! region f))]> (firms m)
    ∧ firms_to_remove m' = firms_to_remove m
    ∧ time (schedule m') = time (schedule m)
    ∧ agents (schedule m') = agents (schedule m) ∖ {[firm]}
    ∧ flood_now m' = flood_now m ∧ flood_return m' = flood_return m
    ∧ heap m' = heap m.
Proof.
  unfold remove_firm. intros H.
  apply bind_Ok in H as (f & Hf & H). apply deref_Ok in Hf.
  apply bind_Ok in H as (gov & Hgov & H). apply gov_attr_Ok in Hgov.
  apply bind_Ok in H as (bucket & Hbucket & H).
  apply bind_Ok in H as (bucket' & Hbucket' & H).
  apply bind_Ok in H as (sch & Hsch & H).
  injection H as <-.
  destruct (list_remove firm bucket) as [b|] eqn:Hrem; [|done].
  injection Hbucket' as ->.
  unfold schedule_remove in Hsch. cbn in Hsch.
  destruct (decide (firm ∈ agents (schedule m))) as [Hin|]; [|done].
  injection Hsch as <-.
  exists f, gov, bucket, bucket'. cbn. auto 20.
Qed.

(** *** The registry counts *)

Lemma alist_lookup_set {V} c c' (v : V) d :
  alist_lookup c' (alist_set c v d)
  = if decide (c' = c) then Some v else alist_lookup c' d.
Proof.
  induction d as [|[c0 v0] d IH]; simpl.
  - by destruct (decide (c' = c)).
  - destruct (decide (c = c0)) as [->|Hne]; simpl.
    + by destruct (decide (c' = c0)).
    + destruct (decide (c' = c0)) as [->|]; [|done].
      by destruct (decide (c0 = c)).
Qed.

Lemma list_remove_length x l l' :
  list_remove x l = Some l' → length l = S (length l').
Proof.
  revert l'. induction l as [|y l IH]; intros l'; simpl; [done |].
  destruct (decide (x = y)); [by intros [= ->] |].
  destruct (list_remove x l) as [l0|]; simpl; [|done].
  intros [= <-]. simpl. by rewrite (IH l0).
Qed.

Lemma n_firms_set_bucket m m' r cls bucket b :
  firms_bucket m r cls = Ok bucket →
  firms m' = <[r := alist_set cls b (default [] (firms m !! r))]> (firms m) →
  ∀ r' cls',
    n_firms m' r' cls'
    = if decide (r' = r ∧ cls' = cls) then length b else n_firms m r' cls'.
Proof.
  unfold firms_bucket, n_firms. intros Hb -> r' cls'.
  destruct (firms m !! r) as [by_type|] eqn:Hr; [|done].
  destruct (decide (r' = r)) as [->|Hne].
  - rewrite lookup_insert_eq, Hr. simpl. rewrite alist_lookup_set.
    destruct (decide (cls' = cls)) as [->|]; simpl.
    + rewrite decide_True; done.
    + rewrite decide_False; [done | tauto].
  - rewrite lookup_insert_ne by done.
    rewrite decide_False; [done | tauto].
Qed.

(** One exit, one entry: the counts of every bucket are back where they
    were. *)
Lemma exit_entry_n_firms m firm m1 m2 sub :
  remove_firm m firm = Ok m1 →
  add_subsidiary m1 firm = Ok (m2, sub) →
  ∀ r cls, n_firms m2 r cls = n_firms m r cls.
Proof.
  intros Hrem Hadd r cls.
  apply remove_firm_inv in Hrem
    as (f & gov & bucket & bucket' & Hf & _ & Hb & Hb' & _ & _ & _ & Hfirms1
        & _ & _ & _ & _ & _ & Hheap1).
  apply add_subsidiary_inv in Hadd
    as (f' & rng & gov1 & cap & best_cap & best & rngs' & sub0 & bucket1
        & Hf' & _ & _ & _ & _ & _ & _ & _ & Hb1 & _ & _ & Hfirms2 & _).
  rewrite Hheap1, Hf in Hf'. injection Hf' as <-.
  rewrite (n_firms_set_bucket m1 m2 _ _ _ _ Hb1 Hfirms2).
  rewrite (n_firms_set_bucket m m1 _ _ _ _ Hb Hfirms1).
  destruct (decide (r = region f ∧ cls = f_class f)) as [[-> ->]|]; [|done].
  assert (bucket1 = bucket') as ->.
  { unfold firms_bucket in Hb, Hb1. rewrite Hfirms1 in Hb1.
    rewrite lookup_insert_eq in Hb1.
    apply alist_getitem_Ok in Hb1. rewrite alist_lookup_set in Hb1.
    rewrite decide_True in Hb1 by done. by injection Hb1. }
  rewrite length_app. simpl.
  unfold n_firms, firms_bucket in *.
  destruct (firms m !! region f) as [by_type|]; [|done].
  apply alist_getitem_Ok in Hb. rewrite Hb. simpl.
  rewrite (list_remove_length _ _ _ Hb'). lia.
Qed.

Lemma drain_queue_n_firms queue : ∀ m m',
  drain_queue queue m = Ok m' →
  ∀ r cls, n_firms m' r cls = n_firms m r cls.
Proof.
  induction queue as [|firm queue IH]; intros m m' H r cls; simpl in H.
  - by injection H as <-.
  - apply bind_Ok in H as (m1 & Hrem & H).
    apply bind_Ok in H as ([m2 sub] & Hadd & H).
    rewrite (IH _ _ H). by apply (exit_entry_n_firms m firm m1 m2 sub).
Qed.

Lemma reset_counters_inv r m m' :
  reset_counters r m = Ok m' →
  ∃ gov,
    governments m !! r = Some gov
    ∧ m' = set_governments
             (<[r := set_new_firms_resources 0 (set_bailout_cost 0 gov)]>
                (governments m)) m.
Proof.
  unfold reset_counters. intros H.
  apply bind_Ok in H as (gov & Hgov & H). apply gov_attr_Ok in Hgov.
  injection H as <-. by exists gov.
Qed.

Lemma remove_region_inv r m m' :
  remove_region r m = Ok m' →
  ∃ m1 gov,
    drain_queue (default [] (firms_to_remove m !! r)) m = Ok m1
    ∧ governments m1 !! r = Some gov
    ∧ m' = set_firms_to_remove (<[r := []]> (firms_to_remove m1))
             (set_governments
                (<[r := set_new_firms_resources 0 (set_bailout_cost 0 gov)]>
                   (governments m1)) m1).
Proof.
  unfold remove_region. intros H.
  apply bind_Ok in H as (m1 & Hdrain & H).
  apply bind_Ok in H as (m2 & Hreset & H).
  apply reset_counters_inv in Hreset as (gov & Hgov & ->).
  injection H as <-. by exists m1, gov.
Qed.

Lemma remove_region_fields r m m' :
  remove_region r m = Ok m' →
  ∃ m1 gov,
    drain_queue (default [] (firms_to_remove m !! r)) m = Ok m1
    ∧ governments m1 !! r = Some gov
    ∧ governments m'
      = <[r := set_new_firms_resources 0 (set_bailout_cost 0 gov)]>
          (governments m1)
    ∧ firms_to_remove m' = <[r := []]> (firms_to_remove m1)
    ∧ firms m' = firms m1 ∧ heap m' = heap m1 ∧ RNGs m' = RNGs m1
    ∧ schedule m' = schedule m1
    ∧ flood_now m' = flood_now m1 ∧ flood_return m' = flood_return m1.
Proof.
  intros H. apply remove_region_inv in H as (m1 & gov & Hdrain & Hgov & ->).
  exists m1, gov. cbn. auto 12.
Qed.

Lemma remove_regions_n_firms regions : ∀ m m',
  remove_regions regions m = Ok m' →
  ∀ r cls, n_firms m' r cls = n_firms m r cls.
Proof.
  induction regions as [|r0 regions IH]; intros m m' H r cls; simpl in H.
  - by injection H as <-.
  - apply bind_Ok in H as (m1 & Hreg & H).
    rewrite (IH _ _ H).
    apply remove_region_inv in Hreg as (m0 & gov & Hdrain & _ & ->).
    by rewrite <- (drain_queue_n_firms _ _ _ Hdrain r cls).
Qed.

(** C3: draining the removal queues runs [remove_firm] and then
    [add_subsidiary] on each queued firm, the subsidiary is of the class
    and the region of the firm it replaces, and so, when the drain
    completes, every region holds as many firms of every type as before
    it.  (An exception aborts the run; [drain_completes] below gives the
    conditions under which there is none.) *)
Theorem population_conservation (m m' : Model) :
  remove_bankrupt_firms m = Ok m' →
  (∀ r cls, n_firms m' r cls = n_firms m r cls)
  ∧ (∀ firm queue m0 m2,
       drain_queue (firm :: queue) m0 = Ok m2 →
       ∃ m1 m1' f sub sub_obj,
         remove_firm m0 firm = Ok m1
         ∧ add_subsidiary m1 firm = Ok (m1', sub)
         ∧ drain_queue queue m1' = Ok m2
         ∧ heap m0 !! firm = Some f
         ∧ heap m1' !! sub = Some sub_obj
         ∧ f_class sub_obj = f_class f
         ∧ region sub_obj = region f
         ∧ (∀ r cls, n_firms m1' r cls = n_firms m0 r cls)).
Proof.
  intros H. split.
  - exact (remove_regions_n_firms _ _ _ H).
  - clear. intros firm queue m0 m2 Hdrain. simpl in Hdrain.
    apply bind_Ok in Hdrain as (m1 & Hrem & Hdrain).
    apply bind_Ok in Hdrain as ([m1' sub] & Hadd & Hdrain).
    pose proof (exit_entry_n_firms _ _ _ _ _ Hrem Hadd) as Hcount.
    pose proof Hrem as Hrem'. pose proof Hadd as Hadd'.
    apply remove_firm_inv in Hrem'
      as (f & _ & _ & _ & Hf & _ & _ & _ & _ & _ & _ & _ & _ & _ & _ & _ & _
          & Hheap1).
    apply add_subsidiary_inv in Hadd'
      as (f' & rng & gov1 & cap & best_cap & best & rngs' & sub0 & bucket1
          & Hf' & _ & _ & _ & _ & Hbest & Hsub0 & Hsub & _ & _ & _ & _ & _
          & _ & _ & _ & Hheap2).
    rewrite Hheap1, Hf in Hf'. injection Hf' as <-.
    apply derive_subsidiary_inv in Hsub0 as (Hcls & Hreg & _).
    exists m1, m1', f, sub, (set_supplier best_cap (brochure best) sub0).
    repeat split; try done.
    rewrite Hheap2. rewrite lookup_insert_ne.
    + by rewrite lookup_insert_eq.
    + intros ->. rewrite Hsub in Hbest.
      apply (is_fresh (dom (heap m1))). apply elem_of_dom. by rewrite Hbest.
Qed.

(** *** The subsidiary *)


Lemma fraction_wealth_range u :
  (0 <= u)%Q → (u < 1)%Q →
  (0.1 <= fraction_wealth u)%Q ∧ (fraction_wealth u < 0.9)%Q
  ∧ ((0 < u)%Q → (0.1 < fraction_wealth u)%Q).
Proof.
  unfold fraction_wealth. intros H0 H1.
  split; [lra | split; [lra | intros Hpos; lra]].
Qed.

(** The lower end is reached: a draw of 0, which [uniform] can return,
    gives the fraction 0.1. *)
Lemma fraction_wealth_at_zero : (fraction_wealth 0 == 0.1)%Q.
Proof. reflexivity. Qed.

(** The subsidiary is a new object: its reference is not the best
    capital producer's, nor any other object's of the model. *)
Lemma add_subsidiary_fresh m firm m' sub :
  add_subsidiary m firm = Ok (m', sub) → heap m !! sub = None.
Proof.
  intros H. apply add_subsidiary_inv in H
    as (f & rng & gov & cap & best_cap & best & rngs' & sub0 & bucket
        & _ & _ & _ & _ & _ & _ & _ & -> & _).
  apply not_elem_of_dom, is_fresh.
Qed.

Lemma add_subsidiary_heap_sub m firm m' sub :
  add_subsidiary m firm = Ok (m', sub) →
  ∃ f rng gov cap best_cap best rngs' sub0,
    heap m !! firm = Some f
    ∧ RNGs m !! KClass (f_class f) = Some rng
    ∧ governments m !! region f = Some gov
    ∧ capital_new_firm gov !! f_class f = Some cap
    ∧ get_best_cap
        (set_RNGs (<[KClass (f_class f) := advance DrawUniform rng]> (RNGs m)) m)
        (region f) = Ok best_cap
    ∧ heap m !! best_cap = Some best
    ∧ derive_subsidiary
        (<[KClass (f_class f) := advance DrawUniform rng]> (RNGs m)) gov f
        (py_max (avg_net_worth gov) 1
         * fraction_wealth (sample (rng_seed rng) (rng_history rng) DrawUniform))%Q
        (py_round (fmul cap (cap_out_ratio f))) (brochure best)
      = Ok (rngs', sub0)
    ∧ RNGs m' = rngs'
    ∧ heap m' !! sub = Some (set_supplier best_cap (brochure best) sub0).
Proof.
  intros H. pose proof (add_subsidiary_fresh _ _ _ _ H) as Hfresh.
  apply add_subsidiary_inv in H
    as (f & rng & gov & cap & best_cap & best & rngs' & sub0 & bucket
        & Hf & Hrng & Hgov & Hcap & Hbc & Hbest & Hsub0 & Hsub & _ & Hrngs
        & _ & _ & _ & _ & _ & _ & Hheap).
  exists f, rng, gov, cap, best_cap, best, rngs', sub0.
  repeat split; try done.
  rewrite Hheap, lookup_insert_ne, lookup_insert_eq; [done |].
  intros ->. congruence.
Qed.



(** C5: for a capital producer, the subsidiary's productivity is the
    [prod] entry of the best capital producer's brochure; its historical
    productivity is [top_prod * (1 + x_low + b * (x_up - x_low))] rounded
    to 3 decimals, with [x_low = -0.075], [x_up = 0.075] and [b] the value
    of the Beta(2, 4) draw that follows the uniform draw on the stream of
    the firm's type: the float nearest to [k / 1000], for [k] the integer
    nearest to 1000 times that product, the even one of two, every
    operation being one on floats; its market share is 1 over
    [N_FIRMS[region][CapitalFirm]]; its lifetime is 0. *)
Theorem capital_subsidiary (m m' : Model) (firm sub : nat) (f : FirmObj) :
  heap m !! firm = Some f →
  isinstance (f_class f) CapitalFirm = true →
  add_subsidiary m firm = Ok (m', sub) →
  ∃ gov rng best_cap best sub_obj by_type n (k : Z),
    governments m !! region f = Some gov
    ∧ RNGs m !! KClass (f_class f) = Some rng
    ∧ get_best_cap
        (set_RNGs (<[KClass (f_class f) := (uniform sample rng).2]> (RNGs m)) m)
        (region f) = Ok best_cap
    ∧ heap m !! best_cap = Some best
    ∧ heap m' !! sub = Some sub_obj
    ∧ brochure best !! "prod" = Some (prod sub_obj)
    ∧ (let b :=
         sample (rng_seed rng) (rng_history rng ++ [DrawUniform]) (DrawBeta 2 4) in
       let x_low := b64 (-0.075) in
       let x_up := b64 0.075 in
       let fraction := b64 (b64 (1 + x_low) + b64 (b * b64 (x_up - x_low))) in
       let scaled := b64 (b64 (top_prod gov * fraction) * 1000) in
       old_prod sub_obj = b64 (inject_Z k / 1000)
       ∧ (scaled - (1 # 2) <= inject_Z k)%Q
       ∧ (inject_Z k <= scaled + (1 # 2))%Q
       ∧ ((scaled - inject_Z (Qfloor scaled) == 1 # 2)%Q → Z.even k = true)
       ∧ RNGs m' !! KClass (f_class f)
         = Some {| rng_seed := rng_seed rng;
                   rng_history :=
                     rng_history rng ++ [DrawUniform; DrawBeta 2 4] |})
    ∧ N_FIRMS cfg !! region f = Some by_type
    ∧ alist_lookup CapitalFirm by_type = Some n
    ∧ market_share sub_obj = (1 / inject_Z (Z.of_nat n))%Q
    ∧ lifetime sub_obj = 0.
Proof.
  intros Hf Hcap H.
  apply add_subsidiary_heap_sub in H
    as (f' & rng & gov & cap & best_cap & best & rngs' & sub0
        & Hf' & Hrng & Hgov & _ & Hbc & Hbest & Hsub0 & Hrngs & Hheap).
  rewrite Hf in Hf'. injection Hf' as <-.
  pose proof (derive_subsidiary_inv _ _ _ _ _ _ _ _ Hsub0)
    as (_ & _ & _ & Hlife & Hprod & _).
  apply (derive_subsidiary_capital _ _ _ _ _ _ _ _ Hcap) in Hsub0
    as (rng1 & by_type & n & Hrng1 & -> & Hold & Hby & Hn & _ & Hshare).
  rewrite lookup_insert_eq in Hrng1. injection Hrng1 as <-.
  cbn [advance rng_seed rng_history] in Hold.
  set (v := fmul (top_prod gov) _) in Hold.
  exists gov, rng, best_cap, best,
    (set_supplier best_cap (brochure best) sub0), by_type, n,
    (py_round (fmul v 1000)).
  do 6 (split; [done |]).
  split; [| done].
  destruct (py_round_near (fmul v 1000)) as [Hlo Hhi].
  cbn zeta. cbn [set_supplier old_prod].
  split; [exact Hold |]. split; [exact Hlo |]. split; [exact Hhi |].
  split; [apply py_round_tie |].
  rewrite Hrngs, lookup_insert_eq. unfold advance. cbn.
  by rewrite <- app_assoc.
Qed.

(** *** The error of an unrecognized firm type *)

Lemma bind_Raise {A B} (e : result A) (k : A → result B) (err : PyError) :
  e ≫= k = Raise err ↔ e = Raise err ∨ ∃ a, e = Ok a ∧ k a = Raise err.
Proof.
  destruct e as [a|err']; simpl.
  - split; [eauto | intros [? | (a' & [= <-] & ?)]; done].
  - split; [intros [= ->]; by left | intros [[= ->] | (a' & ? & ?)]; done].
Qed.

Lemma getitem_Raise {K V} `{Countable K} (d : gmap K V) (k : K) err :
  getitem d k = Raise err → err = KeyError.
Proof. unfold getitem. destruct (d !! k); congruence. Qed.

Lemma alist_getitem_Raise {V} (d : list (AgentClass * V)) c err :
  alist_getitem d c = Raise err → err = KeyError.
Proof. unfold alist_getitem. destruct (alist_lookup c d); congruence. Qed.

Lemma firms_bucket_Raise m r cls err :
  firms_bucket m r cls = Raise err → err = KeyError ∨ err = TypeError.
Proof.
  unfold firms_bucket. destruct (firms m !! r).
  - intros ?%alist_getitem_Raise. by left.
  - intros [= <-]. by right.
Qed.

Lemma recognized_classes cls :
  recognized cls = true
  ↔ cls ∈ [CapitalFirm; ConsumptionFirm; ConsumptionGoodFirm; ServiceFirm].
Proof.
  split.
  - destruct cls; (done || (intros _; set_solver)).
  - intros Hin. repeat (apply elem_of_cons in Hin as [-> | Hin]; [done |]).
    by apply elem_of_nil in Hin.
Qed.

Lemma derive_subsidiary_Raise rngs gov f nw capital_amount offer err :
  recognized (f_class f) = true →
  derive_subsidiary rngs gov f nw capital_amount offer = Raise err →
  err = KeyError ∨ err = ZeroDivisionError.
Proof.
  unfold recognized, derive_subsidiary. intros Hrec H.
  destruct (isinstance (f_class f) CapitalFirm).
  - apply bind_Raise in H as [H | (rng & _ & H)];
      [apply getitem_Raise in H; by left |].
    cbn [beta] in H.
    apply bind_Raise in H as [H | (p & _ & H)];
      [apply getitem_Raise in H; by left |].
    apply bind_Raise in H as [H | (by_type & _ & H)];
      [apply getitem_Raise in H; by left |].
    apply bind_Raise in H as [H | (n & _ & H)];
      [apply alist_getitem_Raise in H; by left |].
    apply bind_Raise in H as [H | (share & _ & H)]; [|done].
    destruct n; [|done]. injection H as <-. by right.
  - simpl in Hrec. rewrite Hrec in H.
    apply bind_Raise in H as [H | (p & _ & H)];
      [apply getitem_Raise in H; by left |].
    apply bind_Raise in H as [H | (comp & _ & H)];
      [apply getitem_Raise in H; by left | done].
Qed.

(** C6: [add_subsidiary] on a firm whose class is neither a
    [CapitalFirm] nor a [ConsumptionFirm] always ends in an exception, and
    that exception is the [ValueError] of line 232 whenever the lookups
    before the branch succeed; on a firm of a recognized class it never
    ends in that [ValueError]. *)
Theorem unrecognized_firm_type (m : Model) (firm : nat) (f : FirmObj) :
  heap m !! firm = Some f →
  (recognized (f_class f) = false →
     (∃ err, add_subsidiary m firm = Raise err)
     ∧ (∀ rng gov cap best_cap best,
          RNGs m !! KClass (f_class f) = Some rng →
          governments m !! region f = Some gov →
          capital_new_firm gov !! f_class f = Some cap →
          get_best_cap
            (set_RNGs (<[KClass (f_class f) := (uniform sample rng).2]> (RNGs m)) m)
            (region f) = Ok best_cap →
          heap m !! best_cap = Some best →
          add_subsidiary m firm = Raise (ValueError not_recognized)))
  ∧ (recognized (f_class f) = true →
     (∀ m0 r, get_best_cap m0 r ≠ Raise (ValueError not_recognized)) →
     add_subsidiary m firm ≠ Raise (ValueError not_recognized)).
Proof.
  intros Hf. split.
  - intros Hrec. split.
    + destruct (add_subsidiary m firm) as [[m' sub]|err] eqn:H; [|by exists err].
      apply add_subsidiary_inv in H
        as (f' & rng & gov & cap & best_cap & best & rngs' & sub0 & bucket
            & Hf' & _ & _ & _ & _ & _ & Hsub0 & _).
      rewrite Hf in Hf'. injection Hf' as <-.
      apply derive_subsidiary_inv in Hsub0 as (_ & _ & _ & _ & _ & Hor).
      unfold recognized in Hrec. apply orb_false_iff in Hrec as [H1 H2].
      destruct Hor; congruence.
    + intros rng gov cap best_cap best Hrng Hgov Hcap Hbc Hbest.
      unfold recognized in Hrec. apply orb_false_iff in Hrec as [H1 H2].
      unfold add_subsidiary, deref, getitem.
      rewrite Hf. cbn. rewrite Hrng. cbn. rewrite Hgov. cbn.
      rewrite Hcap. cbn. cbn in Hbc. rewrite Hbc. cbn.
      rewrite Hbest. cbn.
      unfold derive_subsidiary. by rewrite H1, H2.
  - intros Hrec Hext H. unfold add_subsidiary in H.
    apply bind_Raise in H as [H | (f' & Hf' & H)];
      [unfold deref in H; by rewrite Hf in H |].
    apply deref_Ok in Hf'. rewrite Hf in Hf'. injection Hf' as <-.
    apply bind_Raise in H as [H | (rng & _ & H)];
      [by apply getitem_Raise in H |].
    cbn [uniform] in H.
    apply bind_Raise in H as [H | (gov & _ & H)];
      [by destruct (governments m !! region f) |].
    apply bind_Raise in H as [H | (cap & _ & H)];
      [by apply getitem_Raise in H |].
    apply bind_Raise in H as [H | (best_cap & _ & H)];
      [by apply Hext in H |].
    apply bind_Raise in H as [H | (best & _ & H)];
      [unfold deref in H; by destruct (heap m !! best_cap) |].
    apply bind_Raise in H as [H | ([rngs' sub0] & _ & H)];
      [by apply (derive_subsidiary_Raise _ _ _ _ _ _ _ Hrec) in H as [?|?] |].
    apply bind_Raise in H as [H | (bucket & _ & H)]; [|done].
    by apply firms_bucket_Raise in H as [?|?].
Qed.

(** *** The counters of the governments *)

(** One exit and one entry, seen from the governments. *)
Lemma exit_entry_governments m firm m1 m2 sub :
  remove_firm m firm = Ok m1 →
  add_subsidiary m1 firm = Ok (m2, sub) →
  ∃ f gov,
    heap m !! firm = Some f
    ∧ governments m !! region f = Some gov
    ∧ governments m2
      = <[region f :=
            set_new_firms_resources
              (new_firms_resources gov + avg_net_worth gov)%Q
              (set_bailout_cost (bailout_cost gov + net_worth f)%Q gov)]>
          (governments m).
Proof.
  intros Hrem Hadd.
  apply remove_firm_inv in Hrem
    as (f & gov & bucket & bucket' & Hf & Hgov & _ & _ & _ & _ & Hgovs1
        & _ & _ & _ & _ & _ & _ & Hheap1).
  apply add_subsidiary_inv in Hadd
    as (f' & rng & gov1 & cap & best_cap & best & rngs' & sub0 & bucket1
        & Hf' & _ & Hgov1 & _ & _ & _ & _ & _ & _ & _ & Hgovs2 & _).
  rewrite Hheap1, Hf in Hf'. injection Hf' as <-.
  rewrite Hgovs1, lookup_insert_eq in Hgov1. injection Hgov1 as <-.
  exists f, gov. do 2 (split; [done |]).
  rewrite Hgovs2, Hgovs1. apply insert_insert_eq.
Qed.

Lemma exit_entry_heap m firm m1 m2 sub :
  remove_firm m firm = Ok m1 →
  add_subsidiary m1 firm = Ok (m2, sub) →
  ∀ x fx, heap m !! x = Some fx →
    ∃ fx', heap m2 !! x = Some fx' ∧ same_firm fx fx'.
Proof.
  intros Hrem Hadd x fx Hx.
  apply remove_firm_inv in Hrem
    as (f & gov & bucket & bucket' & _ & _ & _ & _ & _ & _ & _
        & _ & _ & _ & _ & _ & _ & Hheap1).
  apply add_subsidiary_inv in Hadd
    as (f' & rng & gov1 & cap & best_cap & best & rngs' & sub0 & bucket1
        & _ & _ & _ & _ & _ & Hbest & _ & Hsub & _ & _ & _ & _ & _ & _ & _
        & _ & Hheap2).
  rewrite Hheap1 in *. rewrite Hheap2.
  destruct (decide (x = best_cap)) as [->|Hne].
  - rewrite lookup_insert_eq. rewrite Hx in Hbest. injection Hbest as <-.
    by eexists.
  - rewrite lookup_insert_ne by done.
    rewrite lookup_insert_ne; [by exists fx |].
    intros <-. rewrite Hsub in Hx.
    apply (is_fresh (dom (heap m))), elem_of_dom. by rewrite Hx.
Qed.

Lemma drain_queue_heap queue : ∀ m m',
  drain_queue queue m = Ok m' →
  ∀ x fx, heap m !! x = Some fx →
    ∃ fx', heap m' !! x = Some fx' ∧ same_firm fx fx'.
Proof.
  induction queue as [|firm queue IH]; intros m m' H x fx Hx; simpl in H.
  - injection H as <-. by exists fx.
  - apply bind_Ok in H as (m1 & Hrem & H).
    apply bind_Ok in H as ([m2 sub] & Hadd & H).
    destruct (exit_entry_heap _ _ _ _ _ Hrem Hadd x fx Hx)
      as (fx1 & Hx1 & H1 & H2 & H3 & H4).
    destruct (IH _ _ H x fx1 Hx1) as (fx' & Hx' & H1' & H2' & H3' & H4').
    exists fx'. split; [done |]. unfold same_firm. repeat split; congruence.
Qed.

Lemma exits_stable (h h' : gmap nat FirmObj) r queue :
  (∀ x fx, h !! x = Some fx → ∃ fx', h' !! x = Some fx' ∧ same_firm fx fx') →
  queued_firms h queue →
  exits_net_worth h' r queue = exits_net_worth h r queue
  ∧ exits_count h' r queue = exits_count h r queue.
Proof.
  intros Hstable. induction queue as [|x queue IH]; intros Hq; [done |].
  destruct IH as [IH1 IH2].
  { intros y Hy. apply Hq. by right. }
  destruct (Hq x) as [fx Hx]; [left |].
  destruct (Hstable x fx Hx) as (fx' & Hx' & _ & Hreg & Hnw & _).
  simpl. rewrite Hx, Hx', Hreg, Hnw, IH1, IH2. by destruct (decide _).
Qed.

(** While a queue is drained the counters only accumulate: the net worth
    of the exiting firms of the region, and the government's average net
    worth once per subsidiary. *)
Lemma drain_queue_counters queue : ∀ m m1,
  drain_queue queue m = Ok m1 →
  queued_firms (heap m) queue →
  ∀ r gov, governments m !! r = Some gov →
    ∃ gov1,
      governments m1 !! r = Some gov1
      ∧ avg_net_worth gov1 = avg_net_worth gov
      ∧ (bailout_cost gov1
         == bailout_cost gov + exits_net_worth (heap m) r queue)%Q
      ∧ (new_firms_resources gov1
         == new_firms_resources gov
            + inject_Z (Z.of_nat (exits_count (heap m) r queue))
              * avg_net_worth gov)%Q.
Proof.
  induction queue as [|firm queue IH]; intros m m1 H Hq r gov Hgov; simpl in H.
  - injection H as <-. exists gov. simpl. repeat split; try done; ring.
  - apply bind_Ok in H as (m' & Hrem & H).
    apply bind_Ok in H as ([m2 sub] & Hadd & H).
    destruct (exit_entry_governments _ _ _ _ _ Hrem Hadd)
      as (f & govf & Hf & Hgovf & Hgovs2).
    pose proof (exit_entry_heap _ _ _ _ _ Hrem Hadd) as Hstable.
    assert (Hq' : queued_firms (heap m) queue).
    { intros y Hy. apply Hq. by right. }
    assert (Hq2 : queued_firms (heap m2) queue).
    { intros y Hy. destruct (Hq' y Hy) as [fy Hfy].
      destruct (Hstable y fy Hfy) as (fy' & -> & _). by eexists. }
    destruct (exits_stable _ _ r queue Hstable Hq') as [Enw Ecount].
    cbn [exits_net_worth exits_count]. rewrite Hf.
    destruct (decide (region f = r)) as [<-|Hne].
    + rewrite Hgov in Hgovf. injection Hgovf as <-.
      edestruct (IH _ _ H Hq2 (region f)) as (gov1 & Hgov1 & Havg & Hb & Hn).
      { rewrite Hgovs2. apply lookup_insert_eq. }
      exists gov1. split; [done |]. cbn in Havg, Hb, Hn.
      split; [done |]. rewrite Enw in Hb. rewrite Ecount in Hn.
      rewrite Hb, Hn. rewrite Nat2Z.inj_succ, <- Z.add_1_r, inject_Z_plus.
      split; ring.
    + edestruct (IH _ _ H Hq2 r) as (gov1 & Hgov1 & Havg & Hb & Hn).
      { rewrite Hgovs2, lookup_insert_ne by done. exact Hgov. }
      exists gov1. rewrite Enw in Hb. rewrite Ecount in Hn. done.
Qed.

(** A queue without firms of region [r] leaves the government of [r]
    alone. *)
Lemma drain_queue_other_region queue r : ∀ m m1,
  drain_queue queue m = Ok m1 →
  (∀ x, x ∈ queue → ∃ f, heap m !! x = Some f ∧ region f ≠ r) →
  governments m1 !! r = governments m !! r.
Proof.
  induction queue as [|firm queue IH]; intros m m1 H Hq; simpl in H.
  - by injection H as <-.
  - apply bind_Ok in H as (m' & Hrem & H).
    apply bind_Ok in H as ([m2 sub] & Hadd & H).
    destruct (exit_entry_governments _ _ _ _ _ Hrem Hadd)
      as (f & govf & Hf & Hgovf & Hgovs2).
    pose proof (exit_entry_heap _ _ _ _ _ Hrem Hadd) as Hstable.
    rewrite (IH _ _ H).
    + rewrite Hgovs2. apply lookup_insert_ne.
      destruct (Hq firm) as (f' & Hf' & Hne); [left |]. congruence.
    + intros y Hy. destruct (Hq y) as (fy & Hfy & Hne); [by right |].
      destruct (Hstable y fy Hfy) as (fy' & Hfy' & _ & Hreg & _).
      exists fy'. split; [done | congruence].
Qed.

(** One exit and one entry, seen from the bucket of the firm. *)
Lemma exit_entry_bucket m firm m1 m2 sub :
  remove_firm m firm = Ok m1 →
  add_subsidiary m1 firm = Ok (m2, sub) →
  ∃ f bucket bucket',
    heap m !! firm = Some f
    ∧ firms_bucket m (region f) (f_class f) = Ok bucket
    ∧ list_remove firm bucket = Some bucket'
    ∧ firms_bucket m2 (region f) (f_class f) = Ok (bucket' ++ [sub]).
Proof.
  intros Hrem Hadd.
  apply remove_firm_inv in Hrem
    as (f & gov & bucket & bucket' & Hf & _ & Hb & Hb' & _ & _ & _ & Hfirms1
        & _ & _ & _ & _ & _ & Hheap1).
  apply add_subsidiary_inv in Hadd
    as (f' & rng & gov1 & cap & best_cap & best & rngs' & sub0 & bucket1
        & Hf' & _ & _ & _ & _ & _ & _ & _ & Hb1 & _ & _ & Hfirms2 & _).
  rewrite Hheap1, Hf in Hf'. injection Hf' as <-.
  exists f, bucket, bucket'. do 3 (split; [done |]).
  assert (bucket1 = bucket') as ->.
  { unfold firms_bucket in Hb1. rewrite Hfirms1, lookup_insert_eq in Hb1.
    apply alist_getitem_Ok in Hb1. rewrite alist_lookup_set in Hb1.
    rewrite decide_True in Hb1 by done. by injection Hb1. }
  unfold firms_bucket. rewrite Hfirms2, lookup_insert_eq.
  apply alist_getitem_Ok. rewrite alist_lookup_set. by rewrite decide_True.
Qed.

(** C8: a call of [add_subsidiary] adds the government's average net worth
    to its [new_firms_resources], whatever net worth the subsidiary got,
    and touches neither its [bailout_cost] nor its average; while the queue
    of a region is drained both counters only accumulate, and they are set
    to 0 after the whole queue has been drained. *)
Theorem new_firms_resources_and_reset :
  (∀ m firm m' sub f gov,
     add_subsidiary m firm = Ok (m', sub) →
     heap m !! firm = Some f →
     governments m !! region f = Some gov →
     ∃ gov',
       governments m' !! region f = Some gov'
       ∧ new_firms_resources gov'
         = (new_firms_resources gov + avg_net_worth gov)%Q
       ∧ bailout_cost gov' = bailout_cost gov
       ∧ avg_net_worth gov' = avg_net_worth gov)
  ∧ (∀ r m m',
       remove_region r m = Ok m' →
       let queue := default [] (firms_to_remove m !! r) in
       ∃ m1 gov1 gov',
         drain_queue queue m = Ok m1
         ∧ governments m1 !! r = Some gov1
         ∧ (queued_firms (heap m) queue →
            ∀ gov, governments m !! r = Some gov →
              (bailout_cost gov1
               == bailout_cost gov + exits_net_worth (heap m) r queue)%Q
              ∧ (new_firms_resources gov1
                 == new_firms_resources gov
                    + inject_Z (Z.of_nat (exits_count (heap m) r queue))
                      * avg_net_worth gov)%Q)
         ∧ governments m' !! r = Some gov'
         ∧ bailout_cost gov' = 0%Q
         ∧ new_firms_resources gov' = 0%Q
         ∧ firms_to_remove m' !! r = Some []).
Proof.
  split.
  - intros m firm m' sub f gov H Hf Hgov.
    apply add_subsidiary_inv in H
      as (f' & rng & gov1 & cap & best_cap & best & rngs' & sub0 & bucket1
          & Hf' & _ & Hgov1 & _ & _ & _ & _ & _ & _ & _ & Hgovs2 & _).
    rewrite Hf in Hf'. injection Hf' as <-.
    rewrite Hgov in Hgov1. injection Hgov1 as <-.
    eexists. rewrite Hgovs2, lookup_insert_eq. done.
  - intros r m m' H queue.
    apply remove_region_inv in H as (m1 & gov1 & Hdrain & Hgov1 & ->).
    exists m1, gov1. eexists. split; [done |]. split; [done |].
    split.
    + intros Hq gov Hgov.
      destruct (drain_queue_counters _ _ _ Hdrain Hq r gov Hgov)
        as (gov1' & Hgov1' & _ & Hb & Hn).
      rewrite Hgov1 in Hgov1'. by injection Hgov1' as <-.
    + cbn. rewrite !lookup_insert_eq. done.
Qed.

(** C2, as the code has it: while the queue of a region is drained, its
    government's bailout cost grows by the net worth of each exiting firm
    of the region, sign included, and it is 0 once the drain of the region
    is over; when the one queued firm is a capital producer of net worth
    -10, the bailout cost after the loop is 10 lower than before it, the
    firm's bucket has lost the firm and gained exactly one new capital
    producer, and that one has market share
    [1 / N_FIRMS[region][CapitalFirm]]: 1/2 when the constant is 2. *)
Theorem bailout_and_replacement :
  (∀ r m m' gov,
     remove_region r m = Ok m' →
     queued_firms (heap m) (default [] (firms_to_remove m !! r)) →
     governments m !! r = Some gov →
     ∃ m1 gov1 gov',
       drain_queue (default [] (firms_to_remove m !! r)) m = Ok m1
       ∧ governments m1 !! r = Some gov1
       ∧ (bailout_cost gov1
          == bailout_cost gov
             + exits_net_worth (heap m) r (default [] (firms_to_remove m !! r)))%Q
       ∧ governments m' !! r = Some gov'
       ∧ bailout_cost gov' = 0%Q)
  ∧ (∀ r m m' firm f gov,
       remove_region r m = Ok m' →
       firms_to_remove m !! r = Some [firm] →
       heap m !! firm = Some f →
       region f = r →
       isinstance (f_class f) CapitalFirm = true →
       governments m !! r = Some gov →
       ∃ m1 gov1 gov' sub sub_obj bucket bucket' by_type n,
         drain_queue [firm] m = Ok m1
         ∧ governments m1 !! r = Some gov1
         ∧ bailout_cost gov1 = (bailout_cost gov + net_worth f)%Q
         ∧ ((net_worth f == -10)%Q →
            (bailout_cost gov1 == bailout_cost gov - 10)%Q)
         ∧ governments m' !! r = Some gov'
         ∧ bailout_cost gov' = 0%Q
         ∧ firms_bucket m r (f_class f) = Ok bucket
         ∧ list_remove firm bucket = Some bucket'
         ∧ firms_bucket m' r (f_class f) = Ok (bucket' ++ [sub])
         ∧ heap m !! sub = None
         ∧ heap m' !! sub = Some sub_obj
         ∧ f_class sub_obj = f_class f
         ∧ region sub_obj = r
         ∧ N_FIRMS cfg !! r = Some by_type
         ∧ alist_lookup CapitalFirm by_type = Some n
         ∧ market_share sub_obj = (1 / inject_Z (Z.of_nat n))%Q
         ∧ (n = 2%nat → (market_share sub_obj == 1 # 2)%Q)).
Proof.
  split.
  { intros r m m' gov H Hq Hgov.
    apply remove_region_fields in H as (m1 & gov1 & Hdrain & Hgov1 & Hgovs' & _).
    destruct (drain_queue_counters _ _ _ Hdrain Hq r gov Hgov)
      as (gov1' & Hgov1' & _ & Hbail & _).
    rewrite Hgov1 in Hgov1'. injection Hgov1' as <-.
    exists m1, gov1, (set_new_firms_resources 0 (set_bailout_cost 0 gov1)).
    split; [done |]. split; [done |]. split; [done |].
    split; [by rewrite Hgovs', lookup_insert_eq | reflexivity]. }
  intros r m m' firm f gov H Hqueue Hf Hreg Hcap Hgov. subst r.
  apply remove_region_fields in H
    as (m1 & gov1 & Hdrain & Hgov1 & Hgovs' & _ & Hfirms' & Hheap' & _).
  rewrite Hqueue in Hdrain. cbn [default] in Hdrain.
  pose proof Hdrain as Hdrain'. simpl in Hdrain'.
  apply bind_Ok in Hdrain' as (ma & Hrem & Hadd).
  apply bind_Ok in Hadd as ([m1' sub] & Hadd & [= ->]).
  destruct (exit_entry_governments _ _ _ _ _ Hrem Hadd)
    as (f' & govf & Hf' & Hgovf & Hgovs1).
  rewrite Hf in Hf'. injection Hf' as <-.
  rewrite Hgov in Hgovf. injection Hgovf as <-.
  rewrite Hgovs1, lookup_insert_eq in Hgov1.
  destruct (exit_entry_bucket _ _ _ _ _ Hrem Hadd)
    as (f' & bucket & bucket' & Hf' & Hb & Hb' & Hb1).
  rewrite Hf in Hf'. injection Hf' as <-.
  pose proof (remove_firm_inv _ _ _ Hrem)
    as (f' & _ & _ & _ & Hf' & _ & _ & _ & _ & _ & _ & _ & _ & _ & _ & _ & _
        & Hheapa).
  rewrite Hf in Hf'. injection Hf' as <-.
  pose proof (add_subsidiary_fresh _ _ _ _ Hadd) as Hfresh.
  rewrite Hheapa in Hfresh.
  apply add_subsidiary_heap_sub in Hadd
    as (f' & rng & gov2 & cap & best_cap & best & rngs' & sub0
        & Hf' & _ & _ & _ & _ & _ & Hsub0 & _ & Hheap1).
  rewrite Hheapa, Hf in Hf'. injection Hf' as <-.
  pose proof (derive_subsidiary_inv _ _ _ _ _ _ _ _ Hsub0)
    as (Hcls & Hreg & _).
  apply (derive_subsidiary_capital _ _ _ _ _ _ _ _ Hcap) in Hsub0
    as (rng1 & by_type & n & _ & _ & _ & Hby & Hn & Hn0 & Hshare).
  exists m1, gov1,
    (set_new_firms_resources 0 (set_bailout_cost 0 gov1)), sub,
    (set_supplier best_cap (brochure best) sub0), bucket, bucket', by_type, n.
  split; [done |].
  split; [by rewrite Hgovs1, lookup_insert_eq |].
  injection Hgov1 as <-.
  split; [reflexivity |].
  split; [intros Hnw; cbn; rewrite Hnw; ring |].
  split; [by rewrite Hgovs', lookup_insert_eq |].
  split; [reflexivity |].
  do 2 (split; [done |]).
  split; [unfold firms_bucket in *; by rewrite Hfirms' |].
  split; [done |].
  split; [by rewrite Hheap' |].
  do 4 (split; [done |]).
  split; [exact Hshare |].
  intros ->. cbn [market_share set_supplier]. rewrite Hshare. reflexivity.
Qed.

(** *** The step driver *)

Lemma drain_queue_firms_to_remove queue : ∀ m m',
  drain_queue queue m = Ok m' → firms_to_remove m' = firms_to_remove m.
Proof.
  induction queue as [|firm queue IH]; intros m m' H; simpl in H.
  - by injection H as <-.
  - apply bind_Ok in H as (m1 & Hrem & H).
    apply bind_Ok in H as ([m2 sub] & Hadd & H).
    rewrite (IH _ _ H).
    apply remove_firm_inv in Hrem
      as (f & gov & bucket & bucket' & _ & _ & _ & _ & _ & _ & _ & _ & Hq1 & _).
    apply add_subsidiary_inv in Hadd
      as (f' & rng & gov1 & cap & best_cap & best & rngs' & sub0 & bucket1
          & _ & _ & _ & _ & _ & _ & _ & _ & _ & _ & _ & _ & Hq2 & _).
    congruence.
Qed.

Lemma remove_region_own_region r m m' :
  queued_in_own_region m → remove_region r m = Ok m' →
  queued_in_own_region m'.
Proof.
  intros Hown H.
  apply remove_region_fields in H
    as (m1 & gov & Hdrain & _ & _ & Hq' & _ & Hheap' & _).
  rewrite (drain_queue_firms_to_remove _ _ _ Hdrain) in Hq'.
  intros r' queue x Hqueue Hx. rewrite Hq' in Hqueue.
  destruct (decide (r' = r)) as [->|Hne].
  - rewrite lookup_insert_eq in Hqueue. injection Hqueue as <-.
    by apply elem_of_nil in Hx.
  - rewrite lookup_insert_ne in Hqueue by done.
    destruct (Hown r' queue x Hqueue Hx) as (f & Hf & Hreg).
    destruct (drain_queue_heap _ _ _ Hdrain x f Hf) as (f' & Hf' & _ & Hreg' & _).
    exists f'. rewrite Hheap'. split; [done | congruence].
Qed.

Lemma remove_region_other_gov r0 r m m' :
  queued_in_own_region m → remove_region r0 m = Ok m' → r ≠ r0 →
  governments m' !! r = governments m !! r.
Proof.
  intros Hown H Hne.
  apply remove_region_fields in H as (m1 & gov & Hdrain & _ & Hgovs' & _).
  rewrite Hgovs', lookup_insert_ne by done.
  apply (drain_queue_other_region _ _ _ _ Hdrain).
  intros x Hx.
  destruct (firms_to_remove m !! r0) as [queue|] eqn:Hqueue;
    [|by apply elem_of_nil in Hx].
  destruct (Hown r0 queue x Hqueue Hx) as (f & Hf & Hreg).
  exists f. split; [done | congruence].
Qed.

Lemma remove_regions_other_gov regions r : ∀ m m',
  r ∉ regions → queued_in_own_region m →
  remove_regions regions m = Ok m' →
  governments m' !! r = governments m !! r.
Proof.
  induction regions as [|r0 regions IH]; intros m m' Hnotin Hown H; simpl in H.
  - by injection H as <-.
  - apply bind_Ok in H as (m1 & Hreg & H).
    apply not_elem_of_cons in Hnotin as [Hne Hnotin].
    rewrite (IH _ _ Hnotin (remove_region_own_region _ _ _ Hown Hreg) H).
    by apply (remove_region_other_gov r0).
Qed.

Lemma remove_regions_zero regions : ∀ m m',
  NoDup regions → queued_in_own_region m →
  remove_regions regions m = Ok m' →
  ∀ r, r ∈ regions →
    ∃ gov, governments m' !! r = Some gov
           ∧ bailout_cost gov = 0%Q ∧ new_firms_resources gov = 0%Q.
Proof.
  induction regions as [|r0 regions IH]; intros m m' Hnd Hown H r Hr; simpl in H.
  - by apply elem_of_nil in Hr.
  - apply bind_Ok in H as (m1 & Hreg & H).
    apply NoDup_cons in Hnd as [Hnotin Hnd].
    pose proof (remove_region_own_region _ _ _ Hown Hreg) as Hown1.
    apply elem_of_cons in Hr as [-> | Hr].
    + rewrite (remove_regions_other_gov _ _ _ _ Hnotin Hown1 H).
      apply remove_region_fields in Hreg as (m0 & gov & _ & _ & -> & _).
      rewrite lookup_insert_eq. by eexists.
    + by apply (IH _ _ Hnd Hown1 H).
Qed.

(** *** The drain completes *)

Lemma bind_is_Ok {A B} (e : result A) (k : A → result B) (a : A) :
  e = Ok a → is_Ok (k a) → is_Ok (e ≫= k).
Proof. by intros ->. Qed.

Lemma list_remove_elem x l : x ∈ l → is_Some (list_remove x l).
Proof.
  induction l as [|y l IH]; intros Hin; simpl.
  - by apply elem_of_nil in Hin.
  - destruct (decide (x = y)); [by eexists |].
    apply elem_of_cons in Hin as [? | Hin]; [done |].
    destruct (IH Hin) as [l' ->]. by eexists.
Qed.

Lemma list_remove_other x y l l' :
  list_remove x l = Some l' → y ∈ l → y ≠ x → y ∈ l'.
Proof.
  revert l'. induction l as [|z l IH]; intros l' H Hin Hne; simpl in H; [done |].
  destruct (decide (x = z)) as [->|].
  - injection H as <-. by apply elem_of_cons in Hin as [-> | Hin].
  - destruct (list_remove x l) as [l0|]; [|done]. injection H as <-.
    apply elem_of_cons in Hin as [-> | Hin]; [left | right; by apply IH].
Qed.

Lemma firms_bucket_set m m' r cls bucket b :
  firms_bucket m r cls = Ok bucket →
  firms m' = <[r := alist_set cls b (default [] (firms m !! r))]> (firms m) →
  ∀ r' cls',
    firms_bucket m' r' cls'
    = if decide (r' = r ∧ cls' = cls) then Ok b else firms_bucket m r' cls'.
Proof.
  unfold firms_bucket. intros Hb -> r' cls'.
  destruct (firms m !! r) as [by_type|] eqn:Hr; [|done].
  destruct (decide (r' = r)) as [->|Hne].
  - rewrite lookup_insert_eq, Hr. unfold alist_getitem. simpl.
    rewrite alist_lookup_set.
    destruct (decide (cls' = cls)) as [->|]; simpl.
    + rewrite decide_True; done.
    + rewrite decide_False; [done | tauto].
  - rewrite lookup_insert_ne by done.
    rewrite decide_False; [done | tauto].
Qed.

Lemma derive_subsidiary_rngs rngs gov f nw capital_amount offer rngs' sub0 :
  derive_subsidiary rngs gov f nw capital_amount offer = Ok (rngs', sub0) →
  ∀ k, is_Some (rngs !! k) → is_Some (rngs' !! k).
Proof.
  unfold derive_subsidiary. intros H k Hk.
  destruct (isinstance (f_class f) CapitalFirm).
  - inv_bind H. simpl in H. inv_bind H. injection H as <- <-.
    rewrite lookup_insert. by destruct (decide _).
  - destruct (isinstance (f_class f) ConsumptionFirm); [|done].
    inv_bind H. by injection H as <- <-.
Qed.

Lemma derive_subsidiary_succeeds rngs gov f nw capital_amount offer :
  is_Some (rngs !! KClass (f_class f)) →
  is_Some (offer !! "prod") →
  (if isinstance (f_class f) CapitalFirm
   then ∃ by_type n,
          N_FIRMS cfg !! region f = Some by_type
          ∧ alist_lookup CapitalFirm by_type = Some (S n)
   else isinstance (f_class f) ConsumptionFirm = true
        ∧ is_Some (avg_comp_norm gov !! f_class f)) →
  is_Ok (derive_subsidiary rngs gov f nw capital_amount offer).
Proof.
  unfold derive_subsidiary. intros [rng Hrng] [p Hp] Hcls.
  destruct (isinstance (f_class f) CapitalFirm).
  - destruct Hcls as (by_type & n & Hby & Hn).
    unfold getitem, alist_getitem. rewrite Hrng. cbn. rewrite Hp. cbn.
    rewrite Hby. cbn. rewrite Hn. cbn. by eexists.
  - destruct Hcls as [-> [comp Hcomp]].
    unfold getitem. rewrite Hp. cbn. rewrite Hcomp. cbn. by eexists.
Qed.

Section Completion.
Context (good : nat → Prop).
Hypothesis best_is_good : ∀ m r, ∃ b, get_best_cap m r = Ok b ∧ good b.

(** A replaceable firm is removed and replaced without an exception. *)
Lemma exit_entry_succeeds m x :
  replaceable cfg m x → published (heap m) good →
  ∃ m1 m2 sub,
    remove_firm m x = Ok m1 ∧ add_subsidiary m1 x = Ok (m2, sub).
Proof.
  intros (f & gov & bucket & Hf & Hgov & Hb & Hin & Hsch & [rng Hrng]
          & [cap Hcap] & Hcls) Hpub.
  destruct (list_remove_elem _ _ Hin) as [bucket' Hb'].
  assert (Hrem : is_Ok (remove_firm m x)).
  { unfold remove_firm.
    eapply bind_is_Ok; [by apply deref_Ok |].
    eapply bind_is_Ok; [by apply gov_attr_Ok |].
    eapply bind_is_Ok; [exact Hb |].
    rewrite Hb'. eapply bind_is_Ok; [reflexivity |].
    unfold schedule_remove. cbn [schedule set_bucket set_firms set_governments].
    rewrite decide_True by done. by eexists. }
  destruct Hrem as [m1 Hrem]. exists m1.
  pose proof (remove_firm_inv _ _ _ Hrem)
    as (f' & gov' & bucket0 & bucket0' & Hf' & Hgov' & Hb0 & Hb0' & _ & Hrngs1
        & Hgovs1 & Hfirms1 & _ & _ & _ & _ & _ & Hheap1).
  rewrite Hf in Hf'. injection Hf' as <-.
  rewrite Hgov in Hgov'. injection Hgov' as <-.
  rewrite Hb in Hb0. injection Hb0 as <-.
  rewrite Hb' in Hb0'. injection Hb0' as <-.
  destruct (best_is_good
              (set_RNGs (<[KClass (f_class f) := advance DrawUniform rng]> (RNGs m1))
                 m1) (region f)) as (b & Hbest & Hgood).
  destruct (Hpub b Hgood) as (best & Hb_obj & Hprod).
  destruct (derive_subsidiary_succeeds
              (<[KClass (f_class f) := advance DrawUniform rng]> (RNGs m1))
              (set_bailout_cost (bailout_cost gov + net_worth f)%Q gov) f
              (py_max (avg_net_worth gov) 1
               * fraction_wealth (sample (rng_seed rng) (rng_history rng) DrawUniform))%Q
              (py_round (fmul cap (cap_out_ratio f))) (brochure best))
    as [[rngs' sub0] Hsub0]; [by rewrite lookup_insert_eq | done | done |].
  pose proof (derive_subsidiary_inv _ _ _ _ _ _ _ _ Hsub0) as (Hc & Hr & _).
  assert (Hadd : is_Ok (add_subsidiary m1 x)).
  { unfold add_subsidiary.
    eapply bind_is_Ok; [apply deref_Ok; by rewrite Hheap1 |].
    eapply bind_is_Ok; [apply getitem_Ok; by rewrite Hrngs1 |].
    cbn [uniform].
    eapply bind_is_Ok;
      [apply gov_attr_Ok; rewrite Hgovs1; apply lookup_insert_eq |].
    eapply bind_is_Ok; [apply getitem_Ok; exact Hcap |].
    eapply bind_is_Ok; [exact Hbest |].
    eapply bind_is_Ok; [apply deref_Ok; by rewrite Hheap1 |].
    eapply bind_is_Ok; [exact Hsub0 |].
    cbn [region f_class set_supplier]. rewrite Hc, Hr.
    assert (Hb1 : firms_bucket m1 (region f) (f_class f) = Ok bucket').
    { rewrite (firms_bucket_set m m1 _ _ _ _ Hb Hfirms1).
      by rewrite decide_True. }
    eapply bind_is_Ok; [exact Hb1 | by eexists]. }
  destruct Hadd as [[m2 sub] Hadd]. by exists m2, sub.
Qed.

(** The other replaceable firms stay replaceable. *)
Lemma exit_entry_replaceable m x m1 m2 sub y :
  remove_firm m x = Ok m1 →
  add_subsidiary m1 x = Ok (m2, sub) →
  y ≠ x → replaceable cfg m y → replaceable cfg m2 y.
Proof.
  intros Hrem Hadd Hne
    (fy & govy & buckety & Hfy & Hgovy & Hby & Hiny & Hschy & Hrngy & Hcapy
     & Hclsy).
  destruct (exit_entry_heap _ _ _ _ _ Hrem Hadd y fy Hfy)
    as (fy' & Hfy' & Hc & Hr & _).
  destruct (exit_entry_governments _ _ _ _ _ Hrem Hadd)
    as (f & gov & Hf & Hgov & Hgovs2).
  pose proof (remove_firm_inv _ _ _ Hrem)
    as (f0 & gov0 & bucket & bucket' & Hf0 & _ & Hb & Hb' & _ & Hrngs1 & _
        & Hfirms1 & _ & _ & Hagents1 & _ & _ & Hheap1).
  rewrite Hf in Hf0. injection Hf0 as <-.
  pose proof (add_subsidiary_inv _ _ _ _ Hadd)
    as (f0 & rng & gov1 & cap & best_cap & best & rngs' & sub0 & bucket1
        & Hf0 & _ & _ & _ & _ & _ & Hsub0 & _ & Hb1 & Hrngs2 & _ & Hfirms2 & _
        & Hsch2 & _).
  rewrite Hheap1, Hf in Hf0. injection Hf0 as <-.
  assert (Hgov2 : ∃ govy',
             governments m2 !! region fy = Some govy'
             ∧ capital_new_firm govy' = capital_new_firm govy
             ∧ avg_comp_norm govy' = avg_comp_norm govy).
  { rewrite Hgovs2. destruct (decide (region f = region fy)) as [E|E].
    - rewrite E, lookup_insert_eq. rewrite E, Hgovy in Hgov.
      injection Hgov as <-. by eexists.
    - rewrite lookup_insert_ne by done. by exists govy. }
  destruct Hgov2 as (govy' & Hgovy' & Ecap & Ecomp).
  assert (Hb2y : ∃ buckety',
             firms_bucket m2 (region fy) (f_class fy) = Ok buckety'
             ∧ y ∈ buckety').
  { rewrite (firms_bucket_set m1 m2 _ _ _ _ Hb1 Hfirms2).
    rewrite (firms_bucket_set m m1 _ _ _ _ Hb Hfirms1).
    destruct (decide (region fy = region f ∧ f_class fy = f_class f))
      as [[Er Ec]|].
    - eexists. split; [done |]. apply elem_of_app. left.
      assert (bucket1 = bucket') as ->.
      { rewrite (firms_bucket_set m m1 _ _ _ _ Hb Hfirms1) in Hb1.
        rewrite decide_True in Hb1 by done. by injection Hb1. }
      apply (list_remove_other x y bucket); [done | | done].
      rewrite Er, Ec, Hb in Hby. by injection Hby as <-.
    - by exists buckety. }
  destruct Hb2y as (buckety' & Hby' & Hiny').
  exists fy', govy', buckety'. rewrite Hc, Hr, Ecap, Ecomp.
  split; [done |]. split; [done |]. split; [done |]. split; [done |].
  split.
  { rewrite Hsch2. cbn. rewrite Hagents1.
    apply elem_of_union. right. apply elem_of_difference.
    split; [done |]. by intros ?%elem_of_singleton. }
  split; [| done].
  rewrite Hrngs2. apply (derive_subsidiary_rngs _ _ _ _ _ _ _ _ Hsub0).
  rewrite lookup_insert. destruct (decide _); [done |]. by rewrite Hrngs1.
Qed.

Lemma exit_entry_published m x m1 m2 sub :
  remove_firm m x = Ok m1 →
  add_subsidiary m1 x = Ok (m2, sub) →
  published (heap m) good → published (heap m2) good.
Proof.
  intros Hrem Hadd Hpub b Hgood.
  destruct (Hpub b Hgood) as (best & Hbest & Hprod).
  destruct (exit_entry_heap _ _ _ _ _ Hrem Hadd b best Hbest)
    as (best' & Hbest' & _ & _ & _ & Hbro).
  exists best'. by rewrite Hbro.
Qed.

(** A queue of distinct replaceable firms is drained without an exception,
    and the firms outside it stay replaceable. *)
Lemma drain_queue_succeeds queue : ∀ m,
  NoDup queue →
  (∀ x, x ∈ queue → replaceable cfg m x) →
  published (heap m) good →
  ∃ m',
    drain_queue queue m = Ok m'
    ∧ published (heap m') good
    ∧ ∀ y, y ∉ queue → replaceable cfg m y → replaceable cfg m' y.
Proof.
  induction queue as [|x queue IH]; intros m Hnd Hq Hpub.
  - by exists m.
  - apply NoDup_cons in Hnd as [Hnotin Hnd].
    destruct (exit_entry_succeeds m x) as (m1 & m2 & sub & Hrem & Hadd);
      [apply Hq; left | done |].
    destruct (IH m2 Hnd) as (m' & Hdrain & Hpub' & Hothers).
    { intros y Hy. apply (exit_entry_replaceable _ _ _ _ _ _ Hrem Hadd).
      - by intros ->.
      - apply Hq. by right. }
    { by apply (exit_entry_published _ _ _ _ _ Hrem Hadd). }
    exists m'. split; [simpl; rewrite Hrem; simpl; rewrite Hadd; exact Hdrain |].
    split; [done |].
    intros y Hy Hrep. apply not_elem_of_cons in Hy as [Hne Hy].
    apply Hothers; [done |].
    by apply (exit_entry_replaceable _ _ _ _ _ _ Hrem Hadd).
Qed.

Lemma drain_queue_governments_dom queue : ∀ m m' r,
  drain_queue queue m = Ok m' →
  is_Some (governments m !! r) → is_Some (governments m' !! r).
Proof.
  induction queue as [|x queue IH]; intros m m' r H Hr; simpl in H.
  - by injection H as <-.
  - apply bind_Ok in H as (m1 & Hrem & H).
    apply bind_Ok in H as ([m2 sub] & Hadd & H).
    apply (IH _ _ _ H).
    destruct (exit_entry_governments _ _ _ _ _ Hrem Hadd)
      as (f & gov & _ & _ & ->).
    rewrite lookup_insert. by destruct (decide _).
Qed.

(** The reset of the counters and of the queue leaves a firm replaceable. *)
Lemma reset_replaceable r gov m1 m' y :
  governments m1 !! r = Some gov →
  governments m'
  = <[r := set_new_firms_resources 0 (set_bailout_cost 0 gov)]> (governments m1) →
  firms m' = firms m1 → heap m' = heap m1 → RNGs m' = RNGs m1 →
  schedule m' = schedule m1 →
  replaceable cfg m1 y → replaceable cfg m' y.
Proof.
  intros Hgov Hgovs Hfirms Hheap Hrngs Hsch
    (fy & govy & buckety & Hfy & Hgovy & Hby & Hiny & Hschy & Hrngy & Hcapy
     & Hclsy).
  assert (Hgov' : ∃ govy',
             governments m' !! region fy = Some govy'
             ∧ capital_new_firm govy' = capital_new_firm govy
             ∧ avg_comp_norm govy' = avg_comp_norm govy).
  { rewrite Hgovs. destruct (decide (r = region fy)) as [E|E].
    - rewrite E, lookup_insert_eq. rewrite E, Hgovy in Hgov.
      injection Hgov as <-. by eexists.
    - rewrite lookup_insert_ne by done. by exists govy. }
  destruct Hgov' as (govy' & Hgovy' & Ecap & Ecomp).
  exists fy, govy', buckety. rewrite Hheap, Hrngs, Hsch, Ecap, Ecomp.
  unfold firms_bucket in *. rewrite Hfirms. auto 10.
Qed.

Lemma remove_region_succeeds r m :
  is_Some (governments m !! r) →
  NoDup (default [] (firms_to_remove m !! r)) →
  (∀ x, x ∈ default [] (firms_to_remove m !! r) → replaceable cfg m x) →
  published (heap m) good →
  ∃ m',
    remove_region r m = Ok m'
    ∧ published (heap m') good
    ∧ (∀ y, y ∉ default [] (firms_to_remove m !! r) →
         replaceable cfg m y → replaceable cfg m' y)
    ∧ (∀ r', is_Some (governments m !! r') → is_Some (governments m' !! r'))
    ∧ (∀ r', r' ≠ r → firms_to_remove m' !! r' = firms_to_remove m !! r').
Proof.
  intros Hr Hnd Hq Hpub.
  destruct (drain_queue_succeeds _ m Hnd Hq Hpub)
    as (m1 & Hdrain & Hpub1 & Hothers).
  destruct (drain_queue_governments_dom _ _ _ r Hdrain Hr) as [gov Hgov].
  assert (Hreg : is_Ok (remove_region r m)).
  { unfold remove_region.
    eapply bind_is_Ok; [exact Hdrain |].
    unfold reset_counters. rewrite Hgov. by eexists. }
  destruct Hreg as [m' Hreg]. exists m'. split; [done |].
  apply remove_region_fields in Hreg
    as (m1' & gov' & Hdrain' & Hgov' & Hgovs & Hqueues & Hfirms & Hheap
        & Hrngs & Hsch & _).
  rewrite Hdrain in Hdrain'. injection Hdrain' as <-.
  rewrite Hgov in Hgov'. injection Hgov' as <-.
  split; [by rewrite Hheap |]. split; [| split].
  - intros y Hy Hrep.
    apply (reset_replaceable r gov m1); try done. by apply Hothers.
  - intros r' Hr'. rewrite Hgovs, lookup_insert.
    destruct (decide _); [done |].
    by apply (drain_queue_governments_dom _ _ _ _ Hdrain).
  - intros r' Hne. rewrite Hqueues, lookup_insert_ne by done.
    by rewrite (drain_queue_firms_to_remove _ _ _ Hdrain).
Qed.

Lemma all_queued_other m m' regions r :
  r ∉ regions →
  (∀ r', r' ≠ r → firms_to_remove m' !! r' = firms_to_remove m !! r') →
  all_queued m' regions = all_queued m regions.
Proof.
  unfold all_queued. intros Hnotin Hsame.
  induction regions as [|r0 regions IH]; [done |].
  apply not_elem_of_cons in Hnotin as [Hne Hnotin].
  rewrite !fmap_cons. cbn [concat].
  rewrite (IH Hnotin), Hsame; [done | congruence].
Qed.

Lemma remove_regions_succeeds regions : ∀ m,
  NoDup regions →
  (∀ r, r ∈ regions → is_Some (governments m !! r)) →
  NoDup (all_queued m regions) →
  (∀ x, x ∈ all_queued m regions → replaceable cfg m x) →
  published (heap m) good →
  is_Ok (remove_regions regions m).
Proof.
  induction regions as [|r regions IH]; intros m Hndr Hgovs Hnd Hq Hpub.
  - by exists m.
  - apply NoDup_cons in Hndr as [Hnotin Hndr].
    unfold all_queued in Hnd, Hq. simpl in Hnd, Hq.
    fold (all_queued m regions) in Hnd, Hq.
    apply NoDup_app in Hnd as (Hnd1 & Hdisj & Hnd2).
    destruct (remove_region_succeeds r m)
      as (m1 & Hreg & Hpub1 & Hothers & Hdom & Hqueues).
    { apply Hgovs. left. }
    { done. }
    { intros x Hx. apply Hq, elem_of_app. by left. }
    { done. }
    pose proof (all_queued_other m m1 regions r Hnotin Hqueues) as Hsame.
    destruct (IH m1 Hndr) as [m' Hrest].
    { intros r' Hr'. apply Hdom, Hgovs. by right. }
    { by rewrite Hsame. }
    { rewrite Hsame. intros x Hx. apply Hothers.
      - intros Hx'. by apply (Hdisj x Hx').
      - apply Hq, elem_of_app. by right. }
    { done. }
    exists m'. simpl. rewrite Hreg. exact Hrest.
Qed.

(** The drain of a step completes, and conserves the population: when
    every region has a government, no firm is queued twice, every queued
    firm is replaceable and the government's best capital producer always
    has a published productivity, [remove_bankrupt_firms] returns, with as
    many firms of every type in every region as before. *)
Theorem drain_completes m :
  (∀ r, r ∈ REGIONS cfg → is_Some (governments m !! r)) →
  NoDup (all_queued m (REGIONS cfg)) →
  (∀ x, x ∈ all_queued m (REGIONS cfg) → replaceable cfg m x) →
  published (heap m) good →
  ∃ m',
    remove_bankrupt_firms m = Ok m'
    ∧ ∀ r cls, n_firms m' r cls = n_firms m r cls.
Proof.
  intros Hgovs Hnd Hq Hpub.
  destruct (remove_regions_succeeds (REGIONS cfg) m (NoDup_seq _ _)
              Hgovs Hnd Hq Hpub) as [m' Hm'].
  exists m'. split; [exact Hm' |].
  exact (remove_regions_n_firms _ _ _ Hm').
Qed.

End Completion.

Context (agent_stages : Model → result Model)
        {Obs : Type} (report : Model → Obs).

Local Abbreviation step :=
  (step cfg sample get_best_cap class_defaults agent_stages Obs report).

(** C9: when [step] hands the model to the reporter, the government of
    every region has [bailout_cost] 0 and [new_firms_resources] 0: the
    reporter is called on the model as the reset of lines 316 and 317 left
    it, after the queues were drained.  (With several regions this needs
    every firm to be queued under its own region, as the agents do.) *)
Theorem reporter_sees_zero_counters
    (m m' : Model) (collected collected' : list Obs) :
  step m collected = Ok (m', collected') →
  (N_REGIONS cfg = 1%nat
   ∨ ∀ m2, schedule_step agent_stages (flood_shock cfg m) = Ok m2 →
           queued_in_own_region m2) →
  collected' = collected ++ [report m']
  ∧ ∀ r, (r < N_REGIONS cfg)%nat →
      ∃ gov, governments m' !! r = Some gov
             ∧ bailout_cost gov = 0%Q ∧ new_firms_resources gov = 0%Q.
Proof.
  unfold step. intros H Hqueues.
  apply bind_Ok in H as (m2 & Hstages & H).
  apply bind_Ok in H as (m3 & Hdrain & H).
  injection H as <- <-. split; [done |].
  intros r Hr. unfold remove_bankrupt_firms, REGIONS in Hdrain.
  destruct Hqueues as [Hone | Hown].
  - rewrite Hone in Hdrain, Hr. assert (r = 0%nat) as -> by lia.
    simpl in Hdrain. apply bind_Ok in Hdrain as (m4 & Hreg & [= ->]).
    apply remove_region_fields in Hreg as (m1 & gov & _ & _ & -> & _).
    rewrite lookup_insert_eq. by eexists.
  - apply (remove_regions_zero _ _ _ (NoDup_seq _ _) (Hown m2 Hstages) Hdrain).
    apply elem_of_seq. lia.
Qed.

Lemma drain_queue_flood queue : ∀ m m',
  drain_queue queue m = Ok m' →
  flood_now m' = flood_now m ∧ flood_return m' = flood_return m
  ∧ time (schedule m') = time (schedule m).
Proof.
  induction queue as [|firm queue IH]; intros m m' H; simpl in H.
  - by injection H as <-.
  - apply bind_Ok in H as (m1 & Hrem & H).
    apply bind_Ok in H as ([m2 sub] & Hadd & H).
    destruct (IH _ _ H) as (-> & -> & ->).
    apply remove_firm_inv in Hrem
      as (f & gov & bucket & bucket' & _ & _ & _ & _ & _ & _ & _ & _ & _
          & Ht1 & _ & Hn1 & Hr1 & _).
    apply add_subsidiary_inv in Hadd
      as (f' & rng & gov1 & cap & best_cap & best & rngs' & sub0 & bucket1
          & _ & _ & _ & _ & _ & _ & _ & _ & _ & _ & _ & _ & _ & Hs2 & Hn2
          & Hr2 & _).
    rewrite Hs2, Hn2, Hr2. cbn. by rewrite Ht1, Hn1, Hr1.
Qed.

Lemma remove_regions_flood regions : ∀ m m',
  remove_regions regions m = Ok m' →
  flood_now m' = flood_now m ∧ flood_return m' = flood_return m
  ∧ time (schedule m') = time (schedule m).
Proof.
  induction regions as [|r regions IH]; intros m m' H; simpl in H.
  - by injection H as <-.
  - apply bind_Ok in H as (m1 & Hreg & H).
    destruct (IH _ _ H) as (-> & -> & ->).
    apply remove_region_fields in Hreg
      as (m0 & gov & Hdrain & _ & _ & _ & _ & _ & _ & -> & -> & ->).
    exact (drain_queue_flood _ _ _ Hdrain).
Qed.

(** A whole step: the stages run on the model as the flood shock left it;
    when they leave the flood attributes and the time counter alone, the
    model after the step still carries the shock of the step, and time has
    advanced by one. *)
Lemma step_flood_flag m collected m' collected' :
  step m collected = Ok (m', collected') →
  ∃ m2,
    agent_stages (flood_shock cfg m) = Ok m2
    ∧ flood_now m' = flood_now m2
    ∧ flood_return m' = flood_return m2
    ∧ time (schedule m') = S (time (schedule m2))
    ∧ (flood_now m2 = flood_now (flood_shock cfg m) →
       time (schedule m2) = time (schedule m) →
       (flood_now m' = true ↔ time (schedule m) ∈ dom (FLOOD_WHEN cfg))
       ∧ time (schedule m') = S (time (schedule m))).
Proof.
  unfold step, schedule_step. intros H.
  apply bind_Ok in H as (m3 & Hstages & H).
  apply bind_Ok in Hstages as (m2 & Hstages & [= <-]).
  apply bind_Ok in H as (m4 & Hdrain & [= <- <-]).
  apply remove_regions_flood in Hdrain as (Hnow & Hreturn & Htime).
  cbn in Hnow, Hreturn, Htime.
  exists m2. do 4 (split; [done |]).
  intros Hkept Htime2. rewrite Hnow, Hkept, Htime, Htime2.
  split; [apply flood_shock_now_iff | done].
Qed.

End Lifecycle.

(** ** The scenario, run *)

Import Scenario.


Lemma scenario_exit : remove_firm bankrupt_producer 1 = Ok after_exit.
Proof. vm_compute. reflexivity. Defined.

Lemma scenario_entry :
  add_subsidiary two_producers fixed_sample second_is_best plain_defaults
    after_exit 1 = Ok (after_entry, 10%nat).
Proof. vm_compute. reflexivity. Defined.

Lemma scenario_region :
  remove_region two_producers fixed_sample second_is_best plain_defaults
    0 bankrupt_producer = Ok after_drain.
Proof. vm_compute. reflexivity. Defined.

Lemma scenario_drain :
  remove_bankrupt_firms two_producers fixed_sample second_is_best
    plain_defaults bankrupt_producer = Ok after_drain.
Proof. vm_compute. reflexivity. Defined.

Lemma scenario_step :
  step two_producers fixed_sample second_is_best plain_defaults idle_stages
    _ counters bankrupt_producer []
  = Ok (after_step, [counters after_step]).
Proof. vm_compute. reflexivity. Defined.



(** In the scenario the bailout cost after the loop is -10, and the bucket
    of region 0 holds producer 2 and one new producer of market share 1/2. *)
Lemma bailout_and_replacement_witness :
  remove_region two_producers fixed_sample second_is_best plain_defaults
    0 bankrupt_producer = Ok after_drain
  ∧ firms_to_remove bankrupt_producer !! 0%nat = Some [1%nat]
  ∧ heap bankrupt_producer !! 1%nat = Some (producer CapitalFirm (-10))
  ∧ region (producer CapitalFirm (-10)) = 0%nat
  ∧ isinstance CapitalFirm CapitalFirm = true
  ∧ governments bankrupt_producer !! 0%nat = Some government
  ∧ ∃ m1 gov1 sub sub_obj,
      drain_queue two_producers fixed_sample second_is_best plain_defaults
        [1%nat] bankrupt_producer = Ok m1
      ∧ governments m1 !! 0%nat = Some gov1
      ∧ (bailout_cost gov1 == -10)%Q
      ∧ firms_bucket after_drain 0 CapitalFirm = Ok [2%nat; sub]
      ∧ heap bankrupt_producer !! sub = None
      ∧ heap after_drain !! sub = Some sub_obj
      ∧ (market_share sub_obj == 1 # 2)%Q.
Proof.
  split; [exact scenario_region |].
  do 5 (split; [reflexivity |]).
  destruct (proj2 (bailout_and_replacement two_producers fixed_sample
                     second_is_best plain_defaults)
              0%nat bankrupt_producer after_drain 1%nat
              (producer CapitalFirm (-10)) government
              scenario_region eq_refl eq_refl eq_refl eq_refl eq_refl)
    as (m1 & gov1 & gov' & sub & sub_obj & bucket & bucket' & by_type & n
        & Hdrain & Hgov1 & Hbail & _ & _ & _ & Hb & Hb' & Hb1 & Hfresh & Hsub
        & _ & _ & Hby & Hn & _ & Hshare).
  vm_compute in Hb. injection Hb as <-.
  vm_compute in Hb'. injection Hb' as <-.
  vm_compute in Hby. injection Hby as <-.
  vm_compute in Hn. injection Hn as <-.
  exists m1, gov1, sub, sub_obj.
  split; [exact Hdrain |]. split; [exact Hgov1 |].
  split; [rewrite Hbail; reflexivity |].
  split; [exact Hb1 |]. split; [exact Hfresh |]. split; [exact Hsub |].
  exact (Hshare eq_refl).
Defined.

(** C2 as stated fails in its own scenario: with producer 1, of net worth
    -10, the one firm queued, and a bailout cost of 0 before the drain, the
    bailout cost of region 0 is -10 when the loop over the queue ends and 0
    when the drain of the region ends; it is 10 at neither point. *)
Lemma bailout_scenario_counterexample :
  ∃ m1 gov1 gov',
    (net_worth (producer CapitalFirm (-10)) == -10)%Q
    ∧ heap bankrupt_producer !! 1%nat = Some (producer CapitalFirm (-10))
    ∧ firms_to_remove bankrupt_producer !! 0%nat = Some [1%nat]
    ∧ n_firms bankrupt_producer 0 CapitalFirm = 2%nat
    ∧ drain_queue two_producers fixed_sample second_is_best plain_defaults
        [1%nat] bankrupt_producer = Ok m1
    ∧ governments m1 !! 0%nat = Some gov1
    ∧ (bailout_cost gov1 == -10)%Q
    ∧ ¬ (bailout_cost gov1 == 10)%Q
    ∧ remove_bankrupt_firms two_producers fixed_sample second_is_best
        plain_defaults bankrupt_producer = Ok after_drain
    ∧ governments after_drain !! 0%nat = Some gov'
    ∧ (bailout_cost gov' == 0)%Q
    ∧ ¬ (bailout_cost gov' == 10)%Q.
Proof.
  eexists _, _, _.
  split; [reflexivity |]. split; [reflexivity |]. split; [reflexivity |].
  split; [reflexivity |].
  split; [vm_compute; reflexivity |].
  split; [vm_compute; reflexivity |].
  split; [reflexivity |]. split; [discriminate |].
  split; [exact scenario_drain |].
  split; [vm_compute; reflexivity |].
  split; [reflexivity | discriminate].
Qed.

(** The scenario meets the conditions under which the drain completes. *)
Lemma scenario_completes :
  ∃ m',
    remove_bankrupt_firms two_producers fixed_sample second_is_best
      plain_defaults bankrupt_producer = Ok m'
    ∧ ∀ r cls, n_firms m' r cls = n_firms bankrupt_producer r cls.
Proof.
  apply (drain_completes two_producers fixed_sample second_is_best
           plain_defaults (λ b, b = 2%nat)).
  - intros m r. by exists 2%nat.
  - intros r [-> | Hr]%elem_of_cons; [by eexists | by apply elem_of_nil in Hr].
  - apply (bool_decide_unpack _). by vm_compute.
  - intros x [-> | Hx]%elem_of_cons; [| by apply elem_of_nil in Hx].
    exists (producer CapitalFirm (-10)), government, [1%nat; 2%nat].
    split; [reflexivity |]. split; [reflexivity |]. split; [reflexivity |].
    split; [left |].
    split; [apply elem_of_union; left; by apply elem_of_singleton |].
    split; [by eexists |]. split; [by eexists |].
    by exists [(CapitalFirm, 2%nat)], 1%nat.
  - intros b ->. exists (producer CapitalFirm 50).
    split; [reflexivity | by eexists].
Qed.

(** In the scenario region 0 holds two capital producers before and after
    the drain. *)
Lemma population_conservation_witness :
  remove_bankrupt_firms two_producers fixed_sample second_is_best
    plain_defaults bankrupt_producer = Ok after_drain
  ∧ n_firms bankrupt_producer 0 CapitalFirm = 2%nat
  ∧ n_firms after_drain 0 CapitalFirm = 2%nat.
Proof.
  split; [exact scenario_drain |]. split; [reflexivity |].
  destruct (population_conservation _ _ _ _ _ _ scenario_drain) as [Hcount _].
  rewrite (Hcount 0%nat CapitalFirm). reflexivity.
Defined.

(** Four firm types and seed 0: the six per-type streams are seeded 0 to 5
    and the adaptation stream 6; with seed -1 the construction raises. *)
Lemma init_RNGs_seeds_witness :
  N_FIRMS four_firm_types !! 0%nat
  = Some [(CapitalFirm, 125%nat); (ConsumptionGoodFirm, 200%nat);
          (ServiceFirm, 300%nat); (ConsumptionFirm, 50%nat)]
  ∧ NoDup [CapitalFirm; ConsumptionGoodFirm; ServiceFirm; ConsumptionFirm;
           Household; Government]
  ∧ (∃ rngs,
       init_RNGs four_firm_types 0 = Ok rngs
       ∧ (stream_seed rngs ∘ KClass)
           <$> [CapitalFirm; ConsumptionGoodFirm; ServiceFirm; ConsumptionFirm;
                Household; Government]
         = Some <$> [0; 1; 2; 3; 4; 5]
       ∧ stream_seed rngs KAdaptation = Some 6)
  ∧ (∃ rngs,
       init_RNGs four_firm_types 10 = Ok rngs
       ∧ rngs !! KClass ServiceFirm
         = Some {| rng_seed := 12; rng_history := [] |}
       ∧ rngs !! KAdaptation = Some {| rng_seed := 16; rng_history := [] |})
  ∧ init_RNGs four_firm_types (-1)
    = Raise (ValueError "expected non-negative integer").
Proof.
  assert (Hnd : NoDup [CapitalFirm; ConsumptionGoodFirm; ServiceFirm;
                       ConsumptionFirm; Household; Government]).
  { apply (bool_decide_unpack _). vm_compute. exact I. }
  split; [reflexivity |]. split; [exact Hnd |].
  destruct init_RNGs_seeds as (Hgen & Hneg & Hfour).
  split; [exact (Hfour four_firm_types _ eq_refl eq_refl Hnd) |].
  split; [| exact (Hneg four_firm_types (-1) _ eq_refl eq_refl)].
  destruct (Hgen four_firm_types 10 _ eq_refl Hnd) as (rngs & Hinit & Hcls & Hadapt);
    [discriminate |].
  exists rngs. split; [exact Hinit |].
  split; [exact (Hcls 2%nat ServiceFirm eq_refl) | exact Hadapt].
Defined.

Lemma scenario_heavy :
  add_subsidiary two_producers skewed_sample second_is_best plain_defaults
    failed_heavy 1 = Ok (heavy_entry, 3%nat).
Proof. vm_compute. reflexivity. Defined.

(** With top productivity 3 and a beta draw of 3/4 the product of the
    floats is 3.1125000000000003 and its thousandfold 3112.5000000000005:
    the subsidiary of the heavy producer has the historical productivity
    3.113, where the exact product 3.1125 would give 3.112; it has the
    productivity 3/2 of producer 2's brochure, market share 1/2 and
    lifetime 0. *)
Lemma capital_subsidiary_witness :
  heap failed_heavy !! 1%nat = Some heavy_producer
  ∧ isinstance CapitalFirm CapitalFirm = true
  ∧ add_subsidiary two_producers skewed_sample second_is_best plain_defaults
      failed_heavy 1 = Ok (heavy_entry, 3%nat)
  ∧ top_prod frugal_government = 3%Q
  ∧ skewed_sample 0 [DrawUniform] (DrawBeta 2 4) = (3 # 4)%Q
  ∧ ∃ sub_obj,
      heap heavy_entry !! 3%nat = Some sub_obj
      ∧ prod sub_obj = (3 # 2)%Q
      ∧ (old_prod sub_obj == b64 3.113)%Q
      ∧ (market_share sub_obj == 1 # 2)%Q
      ∧ lifetime sub_obj = 0.
Proof.
  split; [reflexivity |]. split; [reflexivity |]. split; [exact scenario_heavy |].
  split; [reflexivity |]. split; [reflexivity |].
  destruct (capital_subsidiary two_producers skewed_sample second_is_best
              plain_defaults failed_heavy heavy_entry 1 3
              heavy_producer eq_refl eq_refl scenario_heavy)
    as (gov & rng & best_cap & best & sub_obj & by_type & n & k
        & Hgov & Hrng & Hbc & Hbest & Hsub & Hprod & Hold & Hby & Hn & Hshare
        & Hlife).
  vm_compute in Hgov. injection Hgov as <-.
  vm_compute in Hrng. injection Hrng as <-.
  vm_compute in Hbc. injection Hbc as <-.
  vm_compute in Hbest. injection Hbest as <-.
  vm_compute in Hby. injection Hby as <-.
  vm_compute in Hn. injection Hn as <-.
  vm_compute in Hprod. injection Hprod as Hprod.
  cbn zeta in Hold. destruct Hold as (Hold & Hlo & Hhi & _).
  assert (Hk : k = 3113).
  { assert (H1 : (inject_Z 3112 < inject_Z k)%Q).
    { eapply Qlt_le_trans; [| exact Hlo]. vm_compute. reflexivity. }
    assert (H2 : (inject_Z k < inject_Z 3114)%Q).
    { eapply Qle_lt_trans; [exact Hhi |]. vm_compute. reflexivity. }
    rewrite <- Zlt_Qlt in H1, H2. lia. }
  subst k.
  exists sub_obj. split; [exact Hsub |].
  split; [symmetry; exact Hprod |].
  split; [rewrite Hold; vm_compute; reflexivity |].
  split; [rewrite Hshare; reflexivity | exact Hlife].
Defined.

(** In the scenario firm 9, a plain [Firm] with a stream and a capital
    endowment of its own, makes [add_subsidiary] raise the [ValueError];
    capital producer 1 does not. *)
Lemma unrecognized_firm_type_witness :
  heap bankrupt_producer !! 9%nat = Some (producer Firm 50)
  ∧ recognized Firm = false
  ∧ heap bankrupt_producer !! 1%nat = Some (producer CapitalFirm (-10))
  ∧ recognized CapitalFirm = true
  ∧ (∀ m0 r, second_is_best m0 r ≠ Raise (ValueError not_recognized))
  ∧ add_subsidiary two_producers fixed_sample second_is_best plain_defaults
      bankrupt_producer 9 = Raise (ValueError not_recognized)
  ∧ add_subsidiary two_producers fixed_sample second_is_best plain_defaults
      bankrupt_producer 1 ≠ Raise (ValueError not_recognized).
Proof.
  assert (Hbest : ∀ m0 r, second_is_best m0 r ≠ Raise (ValueError not_recognized))
    by (intros m0 r; discriminate).
  do 4 (split; [reflexivity |]). split; [exact Hbest |]. split.
  - destruct (unrecognized_firm_type two_producers fixed_sample second_is_best
                plain_defaults bankrupt_producer 9 (producer Firm 50) eq_refl)
      as [Hfail _].
    destruct (Hfail eq_refl) as [_ Herr].
    exact (Herr (seeded 7) government 7%Q 2%nat (producer CapitalFirm 50)
             eq_refl eq_refl eq_refl eq_refl eq_refl).
  - destruct (unrecognized_firm_type two_producers fixed_sample second_is_best
                plain_defaults bankrupt_producer 1 (producer CapitalFirm (-10))
                eq_refl)
      as [_ Hok].
    exact (Hok eq_refl Hbest).
Defined.

(** With [FLOOD_WHEN = {5: 100}]: at step 5 the flag is set and the return
    period is 100, at step 6 the flag is clear. *)
Lemma flood_shock_flag_witness :
  FLOOD_WHEN two_producers = {[ 5%nat := 100%nat ]}
  ∧ time (schedule bankrupt_producer) = 5%nat
  ∧ time (schedule next_step) = 6%nat
  ∧ flood_now (flood_shock two_producers bankrupt_producer) = true
  ∧ flood_return (flood_shock two_producers bankrupt_producer) = 100%nat
  ∧ flood_now (flood_shock two_producers next_step) = false.
Proof.
  do 3 (split; [reflexivity |]).
  destruct (flood_shock_flag two_producers bankrupt_producer)
    as (_ & _ & _ & Hfive).
  destruct (flood_shock_flag two_producers next_step) as (_ & _ & _ & Hsix).
  destruct (proj1 (Hfive eq_refl) eq_refl) as [Hnow Hreturn].
  split; [exact Hnow |]. split; [exact Hreturn |].
  exact (proj2 (Hsix eq_refl) eq_refl).
Defined.

(** In the scenario the subsidiary costs the government of region 0 its
    average net worth, 100, and after the drain of the region both counters
    are 0. *)
Lemma new_firms_resources_and_reset_witness :
  add_subsidiary two_producers fixed_sample second_is_best plain_defaults
    after_exit 1 = Ok (after_entry, 10%nat)
  ∧ heap after_exit !! 1%nat = Some (producer CapitalFirm (-10))
  ∧ governments after_exit !! 0%nat
    = Some (set_bailout_cost (0 + -10) government)
  ∧ remove_region two_producers fixed_sample second_is_best plain_defaults
      0 bankrupt_producer = Ok after_drain
  ∧ (∃ gov,
       governments after_entry !! 0%nat = Some gov
       ∧ (new_firms_resources gov == 100)%Q
       ∧ (bailout_cost gov == -10)%Q)
  ∧ (∃ gov,
       governments after_drain !! 0%nat = Some gov
       ∧ bailout_cost gov = 0%Q ∧ new_firms_resources gov = 0%Q).
Proof.
  split; [exact scenario_entry |]. do 2 (split; [reflexivity |]).
  split; [exact scenario_region |].
  destruct (new_firms_resources_and_reset two_producers fixed_sample
              second_is_best plain_defaults) as [Hadd Hreset].
  split.
  - destruct (Hadd after_exit 1%nat after_entry 10%nat
                (producer CapitalFirm (-10))
                (set_bailout_cost (0 + -10) government)
                scenario_entry eq_refl eq_refl)
      as (gov & Hgov & Hnew & Hbail & _).
    exists gov. split; [exact Hgov |].
    split; [rewrite Hnew | rewrite Hbail]; reflexivity.
  - destruct (Hreset 0%nat bankrupt_producer after_drain scenario_region)
      as (m1 & gov1 & gov & _ & _ & _ & Hgov & Hbail & Hnew & _).
    exists gov. split; [exact Hgov |]. split; [exact Hbail | exact Hnew].
Defined.

(** In the scenario the reporter reads 0 for both counters of region 0. *)
Lemma reporter_sees_zero_counters_witness :
  step two_producers fixed_sample second_is_best plain_defaults idle_stages
    _ counters bankrupt_producer []
  = Ok (after_step, [counters after_step])
  ∧ N_REGIONS two_producers = 1%nat
  ∧ ∃ gov,
      governments after_step !! 0%nat = Some gov
      ∧ bailout_cost gov = 0%Q ∧ new_firms_resources gov = 0%Q.
Proof.
  split; [exact scenario_step |]. split; [reflexivity |].
  destruct (reporter_sees_zero_counters two_producers fixed_sample
              second_is_best plain_defaults idle_stages counters
              bankrupt_producer after_step [] [counters after_step]
              scenario_step (or_introl eq_refl))
    as [_ Hzero].
  apply (Hzero 0%nat). simpl. lia.
Defined.

(** In the scenario [get_firms(0, attr)] is the list of producers 1 and 2. *)
Lemma get_firms_ignores_attr_witness :
  firms bankrupt_producer !! 0%nat = Some [(CapitalFirm, [1%nat; 2%nat])]
  ∧ get_firms bankrupt_producer 0 (Some "prod") = Ok [1%nat; 2%nat].
Proof.
  split; [reflexivity |].
  exact (proj2 (get_firms_ignores_attr bankrupt_producer 0 (Some "prod"))
           [(CapitalFirm, [1%nat; 2%nat])] eq_refl).
Defined.

(** ** More on the registry *)

Lemma alist_lookup_elem {V} c (v : V) d :
  alist_lookup c d = Some v → (c, v) ∈ d.
Proof.
  induction d as [|[c' v'] d IH]; simpl; [done |].
  destruct (decide (c = c')) as [->|].
  - intros [= ->]. left.
  - intros H. right. by apply IH.
Qed.

Lemma elem_of_buckets (d : list (AgentClass * list nat)) c bucket x :
  (c, bucket) ∈ d → x ∈ bucket → x ∈ concat (d.*2).
Proof.
  intros Hd Hx. apply list_elem_of_In, in_concat.
  exists bucket. split; apply list_elem_of_In; [|done].
  apply list_elem_of_fmap. by exists (c, bucket).
Qed.

(** The buckets of a dictionary, added up along its keys. *)
Lemma concat_length_keys (d : list (AgentClass * list nat)) :
  NoDup (d.*1) →
  length (concat (d.*2))
  = sum_list ((λ c, length (default [] (alist_lookup c d))) <$> d.*1).
Proof.
  induction d as [|[c b] d IH]; [done |].
  rewrite !fmap_cons. cbn [fst snd concat sum_list sum_list_with alist_lookup].
  intros [Hnotin Hnd]%NoDup_cons.
  rewrite length_app, decide_True by done. cbn [default]. f_equal.
  rewrite (IH Hnd). f_equal.
  apply list_fmap_ext. intros i c' Hc'.
  rewrite decide_False; [done |].
  intros ->. apply Hnotin. by apply list_elem_of_lookup_2 in Hc'.
Qed.

(** X1: whatever [get_firms_by_type] and [get_cons_firms] return is part of
    what [get_firms] returns for the region; with the three buckets in the
    order [__init__] creates them, [get_firms] is the capital firms followed
    by [get_cons_firms]; and the length of [get_firms] is the sum of the
    sizes of the type buckets. *)
Theorem getters_agree {A} (m : Model) (r : nat) (attr : option A) (l : list nat) :
  get_firms m r attr = Ok l →
  (∀ cls bucket, get_firms_by_type m cls r = Ok bucket → bucket ⊆ l)
  ∧ (∀ cons, get_cons_firms m r = Ok cons → cons ⊆ l)
  ∧ (∀ caps goods services,
       firms m !! r = Some [(CapitalFirm, caps); (ConsumptionGoodFirm, goods);
                            (ServiceFirm, services)] →
       get_cons_firms m r = Ok (goods ++ services)
       ∧ l = caps ++ goods ++ services)
  ∧ (∀ by_type,
       firms m !! r = Some by_type → NoDup (by_type.*1) →
       length l = sum_list (n_firms m r <$> by_type.*1)).
Proof.
  unfold get_firms, get_firms_by_type, get_cons_firms, firms_bucket, n_firms.
  destruct (firms m !! r) as [by_type|]; [|done].
  intros [= <-]. split; [| split; [| split]].
  - intros cls bucket H%alist_getitem_Ok%alist_lookup_elem x Hx.
    by apply (elem_of_buckets _ cls bucket).
  - intros cons H.
    apply bind_Ok in H as (goods & Hg%alist_getitem_Ok%alist_lookup_elem & H).
    apply bind_Ok in H as (services & Hs%alist_getitem_Ok%alist_lookup_elem & H).
    injection H as <-. intros x [Hx | Hx]%elem_of_app.
    + by apply (elem_of_buckets _ ConsumptionGoodFirm goods).
    + by apply (elem_of_buckets _ ServiceFirm services).
  - intros caps goods services [= ->]. split; [reflexivity |].
    simpl. by rewrite app_nil_r.
  - intros by_type' [= <-] Hnd. by apply concat_length_keys.
Qed.

(** X2: a region without a firm dictionary makes [get_firms] raise
    [AttributeError] and the two other getters [TypeError]; for a region
    with one, [get_firms] always returns, [get_firms_by_type] raises
    [KeyError] exactly when the type has no bucket, and [get_cons_firms]
    exactly when the goods or the service bucket is missing. *)
Theorem getters_missing {A} (m : Model) (r : nat) (attr : option A) :
  (firms m !! r = None →
     get_firms m r attr = Raise AttributeError
     ∧ (∀ cls, get_firms_by_type m cls r = Raise TypeError)
     ∧ get_cons_firms m r = Raise TypeError)
  ∧ (∀ by_type,
       firms m !! r = Some by_type →
       is_Ok (get_firms m r attr)
       ∧ (∀ cls, get_firms_by_type m cls r = Raise KeyError
                 ↔ alist_lookup cls by_type = None)
       ∧ (get_cons_firms m r = Raise KeyError
          ↔ alist_lookup ConsumptionGoodFirm by_type = None
            ∨ alist_lookup ServiceFirm by_type = None)).
Proof.
  unfold get_firms, get_firms_by_type, get_cons_firms, firms_bucket,
    alist_getitem.
  split.
  - intros ->. done.
  - intros by_type ->. split; [by eexists |]. split.
    + intros cls. destruct (alist_lookup cls by_type); split; congruence.
    + destruct (alist_lookup ConsumptionGoodFirm by_type); simpl;
        [| split; [by left | done]].
      destruct (alist_lookup ServiceFirm by_type); simpl;
        [| split; [by right | done]].
      split; [done | intros [? | ?]; done].
Qed.

(** ** Adding a firm *)

Lemma alist_set_id {V} c (v : V) d :
  alist_lookup c d = Some v → alist_set c v d = d.
Proof.
  induction d as [|[c' v'] d IH]; simpl; [done |].
  destruct (decide (c = c')) as [->|]; [by intros [= ->] |].
  intros H. by rewrite (IH H).
Qed.

Lemma alist_set_set {V} c (v1 v2 : V) d :
  alist_set c v2 (alist_set c v1 d) = alist_set c v2 d.
Proof.
  induction d as [|[c' v'] d IH]; simpl.
  - by rewrite decide_True.
  - destruct (decide (c = c')) as [->|Hne]; simpl.
    + by rewrite decide_True.
    + by rewrite decide_False, IH.
Qed.

Lemma list_remove_last x l : x ∉ l → list_remove x (l ++ [x]) = Some l.
Proof.
  induction l as [|y l IH]; simpl; intros Hx.
  - by rewrite decide_True.
  - apply not_elem_of_cons in Hx as [Hne Hx].
    by rewrite decide_False, (IH Hx).
Qed.

Lemma list_remove_None x l : x ∉ l → list_remove x l = None.
Proof.
  induction l as [|y l IH]; simpl; intros Hx; [done |].
  apply not_elem_of_cons in Hx as [Hne Hx].
  by rewrite decide_False, (IH Hx).
Qed.

Lemma list_remove_NoDup x l l' :
  list_remove x l = Some l' → NoDup l →
  NoDup l' ∧ (x ∉ l') ∧ (∀ z, z ∈ l' → z ∈ l).
Proof.
  revert l'. induction l as [|y l IH]; intros l' H Hnd; simpl in H; [done |].
  apply NoDup_cons in Hnd as [Hy Hnd].
  destruct (decide (x = y)) as [->|Hne].
  - injection H as <-. split; [done |]. split; [done |].
    intros z Hz. by right.
  - destruct (list_remove x l) as [l0|] eqn:E; [|done]. injection H as <-.
    destruct (IH l0 eq_refl Hnd) as (Hnd0 & Hx0 & Hsub).
    split; [| split].
    + apply NoDup_cons. split; [| done]. intros Hy0. by apply Hy, Hsub.
    + apply not_elem_of_cons. by split.
    + intros z [-> | Hz]%elem_of_cons; [left | right; by apply Hsub].
Qed.

Lemma bucket_after_set m m' r cls bucket b :
  firms_bucket m r cls = Ok bucket →
  firms m' = <[r := alist_set cls b (default [] (firms m !! r))]> (firms m) →
  ∀ r' cls',
    firms_bucket m' r' cls'
    = if decide (r' = r ∧ cls' = cls) then Ok b else firms_bucket m r' cls'.
Proof.
  unfold firms_bucket. intros Hb -> r' cls'.
  destruct (firms m !! r) as [by_type|] eqn:Hr; [|done].
  destruct (decide (r' = r)) as [->|Hne].
  - rewrite lookup_insert_eq, Hr. unfold alist_getitem. simpl.
    rewrite alist_lookup_set.
    destruct (decide (cls' = cls)) as [->|Hc]; simpl.
    + rewrite decide_True; done.
    + rewrite decide_False; [done |]. by intros [_ ?].
  - rewrite lookup_insert_ne by done.
    rewrite decide_False; [done |]. by intros [? _].
Qed.

Lemma n_firms_bucket m r cls bucket :
  firms_bucket m r cls = Ok bucket → n_firms m r cls = length bucket.
Proof.
  unfold n_firms, firms_bucket.
  destruct (firms m !! r) as [by_type|]; [|done].
  intros Hb%alist_getitem_Ok. by rewrite Hb.
Qed.

Section AddFirm.
Context {K : Type} (constructor : AgentClass → nat → K → FirmObj).

Lemma add_firm_inv m cls r kwargs m' new :
  add_firm constructor m cls r kwargs = Ok (m', new) →
  ∃ bucket,
    firms_bucket m r cls = Ok bucket
    ∧ new = fresh (dom (heap m))
    ∧ heap m' = <[new := constructor cls r kwargs]> (heap m)
    ∧ firms m'
      = <[r := alist_set cls (bucket ++ [new]) (default [] (firms m !! r))]>
          (firms m)
    ∧ schedule m' = schedule_add new (schedule m)
    ∧ governments m' = governments m ∧ RNGs m' = RNGs m
    ∧ firms_to_remove m' = firms_to_remove m
    ∧ flood_now m' = flood_now m ∧ flood_return m' = flood_return m.
Proof.
  unfold add_firm. intros H.
  apply bind_Ok in H as (bucket & Hb & H). injection H as <- <-.
  exists bucket. cbn. auto 12.
Qed.

(** X3: [add_firm] returns exactly when the region has a bucket for the
    class, and then the new firm is a new object, the one the constructor
    returned, appended at the end of that bucket and registered with the
    scheduler; every other bucket and object, the governments, the streams
    and the queues are as before.  Without a firm dictionary for the region
    it raises [TypeError], without a bucket for the class [KeyError]. *)
Theorem add_firm_registers (m : Model) (cls : AgentClass) (r : nat) (kwargs : K) :
  (∀ bucket,
     firms_bucket m r cls = Ok bucket →
     ∃ m' new,
       add_firm constructor m cls r kwargs = Ok (m', new)
       ∧ heap m !! new = None
       ∧ heap m' !! new = Some (constructor cls r kwargs)
       ∧ (∀ x, x ≠ new → heap m' !! x = heap m !! x)
       ∧ get_firms_by_type m' cls r = Ok (bucket ++ [new])
       ∧ (∀ r' cls', ¬ (r' = r ∧ cls' = cls) →
            firms_bucket m' r' cls' = firms_bucket m r' cls')
       ∧ n_firms m' r cls = S (n_firms m r cls)
       ∧ new ∈ agents (schedule m')
       ∧ governments m' = governments m ∧ RNGs m' = RNGs m
       ∧ firms_to_remove m' = firms_to_remove m)
  ∧ (firms m !! r = None →
     add_firm constructor m cls r kwargs = Raise TypeError)
  ∧ (∀ by_type,
       firms m !! r = Some by_type → alist_lookup cls by_type = None →
       add_firm constructor m cls r kwargs = Raise KeyError).
Proof.
  split; [| split].
  - intros bucket Hb.
    destruct (add_firm constructor m cls r kwargs) as [[m' new]|err] eqn:H.
    + pose proof (add_firm_inv _ _ _ _ _ _ H)
        as (bucket' & Hb' & -> & Hheap & Hfirms & Hsch & Hgov & Hrng & Hq & _).
      rewrite Hb in Hb'. injection Hb' as <-.
      exists m', (fresh (dom (heap m))).
      split; [done |].
      split; [apply not_elem_of_dom, is_fresh |].
      split; [by rewrite Hheap, lookup_insert_eq |].
      split; [intros x Hx; by rewrite Hheap, lookup_insert_ne |].
      split.
      { unfold get_firms_by_type.
        rewrite (bucket_after_set m m' _ _ _ _ Hb Hfirms).
        by rewrite decide_True. }
      split.
      { intros r' cls' Hne.
        rewrite (bucket_after_set m m' _ _ _ _ Hb Hfirms).
        by rewrite decide_False. }
      split.
      { rewrite (n_firms_bucket m _ _ _ Hb).
        rewrite (n_firms_bucket m' r cls (bucket ++ [fresh (dom (heap m))])).
        - rewrite length_app. simpl. lia.
        - rewrite (bucket_after_set m m' _ _ _ _ Hb Hfirms).
          by rewrite decide_True. }
      split.
      { rewrite Hsch. cbn. apply elem_of_union. left.
        by apply elem_of_singleton. }
      done.
    + unfold add_firm in H.
      change (firms_bucket
                (set_heap (<[fresh (dom (heap m)) := constructor cls r kwargs]>
                             (heap m)) m) r cls)
        with (firms_bucket m r cls) in H.
      by rewrite Hb in H.
  - intros Hr. unfold add_firm, firms_bucket. cbn. by rewrite Hr.
  - intros by_type Hr Hc. unfold add_firm, firms_bucket, alist_getitem. cbn.
    by rewrite Hr, Hc.
Qed.

(** X4: a firm added by [add_firm] and then removed by [remove_firm]
    leaves the registry as it was before the two calls (when the constructor
    gave the firm the class and the region it was asked for, and the bucket
    held objects of the model); the object itself stays, and its net worth
    has gone to the bailout cost of the region. *)
Theorem add_then_remove
    (m m1 : Model) (cls : AgentClass) (r : nat) (kwargs : K) (new : nat)
    (gov : GovObj) (bucket : list nat) :
  add_firm constructor m cls r kwargs = Ok (m1, new) →
  f_class (constructor cls r kwargs) = cls →
  region (constructor cls r kwargs) = r →
  governments m !! r = Some gov →
  firms_bucket m r cls = Ok bucket →
  (∀ x, x ∈ bucket → is_Some (heap m !! x)) →
  ∃ m2,
    remove_firm m1 new = Ok m2
    ∧ firms m2 = firms m
    ∧ heap m2 !! new = Some (constructor cls r kwargs)
    ∧ governments m2
      = <[r := set_bailout_cost
                 (bailout_cost gov + net_worth (constructor cls r kwargs))%Q gov]>
          (governments m)
    ∧ RNGs m2 = RNGs m
    ∧ firms_to_remove m2 = firms_to_remove m
    ∧ (new ∉ agents (schedule m) → schedule m2 = schedule m).
Proof.
  intros H Hcls Hreg Hgov Hb Hlive.
  apply add_firm_inv in H
    as (bucket' & Hb' & -> & Hheap & Hfirms & Hsch & Hgovs & Hrng & Hq & _).
  rewrite Hb in Hb'. injection Hb' as <-.
  set (new := fresh (dom (heap m))) in *.
  set (f := constructor cls r kwargs) in *.
  assert (Hnew : new ∉ bucket).
  { intros Hin. destruct (Hlive new Hin) as [f0 Hf0].
    apply (is_fresh (dom (heap m))), elem_of_dom. by exists f0. }
  assert (Hf : heap m1 !! new = Some f).
  { by rewrite Hheap, lookup_insert_eq. }
  assert (Hb1 : firms_bucket m1 r cls = Ok (bucket ++ [new])).
  { rewrite (bucket_after_set m m1 _ _ _ _ Hb Hfirms). by rewrite decide_True. }
  assert (Hrem : is_Ok (remove_firm m1 new)).
  { unfold remove_firm.
    eapply bind_is_Ok; [by apply deref_Ok |].
    eapply bind_is_Ok; [apply gov_attr_Ok; by rewrite Hreg, Hgovs |].
    eapply bind_is_Ok; [rewrite Hreg, Hcls; exact Hb1 |].
    rewrite (list_remove_last _ _ Hnew).
    eapply bind_is_Ok; [reflexivity |].
    unfold schedule_remove.
    cbn [schedule set_bucket set_firms set_governments].
    rewrite Hsch. cbn [agents schedule_add].
    rewrite decide_True; [by eexists |].
    apply elem_of_union. left. by apply elem_of_singleton. }
  destruct Hrem as [m2 Hrem]. exists m2. split; [done |].
  apply remove_firm_inv in Hrem
    as (f' & gov' & b1 & b1' & Hf' & Hgov' & Hb1' & Hrm & _ & Hrng2 & Hgovs2
        & Hfirms2 & Hq2 & Ht2 & Ha2 & _ & _ & Hheap2).
  rewrite Hf in Hf'. injection Hf' as <-.
  rewrite Hreg, Hgovs, Hgov in Hgov'. injection Hgov' as <-.
  rewrite Hreg, Hcls, Hb1 in Hb1'. injection Hb1' as <-.
  rewrite (list_remove_last _ _ Hnew) in Hrm. injection Hrm as <-.
  split.
  { rewrite Hfirms2, Hreg, Hcls, Hfirms, lookup_insert_eq. cbn [from_option id].
    rewrite insert_insert_eq, alist_set_set.
    unfold firms_bucket in Hb.
    destruct (firms m !! r) as [by_type|] eqn:Hr; [|done].
    apply alist_getitem_Ok in Hb. cbn [from_option id].
    rewrite (alist_set_id _ _ _ Hb). by apply insert_id. }
  split; [by rewrite Hheap2 |].
  split; [by rewrite Hgovs2, Hreg, Hgovs |].
  split; [by rewrite Hrng2 |].
  split; [by rewrite Hq2 |].
  intros Hfresh.
  assert (Hagents : agents (schedule m2) = agents (schedule m)).
  { rewrite Ha2, Hsch. cbn [agents schedule_add].
    apply set_eq. intros x.
    rewrite elem_of_difference, elem_of_union, !elem_of_singleton.
    split; [intros [[-> | ?] ?]; done |].
    intros Hx. split; [by right |]. by intros ->. }
  rewrite Hsch in Ht2. cbn [time schedule_add] in Ht2.
  destruct (schedule m2) as [t2 a2], (schedule m) as [t0 a0].
  cbn in Hagents, Ht2. by rewrite Hagents, Ht2.
Qed.

End AddFirm.

(** ** Removing a firm that is not registered *)

Lemma remove_firm_not_in_bucket m firm f gov bucket :
  heap m !! firm = Some f →
  governments m !! region f = Some gov →
  firms_bucket m (region f) (f_class f) = Ok bucket →
  firm ∉ bucket →
  remove_firm m firm = Raise (ValueError "list.remove(x): x not in list").
Proof.
  intros Hf Hgov Hb Hnotin. unfold remove_firm, deref.
  rewrite Hf. cbn. rewrite Hgov. cbn.
  change (firms_bucket (set_governments _ m) (region f) (f_class f))
    with (firms_bucket m (region f) (f_class f)).
  rewrite Hb. cbn. by rewrite (list_remove_None _ _ Hnotin).
Qed.

(** X5: [remove_firm] on a firm that is not in the bucket of its region and
    class raises the [ValueError] of [list.remove]; in particular a second
    [remove_firm] on a firm that was registered once raises it. *)
Theorem remove_firm_unregistered
    (m : Model) (firm : nat) (f : FirmObj) (gov : GovObj) (bucket : list nat) :
  heap m !! firm = Some f →
  governments m !! region f = Some gov →
  firms_bucket m (region f) (f_class f) = Ok bucket →
  (firm ∉ bucket →
     remove_firm m firm = Raise (ValueError "list.remove(x): x not in list"))
  ∧ (NoDup bucket →
     ∀ m1, remove_firm m firm = Ok m1 →
       remove_firm m1 firm
       = Raise (ValueError "list.remove(x): x not in list")).
Proof.
  intros Hf Hgov Hb. split.
  - exact (remove_firm_not_in_bucket m firm f gov bucket Hf Hgov Hb).
  - intros Hnd m1 Hrem.
    apply remove_firm_inv in Hrem
      as (f' & gov' & bucket0 & bucket' & Hf' & Hgov' & Hb0 & Hb' & _ & _
          & Hgovs1 & Hfirms1 & _ & _ & _ & _ & _ & Hheap1).
    rewrite Hf in Hf'. injection Hf' as <-.
    rewrite Hb in Hb0. injection Hb0 as <-.
    destruct (list_remove_NoDup _ _ _ Hb' Hnd) as (_ & Hnotin & _).
    eapply remove_firm_not_in_bucket; [by rewrite Hheap1 | | | exact Hnotin].
    + rewrite Hgovs1. apply lookup_insert_eq.
    + rewrite (bucket_after_set m m1 _ _ _ _ Hb Hfirms1).
      by rewrite decide_True.
Qed.

(** ** More on the subsidiary *)

Section Subsidiary.
Context (cfg : Config) (sample : Z → list Draw → Draw → Q)
        (get_best_cap : Model → nat → result nat)
        (class_defaults : AgentClass → FirmKwargs → FirmObj).

Local Abbreviation derive_subsidiary := (derive_subsidiary cfg sample class_defaults).
Local Abbreviation add_subsidiary :=
  (add_subsidiary cfg sample get_best_cap class_defaults).

Lemma derive_subsidiary_consumption rngs gov f nw capital_amount offer rngs' sub0 :
  isinstance (f_class f) CapitalFirm = false →
  derive_subsidiary rngs gov f nw capital_amount offer = Ok (rngs', sub0) →
  rngs' = rngs
  ∧ isinstance (f_class f) ConsumptionFirm = true
  ∧ avg_comp_norm gov !! f_class f = Some (competitiveness sub0)
  ∧ market_share sub0 = 0%Q ∧ sales sub0 = 0%Q
  ∧ old_prod sub0
    = old_prod (class_defaults (f_class f)
                  {| kw_flood_depths := flood_depths f;
                     kw_market_share := 0; kw_net_worth := nw;
                     kw_init_n_machines := 1;
                     kw_init_cap_amount := capital_amount;
                     kw_sales := 0; kw_wage := wage f; kw_price := price f;
                     kw_prod := prod sub0; kw_old_prod := None;
                     kw_lifetime := 0 |}).
Proof.
  unfold derive_subsidiary. intros -> H.
  destruct (isinstance (f_class f) ConsumptionFirm); [|done].
  apply bind_Ok in H as (p & _ & H).
  apply bind_Ok in H as (comp & Hcomp%getitem_Ok & H).
  injection H as <- <-. cbn. auto 10.
Qed.

Lemma derive_subsidiary_endowment rngs gov f nw capital_amount offer rngs' sub0 :
  derive_subsidiary rngs gov f nw capital_amount offer = Ok (rngs', sub0) →
  n_machines sub0 = 1 ∧ cap_amount sub0 = capital_amount
  ∧ wage sub0 = wage f ∧ price sub0 = price f
  ∧ flood_depths sub0 = flood_depths f
  ∧ sales sub0
    = if isinstance (f_class f) CapitalFirm
      then inject_Z capital_amount else 0%Q.
Proof.
  unfold derive_subsidiary. intros H.
  destruct (isinstance (f_class f) CapitalFirm).
  - inv_bind H. simpl in H. inv_bind H. injection H as <- <-. cbn. auto 10.
  - destruct (isinstance (f_class f) ConsumptionFirm); [|done].
    inv_bind H. injection H as <- <-. cbn. auto 10.
Qed.

(** X6: for a consumption-good or service producer, the subsidiary has
    market share 0, sales 0, lifetime 0, the productivity of the best
    capital producer's brochure and the competitiveness
    [gov.avg_comp_norm[type(firm)]]; its historical productivity is the
    constructor's default; and the type's stream has made one draw only, the
    uniform one. *)
Theorem consumption_subsidiary (m m' : Model) (firm sub : nat) (f : FirmObj) :
  heap m !! firm = Some f →
  isinstance (f_class f) CapitalFirm = false →
  add_subsidiary m firm = Ok (m', sub) →
  ∃ gov rng best_cap best sub_obj,
    isinstance (f_class f) ConsumptionFirm = true
    ∧ governments m !! region f = Some gov
    ∧ RNGs m !! KClass (f_class f) = Some rng
    ∧ get_best_cap
        (set_RNGs (<[KClass (f_class f) := (uniform sample rng).2]> (RNGs m)) m)
        (region f) = Ok best_cap
    ∧ heap m !! best_cap = Some best
    ∧ heap m' !! sub = Some sub_obj
    ∧ f_class sub_obj = f_class f ∧ region sub_obj = region f
    ∧ market_share sub_obj = 0%Q
    ∧ sales sub_obj = 0%Q
    ∧ lifetime sub_obj = 0
    ∧ brochure best !! "prod" = Some (prod sub_obj)
    ∧ avg_comp_norm gov !! f_class f = Some (competitiveness sub_obj)
    ∧ old_prod sub_obj
      = old_prod (class_defaults (f_class f)
                    {| kw_flood_depths := flood_depths f;
                       kw_market_share := 0;
                       kw_net_worth := net_worth sub_obj;
                       kw_init_n_machines := 1;
                       kw_init_cap_amount := cap_amount sub_obj;
                       kw_sales := 0; kw_wage := wage f; kw_price := price f;
                       kw_prod := prod sub_obj; kw_old_prod := None;
                       kw_lifetime := 0 |})
    ∧ RNGs m' !! KClass (f_class f) = Some (advance DrawUniform rng).
Proof.
  intros Hf Hcap H.
  apply add_subsidiary_heap_sub in H
    as (f' & rng & gov & cap & best_cap & best & rngs' & sub0
        & Hf' & Hrng & Hgov & _ & Hbc & Hbest & Hsub0 & Hrngs & Hheap).
  rewrite Hf in Hf'. injection Hf' as <-.
  pose proof (derive_subsidiary_inv _ _ _ _ _ _ _ _ _ _ _ Hsub0)
    as (Hcls & Hreg & Hnw & Hlife & Hprod & _).
  pose proof (derive_subsidiary_endowment _ _ _ _ _ _ _ _ Hsub0)
    as (_ & Hca & _).
  apply (derive_subsidiary_consumption _ _ _ _ _ _ _ _ Hcap) in Hsub0
    as (-> & Hcons & Hcomp & Hshare & Hsales & Hold).
  exists gov, rng, best_cap, best,
    (set_supplier best_cap (brochure best) sub0).
  cbn. rewrite Hnw, Hca.
  repeat (split; [done |]).
  by rewrite Hrngs, lookup_insert_eq.
Qed.

(** X7: whatever its class, the subsidiary starts with one machine and the
    capital amount [round(gov.capital_new_firm[type(firm)] *
    firm.cap_out_ratio)]: the product is the float product, the exact
    product rounded to the nearest float, and the capital amount is an
    integer within 1/2 of it, the even one of the two when it lies halfway;
    the subsidiary inherits the wage, the price and the flood depths of the
    failed firm; its sales are the capital amount for a capital producer
    and 0 otherwise. *)
Theorem subsidiary_endowment (m m' : Model) (firm sub : nat) (f : FirmObj) :
  heap m !! firm = Some f →
  add_subsidiary m firm = Ok (m', sub) →
  ∃ gov cap sub_obj,
    governments m !! region f = Some gov
    ∧ capital_new_firm gov !! f_class f = Some cap
    ∧ heap m' !! sub = Some sub_obj
    ∧ n_machines sub_obj = 1
    ∧ (let product := b64 (cap * cap_out_ratio f) in
       cap_amount sub_obj = py_round product
       ∧ (product - (1 # 2) <= inject_Z (cap_amount sub_obj))%Q
       ∧ (inject_Z (cap_amount sub_obj) <= product + (1 # 2))%Q
       ∧ ((product - inject_Z (Qfloor product) == 1 # 2)%Q →
          Z.even (cap_amount sub_obj) = true))
    ∧ wage sub_obj = wage f ∧ price sub_obj = price f
    ∧ flood_depths sub_obj = flood_depths f
    ∧ sales sub_obj
      = if isinstance (f_class f) CapitalFirm
        then inject_Z (cap_amount sub_obj) else 0%Q.
Proof.
  intros Hf H.
  apply add_subsidiary_heap_sub in H
    as (f' & rng & gov & cap & best_cap & best & rngs' & sub0
        & Hf' & _ & Hgov & Hcap & _ & _ & Hsub0 & _ & Hheap).
  rewrite Hf in Hf'. injection Hf' as <-.
  apply derive_subsidiary_endowment in Hsub0
    as (Hn & Hca & Hw & Hp & Hfd & Hs).
  exists gov, cap, (set_supplier best_cap (brochure best) sub0).
  cbn. rewrite Hca. unfold fmul in *.
  destruct (py_round_near (b64 (cap * cap_out_ratio f))) as [Hlo Hhi].
  do 4 (split; [done |]).
  split; [| done].
  split; [done |]. split; [done |]. split; [done |]. apply py_round_tie.
Qed.

(** X8: [add_subsidiary] changes the objects of the model in two places
    only: it creates the subsidiary, a new object whose supplier is the best
    capital producer, the one [gov.get_best_cap()] returns after the uniform
    draw, and whose one offer is that producer's brochure, and it appends
    the subsidiary to the clients of that producer; every other object is
    untouched, and the subsidiary is linked to its supplier. *)
Theorem subsidiary_links (m m' : Model) (firm sub : nat) :
  add_subsidiary m firm = Ok (m', sub) →
  ∃ f rng best_cap best sub_obj,
    heap m !! firm = Some f
    ∧ RNGs m !! KClass (f_class f) = Some rng
    ∧ get_best_cap
        (set_RNGs (<[KClass (f_class f) := advance DrawUniform rng]> (RNGs m)) m)
        (region f) = Ok best_cap
    ∧ heap m !! sub = None
    ∧ heap m !! best_cap = Some best
    ∧ heap m' !! sub = Some sub_obj
    ∧ supplier sub_obj = Some best_cap
    ∧ offers sub_obj = [(best_cap, brochure best)]
    ∧ heap m' !! best_cap = Some (add_client sub best)
    ∧ clients (add_client sub best) = clients best ++ [sub]
    ∧ brochure (add_client sub best) = brochure best
    ∧ (∀ x, x ≠ sub → x ≠ best_cap → heap m' !! x = heap m !! x)
    ∧ linked (heap m') sub.
Proof.
  intros H. pose proof (add_subsidiary_fresh _ _ _ _ _ _ _ _ H) as Hfresh.
  apply add_subsidiary_inv in H
    as (f & rng & gov & cap & best_cap & best & rngs' & sub0 & bucket
        & Hf & Hrng & _ & _ & Hbc & Hbest & _ & _ & _ & _ & _ & _ & _ & _ & _
        & _ & Hheap).
  assert (Hne : best_cap ≠ sub) by (intros ->; congruence).
  exists f, rng, best_cap, best, (set_supplier best_cap (brochure best) sub0).
  split; [done |]. split; [done |]. split; [done |].
  split; [done |]. split; [done |].
  split; [by rewrite Hheap, lookup_insert_ne, lookup_insert_eq |].
  split; [done |]. split; [done |].
  split; [by rewrite Hheap, lookup_insert_eq |].
  split; [done |]. split; [done |]. split.
  - intros x Hx1 Hx2. by rewrite Hheap, !lookup_insert_ne.
  - exists (set_supplier best_cap (brochure best) sub0), best_cap,
      (add_client sub best).
    split; [by rewrite Hheap, lookup_insert_ne, lookup_insert_eq |].
    split; [done |].
    split; [by rewrite Hheap, lookup_insert_eq |].
    split; [done |]. cbn. apply elem_of_app. right. left.
Qed.

Lemma derive_subsidiary_streams rngs gov f nw capital_amount offer rngs' sub0 :
  derive_subsidiary rngs gov f nw capital_amount offer = Ok (rngs', sub0) →
  if isinstance (f_class f) CapitalFirm
  then ∃ rng, rngs !! KClass (f_class f) = Some rng
              ∧ rngs' = <[KClass (f_class f) := advance (DrawBeta 2 4) rng]> rngs
  else rngs' = rngs.
Proof.
  intros H. destruct (isinstance (f_class f) CapitalFirm) eqn:Ecap.
  - apply (derive_subsidiary_capital _ _ _ _ _ _ _ _ _ _ _ Ecap) in H
      as (rng & by_type & n & Hrng & -> & _).
    by exists rng.
  - by apply (derive_subsidiary_consumption _ _ _ _ _ _ _ _ Ecap) in H as [-> _].
Qed.

Lemma add_subsidiary_streams m firm m' sub :
  add_subsidiary m firm = Ok (m', sub) →
  ∃ f rng,
    heap m !! firm = Some f
    ∧ RNGs m !! KClass (f_class f) = Some rng
    ∧ RNGs m' !! KClass (f_class f)
      = Some {| rng_seed := rng_seed rng;
                rng_history :=
                  rng_history rng
                  ++ if isinstance (f_class f) CapitalFirm
                     then [DrawUniform; DrawBeta 2 4] else [DrawUniform] |}
    ∧ ∀ k, k ≠ KClass (f_class f) → RNGs m' !! k = RNGs m !! k.
Proof.
  intros H.
  apply add_subsidiary_inv in H
    as (f & rng & gov & cap & best_cap & best & rngs' & sub0 & bucket
        & Hf & Hrng & _ & _ & _ & _ & Hsub0 & _ & _ & Hrngs & _).
  exists f, rng. split; [done |]. split; [done |].
  apply derive_subsidiary_streams in Hsub0. rewrite Hrngs.
  destruct (isinstance (f_class f) CapitalFirm).
  - destruct Hsub0 as (rng1 & Hrng1 & ->).
    rewrite lookup_insert_eq in Hrng1. injection Hrng1 as <-.
    split.
    + rewrite lookup_insert_eq. unfold advance. cbn.
      by rewrite <- app_assoc.
    + intros k Hk. by rewrite !lookup_insert_ne.
  - rewrite Hsub0. split.
    + by rewrite lookup_insert_eq.
    + intros k Hk. by rewrite lookup_insert_ne.
Qed.

(** X9: [add_subsidiary] draws from the stream of the failed firm's type
    and from no other: that stream has made a uniform draw, followed by a
    Beta(2, 4) draw for a capital producer; every other stream, the
    adaptation stream among them, is as before. *)
Theorem subsidiary_streams (m m' : Model) (firm sub : nat) :
  add_subsidiary m firm = Ok (m', sub) →
  ∃ f rng,
    heap m !! firm = Some f
    ∧ RNGs m !! KClass (f_class f) = Some rng
    ∧ RNGs m' !! KClass (f_class f)
      = Some {| rng_seed := rng_seed rng;
                rng_history :=
                  rng_history rng
                  ++ if isinstance (f_class f) CapitalFirm
                     then [DrawUniform; DrawBeta 2 4] else [DrawUniform] |}
    ∧ (∀ k, k ≠ KClass (f_class f) → RNGs m' !! k = RNGs m !! k)
    ∧ RNGs m' !! KAdaptation = RNGs m !! KAdaptation.
Proof.
  intros H.
  destruct (add_subsidiary_streams _ _ _ _ H) as (f & rng & Hf & Hrng & Hk & Ho).
  exists f, rng. repeat (split; [done |]). by apply Ho.
Qed.

(** X10: for a capital producer whose region has
    [N_FIRMS[region][CapitalFirm] = 0], [add_subsidiary] raises
    [ZeroDivisionError] at line 211, once the lookups before it have
    succeeded. *)
Theorem capital_zero_count
    (m : Model) (firm : nat) (f : FirmObj) (rng : Generator) (gov : GovObj)
    (cap : Q) (best_cap : nat) (best : FirmObj) (by_type : list (AgentClass * nat)) :
  heap m !! firm = Some f →
  isinstance (f_class f) CapitalFirm = true →
  RNGs m !! KClass (f_class f) = Some rng →
  governments m !! region f = Some gov →
  capital_new_firm gov !! f_class f = Some cap →
  get_best_cap
    (set_RNGs (<[KClass (f_class f) := (uniform sample rng).2]> (RNGs m)) m)
    (region f) = Ok best_cap →
  heap m !! best_cap = Some best →
  is_Some (brochure best !! "prod") →
  N_FIRMS cfg !! region f = Some by_type →
  alist_lookup CapitalFirm by_type = Some 0%nat →
  add_subsidiary m firm = Raise ZeroDivisionError.
Proof.
  intros Hf Hcapital Hrng Hgov Hcap Hbc Hbest [p Hp] Hby Hn.
  unfold add_subsidiary, deref, getitem.
  rewrite Hf. cbn. rewrite Hrng. cbn. rewrite Hgov. cbn.
  rewrite Hcap. cbn. cbn in Hbc. rewrite Hbc. cbn.
  rewrite Hbest. cbn.
  unfold derive_subsidiary, getitem, alist_getitem. rewrite Hcapital.
  rewrite lookup_insert_eq. cbn. rewrite Hp. cbn. rewrite Hby. cbn.
  by rewrite Hn.
Qed.

(** X11: the order in which a malformed call of [add_subsidiary] fails:
    a type without a stream raises [KeyError] whatever else is missing;
    with a stream, a region without a government raises [AttributeError];
    with both, a type without a capital endowment raises [KeyError]. *)
Theorem lookup_order (m : Model) (firm : nat) (f : FirmObj) :
  heap m !! firm = Some f →
  (RNGs m !! KClass (f_class f) = None →
     add_subsidiary m firm = Raise KeyError)
  ∧ (is_Some (RNGs m !! KClass (f_class f)) →
     governments m !! region f = None →
     add_subsidiary m firm = Raise AttributeError)
  ∧ (is_Some (RNGs m !! KClass (f_class f)) →
     ∀ gov, governments m !! region f = Some gov →
       capital_new_firm gov !! f_class f = None →
       add_subsidiary m firm = Raise KeyError).
Proof.
  intros Hf. unfold add_subsidiary, deref, getitem. rewrite Hf. cbn.
  split; [| split].
  - intros ->. done.
  - intros [rng ->] Hgov. cbn. by rewrite Hgov.
  - intros [rng ->] gov Hgov Hcap. cbn. rewrite Hgov. cbn. by rewrite Hcap.
Qed.

End Subsidiary.

(** ** More on the drain *)

Lemma add_clients_app cs1 cs2 f :
  add_clients (cs1 ++ cs2) f = add_clients cs2 (add_clients cs1 f).
Proof. unfold add_clients. apply foldl_app. Qed.

Lemma add_clients_fields cs : ∀ f,
  clients (add_clients cs f) = clients f ++ cs
  ∧ supplier (add_clients cs f) = supplier f
  ∧ offers (add_clients cs f) = offers f
  ∧ brochure (add_clients cs f) = brochure f
  ∧ f_class (add_clients cs f) = f_class f
  ∧ region (add_clients cs f) = region f
  ∧ net_worth (add_clients cs f) = net_worth f.
Proof.
  induction cs as [|c cs IH]; intros f.
  - simpl. by rewrite app_nil_r.
  - change (add_clients (c :: cs) f) with (add_clients cs (add_client c f)).
    destruct (IH (add_client c f)) as (-> & -> & -> & -> & -> & -> & ->).
    cbn. by rewrite <- app_assoc.
Qed.

(** Links survive when objects only gain clients. *)
Lemma linked_grown (h h' : gmap nat FirmObj) y :
  (∀ x f, h !! x = Some f → ∃ cs, h' !! x = Some (add_clients cs f)) →
  linked h y → linked h' y.
Proof.
  intros Hgrown (f & s & fs & Hf & Hs & Hfs & Hoffers & Hy).
  destruct (Hgrown y f Hf) as (cs & Hf').
  destruct (Hgrown s fs Hfs) as (cs' & Hfs').
  destruct (add_clients_fields cs f) as (_ & Esup & Eoff & _).
  destruct (add_clients_fields cs' fs) as (Ecl & _ & _ & Ebro & _).
  exists (add_clients cs f), s, (add_clients cs' fs).
  rewrite Esup, Eoff, Ebro, Ecl.
  repeat (split; [done |]). apply elem_of_app. by left.
Qed.

Lemma alist_set_elem {V} c (v : V) d c' v' :
  (c', v') ∈ alist_set c v d → (c', v') ∈ d ∨ (c' = c ∧ v' = v).
Proof.
  induction d as [|[c0 v0] d IH]; simpl.
  - intros [[= -> ->] | H]%elem_of_cons; [by right | by apply elem_of_nil in H].
  - destruct (decide (c = c0)) as [->|Hne].
    + intros [[= -> ->] | H]%elem_of_cons; [by right | left; by right].
    + intros [[= -> ->] | H]%elem_of_cons; [left; left |].
      destruct (IH H) as [? | ?]; [left; by right | by right].
Qed.

(** A bucket replaced by a duplicate-free list of objects keeps the
    registry well formed. *)
Lemma registry_wf_set m m' r cls bucket b :
  registry_wf m →
  firms_bucket m r cls = Ok bucket →
  firms m' = <[r := alist_set cls b (default [] (firms m !! r))]> (firms m) →
  (∀ x, is_Some (heap m !! x) → is_Some (heap m' !! x)) →
  NoDup b → (∀ x, x ∈ b → is_Some (heap m' !! x)) →
  registry_wf m'.
Proof.
  intros Hwf Hb Hfirms Hheap Hnd Hlive r' by_type' cls' bucket' Hr' Hin.
  unfold firms_bucket in Hb.
  destruct (firms m !! r) as [by_type|] eqn:Hr; [|done].
  rewrite Hfirms in Hr'. destruct (decide (r' = r)) as [->|Hne].
  - rewrite lookup_insert_eq in Hr'. injection Hr' as <-.
    apply alist_set_elem in Hin as [Hin | [-> ->]]; [| done].
    destruct (Hwf r by_type cls' bucket' Hr Hin) as [Hnd' Hlive'].
    split; [done |]. intros x Hx. by apply Hheap, Hlive'.
  - rewrite lookup_insert_ne in Hr' by done.
    destruct (Hwf r' by_type' cls' bucket' Hr' Hin) as [Hnd' Hlive'].
    split; [done |]. intros x Hx. by apply Hheap, Hlive'.
Qed.

Section Drain.
Context (cfg : Config) (sample : Z → list Draw → Draw → Q)
        (get_best_cap : Model → nat → result nat)
        (class_defaults : AgentClass → FirmKwargs → FirmObj).

Local Abbreviation add_subsidiary :=
  (add_subsidiary cfg sample get_best_cap class_defaults).
Local Abbreviation drain_queue :=
  (drain_queue cfg sample get_best_cap class_defaults).
Local Abbreviation remove_region :=
  (remove_region cfg sample get_best_cap class_defaults).
Local Abbreviation remove_regions :=
  (remove_regions cfg sample get_best_cap class_defaults).
Local Abbreviation remove_bankrupt_firms :=
  (remove_bankrupt_firms cfg sample get_best_cap class_defaults).

Lemma remove_regions_queues regions : ∀ m m',
  remove_regions regions m = Ok m' →
  ∀ r, firms_to_remove m' !! r
       = if decide (r ∈ regions) then Some [] else firms_to_remove m !! r.
Proof.
  induction regions as [|r0 regions IH]; intros m m' H r; simpl in H.
  - injection H as <-. rewrite decide_False; [done | apply not_elem_of_nil].
  - apply bind_Ok in H as (m1 & Hreg & H).
    rewrite (IH _ _ H r).
    apply (remove_region_fields cfg sample get_best_cap class_defaults) in Hreg
      as (m0 & gov & Hdrain & _ & _ & Hq & _).
    apply (drain_queue_firms_to_remove cfg sample get_best_cap class_defaults)
      in Hdrain.
    destruct (decide (r ∈ regions)) as [Hin|Hnotin].
    + rewrite decide_True; [done | by right].
    + rewrite Hq, Hdrain. destruct (decide (r = r0)) as [->|Hne].
      * rewrite lookup_insert_eq, decide_True; [done | left].
      * rewrite lookup_insert_ne by done.
        rewrite decide_False; [done |].
        by intros [? | ?]%elem_of_cons.
Qed.

(** X12: when the drain of a step returns, the removal queue of every
    region of [REGIONS] is the empty list, and the queues filed under other
    keys are as they were. *)
Theorem queues_emptied (m m' : Model) :
  remove_bankrupt_firms m = Ok m' →
  (∀ r, (r < N_REGIONS cfg)%nat → firms_to_remove m' !! r = Some [])
  ∧ (∀ r, (N_REGIONS cfg ≤ r)%nat →
       firms_to_remove m' !! r = firms_to_remove m !! r).
Proof.
  intros H. split; intros r Hr;
    rewrite (remove_regions_queues _ _ _ H r).
  - rewrite decide_True; [done |]. apply elem_of_seq. lia.
  - rewrite decide_False; [done |]. unfold REGIONS. rewrite elem_of_seq. lia.
Qed.

Lemma remove_regions_quiet regions : ∀ m,
  (∀ r, r ∈ regions →
     default [] (firms_to_remove m !! r) = []
     ∧ is_Some (governments m !! r)) →
  ∃ m',
    remove_regions regions m = Ok m'
    ∧ firms m' = firms m ∧ heap m' = heap m ∧ RNGs m' = RNGs m
    ∧ schedule m' = schedule m
    ∧ ∀ r gov, governments m !! r = Some gov →
        governments m' !! r
        = Some (if decide (r ∈ regions)
                then set_new_firms_resources 0 (set_bailout_cost 0 gov)
                else gov).
Proof.
  induction regions as [|r0 regions IH]; intros m Hq.
  - exists m. repeat (split; [done |]). intros r gov Hgov.
    rewrite decide_False; [done | apply not_elem_of_nil].
  - destruct (Hq r0) as [Hempty [gov0 Hgov0]]; [left |].
    set (m1 := set_firms_to_remove (<[r0 := []]> (firms_to_remove m))
                 (set_governments
                    (<[r0 := set_new_firms_resources 0 (set_bailout_cost 0 gov0)]>
                       (governments m)) m)).
    assert (Hreg : remove_region r0 m = Ok m1).
    { unfold remove_region. rewrite Hempty.
      apply bind_Ok. exists m. split; [reflexivity |].
      apply bind_Ok.
      exists (set_governments
                (<[r0 := set_new_firms_resources 0 (set_bailout_cost 0 gov0)]>
                   (governments m)) m).
      split; [| reflexivity].
      unfold reset_counters. by rewrite Hgov0. }
    destruct (IH m1) as (m' & Hrest & Hfirms & Hheap & Hrngs & Hsch & Hgovs).
    { intros r Hr. destruct (Hq r) as [Hempty' [gov Hgov]]; [by right |].
      subst m1. cbn. split.
      - destruct (decide (r = r0)) as [->|Hne].
        + by rewrite lookup_insert_eq.
        + by rewrite lookup_insert_ne.
      - rewrite lookup_insert. by destruct (decide _). }
    exists m'. split; [simpl; by rewrite Hreg |].
    repeat (split; [done |]).
    intros r gov Hgov. destruct (decide (r = r0)) as [->|Hne].
    + rewrite Hgov0 in Hgov. injection Hgov as <-.
      rewrite decide_True by left.
      rewrite (Hgovs r0 (set_new_firms_resources 0 (set_bailout_cost 0 gov0)));
        [| subst m1; cbn; by rewrite lookup_insert_eq].
      by destruct (decide _).
    + rewrite (Hgovs r gov); [| subst m1; cbn; by rewrite lookup_insert_ne].
      destruct (decide (r ∈ regions)) as [Hin|Hnotin].
      * rewrite decide_True; [done | by right].
      * rewrite decide_False; [done |]. by intros [? | ?]%elem_of_cons.
Qed.

(** X13: a step without bankruptcies: when the queues of the regions are
    empty (and every region has its government), the drain returns and
    changes nothing but the counters of the governments, set to 0, and the
    queues, set to the empty list; no stream is drawn from, and the
    registry, the objects and the scheduler are as before. *)
Theorem no_bankruptcy (m : Model) :
  (∀ r, (r < N_REGIONS cfg)%nat →
     default [] (firms_to_remove m !! r) = []
     ∧ is_Some (governments m !! r)) →
  ∃ m',
    remove_bankrupt_firms m = Ok m'
    ∧ firms m' = firms m ∧ heap m' = heap m ∧ RNGs m' = RNGs m
    ∧ schedule m' = schedule m
    ∧ ∀ r gov, governments m !! r = Some gov →
        governments m' !! r
        = Some (if decide (r < N_REGIONS cfg)%nat
                then set_new_firms_resources 0 (set_bailout_cost 0 gov)
                else gov).
Proof.
  intros Hq.
  destruct (remove_regions_quiet (REGIONS cfg) m)
    as (m' & H & Hfirms & Hheap & Hrngs & Hsch & Hgovs).
  { intros r Hr. apply Hq. apply elem_of_seq in Hr. lia. }
  exists m'. repeat (split; [done |]).
  intros r gov Hgov. rewrite (Hgovs r gov Hgov).
  destruct (decide (r < N_REGIONS cfg)%nat) as [Hlt|Hge].
  - rewrite decide_True; [done |]. apply elem_of_seq. lia.
  - rewrite decide_False; [done |]. unfold REGIONS. rewrite elem_of_seq. lia.
Qed.

(** One exit and one entry, seen from the objects. *)
Lemma exit_entry_objects m x m1 m2 sub :
  remove_firm m x = Ok m1 →
  add_subsidiary m1 x = Ok (m2, sub) →
  heap m !! sub = None
  ∧ linked (heap m2) sub
  ∧ size (heap m2) = S (size (heap m))
  ∧ (∀ y, y ≠ sub → heap m !! y = None → heap m2 !! y = None)
  ∧ ∀ y f, heap m !! y = Some f →
      ∃ cs, heap m2 !! y = Some (add_clients cs f) ∧ (cs = [] ∨ cs = [sub]).
Proof.
  intros Hrem Hadd.
  apply remove_firm_inv in Hrem
    as (f & gov & bucket & bucket' & _ & _ & _ & _ & _ & _ & _ & _ & _ & _
        & _ & _ & _ & Hheap1).
  pose proof (add_subsidiary_fresh _ _ _ _ _ _ _ _ Hadd) as Hfresh.
  apply add_subsidiary_inv in Hadd
    as (f' & rng & gov1 & cap & best_cap & best & rngs' & sub0 & bucket1
        & _ & _ & _ & _ & _ & Hbest & _ & _ & _ & _ & _ & _ & _ & _ & _ & _
        & Hheap2).
  rewrite Hheap1 in Hfresh, Hbest.
  assert (Hne : best_cap ≠ sub) by (intros ->; congruence).
  rewrite Hheap2, Hheap1.
  split; [done |]. split; [| split; [| split]].
  - exists (set_supplier best_cap (brochure best) sub0), best_cap,
      (add_client sub best).
    split; [by rewrite lookup_insert_ne, lookup_insert_eq |].
    split; [done |]. split; [by rewrite lookup_insert_eq |].
    split; [done |]. cbn. apply elem_of_app. right. left.
  - rewrite map_size_insert_Some.
    + by apply map_size_insert_None.
    + rewrite lookup_insert_ne by done. by eexists.
  - intros y Hy Hnone. rewrite lookup_insert_ne by congruence.
    by rewrite lookup_insert_ne.
  - intros y fy Hy. destruct (decide (y = best_cap)) as [->|Hyb].
    + rewrite Hbest in Hy. injection Hy as <-.
      exists [sub]. rewrite lookup_insert_eq. split; [done | by right].
    + exists []. rewrite lookup_insert_ne by done.
      rewrite lookup_insert_ne by congruence. split; [done | by left].
Qed.

Lemma drain_queue_objects queue : ∀ m m',
  drain_queue queue m = Ok m' →
  size (heap m') = (size (heap m) + length queue)%nat
  ∧ (∀ y, heap m !! y = None → is_Some (heap m' !! y) → linked (heap m') y)
  ∧ ∀ y f, heap m !! y = Some f →
      ∃ cs, heap m' !! y = Some (add_clients cs f)
            ∧ ∀ c, c ∈ cs → heap m !! c = None.
Proof.
  induction queue as [|x queue IH]; intros m m' H; simpl in H.
  - injection H as <-. split; [simpl; lia |]. split.
    + intros y -> [? ?]. done.
    + intros y f Hy. exists []. split; [done |].
      intros c Hc. by apply elem_of_nil in Hc.
  - apply bind_Ok in H as (m1 & Hrem & H).
    apply bind_Ok in H as ([m2 sub] & Hadd & H).
    destruct (exit_entry_objects _ _ _ _ _ Hrem Hadd)
      as (Hfresh & Hlinked & Hsize & Hnone & Hgrown).
    destruct (IH _ _ H) as (Hsize' & Hnew' & Hgrown').
    split; [simpl; lia |]. split.
    + intros y Hy Hsome. destruct (decide (y = sub)) as [->|Hne].
      * apply (linked_grown (heap m2)); [| done].
        intros z fz Hz. destruct (Hgrown' z fz Hz) as (cs & Hcs & _).
        by exists cs.
      * apply Hnew'; [by apply Hnone | done].
    + intros y f Hy.
      destruct (Hgrown y f Hy) as (cs1 & Hy2 & Hcs1).
      destruct (Hgrown' y _ Hy2) as (cs2 & Hy' & Hcs2).
      exists (cs1 ++ cs2). rewrite add_clients_app. split; [done |].
      intros c [Hc | Hc]%elem_of_app.
      * destruct Hcs1 as [-> | ->]; [by apply elem_of_nil in Hc |].
        apply list_elem_of_singleton in Hc. by subst c.
      * destruct (heap m !! c) as [fc|] eqn:Hfc; [| done].
        destruct (Hgrown c fc Hfc) as (cs & Hc2 & _).
        rewrite (Hcs2 c Hc) in Hc2. done.
Qed.

(** X14: while a queue is drained no object of the model is destroyed or
    rewritten: every object is afterwards what it was, but for new
    subsidiaries appended to its list of clients (the removed firms stay
    objects, and stay in the client lists that mention them); and the model
    holds exactly one more object per queued firm. *)
Theorem drain_objects (queue : list nat) (m m' : Model) :
  drain_queue queue m = Ok m' →
  size (heap m') = (size (heap m) + length queue)%nat
  ∧ ∀ y f, heap m !! y = Some f →
      ∃ cs f',
        heap m' !! y = Some f'
        ∧ f' = add_clients cs f
        ∧ clients f' = clients f ++ cs
        ∧ supplier f' = supplier f ∧ offers f' = offers f
        ∧ brochure f' = brochure f ∧ net_worth f' = net_worth f
        ∧ f_class f' = f_class f ∧ region f' = region f
        ∧ ∀ c, c ∈ cs → heap m !! c = None.
Proof.
  intros H. destruct (drain_queue_objects _ _ _ H) as (Hsize & _ & Hgrown).
  split; [done |]. intros y f Hy.
  destruct (Hgrown y f Hy) as (cs & Hy' & Hnew).
  destruct (add_clients_fields cs f) as (? & ? & ? & ? & ? & ? & ?).
  exists cs, (add_clients cs f). auto 12.
Qed.

(** X15: the supplier links survive the drain: a firm that had a supplier
    listing it as a client, with that supplier's brochure as its one offer,
    still has; and every object the drain created is linked in this way. *)
Theorem drain_links (queue : list nat) (m m' : Model) :
  drain_queue queue m = Ok m' →
  (∀ y, linked (heap m) y → linked (heap m') y)
  ∧ (∀ y, heap m !! y = None → is_Some (heap m' !! y) → linked (heap m') y).
Proof.
  intros H. destruct (drain_queue_objects _ _ _ H) as (_ & Hnew & Hgrown).
  split; [| done].
  intros y. apply linked_grown.
  intros z fz Hz. destruct (Hgrown z fz Hz) as (cs & Hcs & _). by exists cs.
Qed.

Lemma exit_entry_registry m x m1 m2 sub :
  remove_firm m x = Ok m1 →
  add_subsidiary m1 x = Ok (m2, sub) →
  registry_wf m → registry_wf m2.
Proof.
  intros Hrem Hadd Hwf.
  pose proof (exit_entry_objects _ _ _ _ _ Hrem Hadd)
    as (Hfresh & (sub_obj & _ & _ & Hsub & _) & _ & _ & Hgrown).
  pose proof (remove_firm_inv _ _ _ Hrem)
    as (f & gov & bucket & bucket' & Hf & _ & Hb & Hb' & _ & _ & _ & Hfirms1
        & _ & _ & _ & _ & _ & Hheap1).
  pose proof (add_subsidiary_inv _ _ _ _ _ _ _ _ Hadd)
    as (f' & rng & gov1 & cap & best_cap & best & rngs' & sub0 & bucket1
        & Hf' & _ & _ & _ & _ & _ & _ & _ & Hb1 & _ & _ & Hfirms2 & _).
  rewrite Hheap1, Hf in Hf'. injection Hf' as <-.
  assert (Hbucket : NoDup bucket ∧ ∀ y, y ∈ bucket → is_Some (heap m !! y)).
  { unfold firms_bucket in Hb.
    destruct (firms m !! region f) as [by_type|] eqn:Hr; [|done].
    apply alist_getitem_Ok, alist_lookup_elem in Hb.
    exact (Hwf _ _ _ _ Hr Hb). }
  destruct Hbucket as [Hnd Hlive].
  destruct (list_remove_NoDup _ _ _ Hb' Hnd) as (Hnd' & _ & Hsub').
  assert (Hwf1 : registry_wf m1).
  { apply (registry_wf_set m m1 _ _ _ _ Hwf Hb Hfirms1); [| done |].
    - intros y. by rewrite Hheap1.
    - intros y Hy. rewrite Hheap1. by apply Hlive, Hsub'. }
  assert (bucket1 = bucket') as ->.
  { rewrite (bucket_after_set m m1 _ _ _ _ Hb Hfirms1) in Hb1.
    rewrite decide_True in Hb1 by done. by injection Hb1. }
  assert (Hkept : ∀ y, is_Some (heap m1 !! y) → is_Some (heap m2 !! y)).
  { intros y [fy Hy]. rewrite Hheap1 in Hy.
    destruct (Hgrown y fy Hy) as (cs & -> & _). by eexists. }
  apply (registry_wf_set m1 m2 _ _ _ _ Hwf1 Hb1 Hfirms2 Hkept).
  - apply NoDup_app. split; [done |]. split; [| apply NoDup_singleton].
    intros y Hy ->%list_elem_of_singleton.
    destruct (Hlive sub (Hsub' sub Hy)) as [f0 Hf0]. congruence.
  - intros y [Hy | ->%list_elem_of_singleton]%elem_of_app.
    + apply Hkept. rewrite Hheap1. by apply Hlive, Hsub'.
    + by eexists.
Qed.

Lemma drain_queue_registry queue : ∀ m m',
  drain_queue queue m = Ok m' → registry_wf m → registry_wf m'.
Proof.
  induction queue as [|x queue IH]; intros m m' H Hwf; simpl in H.
  - by injection H as <-.
  - apply bind_Ok in H as (m1 & Hrem & H).
    apply bind_Ok in H as ([m2 sub] & Hadd & H).
    apply (IH _ _ H). by apply (exit_entry_registry _ _ _ _ _ Hrem Hadd).
Qed.

Lemma remove_regions_registry regions : ∀ m m',
  remove_regions regions m = Ok m' → registry_wf m → registry_wf m'.
Proof.
  induction regions as [|r regions IH]; intros m m' H Hwf; simpl in H.
  - by injection H as <-.
  - apply bind_Ok in H as (m1 & Hreg & H). apply (IH _ _ H).
    apply (remove_region_fields cfg sample get_best_cap class_defaults) in Hreg
      as (m0 & gov & Hdrain & _ & _ & _ & Hfirms & Hheap & _).
    pose proof (drain_queue_registry _ _ _ Hdrain Hwf) as Hwf0.
    intros r' by_type cls bucket. rewrite Hfirms, Hheap. apply Hwf0.
Qed.

(** X16: a registry whose buckets list objects of the model, none of them
    twice, is still one after the drain of a step. *)
Theorem registry_stays_wf (m m' : Model) :
  registry_wf m → remove_bankrupt_firms m = Ok m' → registry_wf m'.
Proof. intros Hwf H. exact (remove_regions_registry _ _ _ H Hwf). Qed.

Lemma drain_queue_streams queue k : ∀ m m',
  drain_queue queue m = Ok m' →
  (∀ x, x ∈ queue → ∃ f, heap m !! x = Some f ∧ KClass (f_class f) ≠ k) →
  RNGs m' !! k = RNGs m !! k.
Proof.
  induction queue as [|x queue IH]; intros m m' H Hq; simpl in H.
  - by injection H as <-.
  - apply bind_Ok in H as (m1 & Hrem & H).
    apply bind_Ok in H as ([m2 sub] & Hadd & H).
    pose proof (exit_entry_objects _ _ _ _ _ Hrem Hadd)
      as (_ & _ & _ & _ & Hgrown).
    rewrite (IH _ _ H).
    + apply remove_firm_inv in Hrem
        as (f0 & gov & bucket & bucket' & _ & _ & _ & _ & _ & Hrngs1 & _ & _
            & _ & _ & _ & _ & _ & Hheap1).
      destruct (add_subsidiary_streams _ _ _ _ _ _ _ _ Hadd)
        as (f & rng & Hf & _ & _ & Hother).
      destruct (Hq x) as (fx & Hfx & Hne); [left |].
      rewrite Hheap1, Hfx in Hf. injection Hf as <-.
      by rewrite (Hother k), Hrngs1.
    + intros y Hy. destruct (Hq y) as (fy & Hfy & Hne); [by right |].
      destruct (Hgrown y fy Hfy) as (cs & Hy2 & _).
      exists (add_clients cs fy). split; [done |].
      by destruct (add_clients_fields cs fy) as (_ & _ & _ & _ & -> & _).
Qed.

(** X17: the drain of a queue draws only from the streams of the classes
    of the queued firms: a stream under any other key, the adaptation
    stream for one, is afterwards as it was. *)
Theorem drain_streams (queue : list nat) (m m' : Model) :
  drain_queue queue m = Ok m' →
  queued_firms (heap m) queue →
  (∀ k,
     (∀ x f, x ∈ queue → heap m !! x = Some f → KClass (f_class f) ≠ k) →
     RNGs m' !! k = RNGs m !! k)
  ∧ RNGs m' !! KAdaptation = RNGs m !! KAdaptation.
Proof.
  intros H Hq.
  assert (Hgen : ∀ k,
     (∀ x f, x ∈ queue → heap m !! x = Some f → KClass (f_class f) ≠ k) →
     RNGs m' !! k = RNGs m !! k).
  { intros k Hk. apply (drain_queue_streams _ _ _ _ H).
    intros x Hx. destruct (Hq x Hx) as [f Hf]. exists f.
    split; [done |]. by apply (Hk x f). }
  split; [exact Hgen |]. by apply Hgen.
Qed.

End Drain.

(** ** More on the streams *)

Lemma init_RNGs_lookup cfg s types rngs :
  agent_types cfg = Ok types → NoDup types →
  init_RNGs cfg s = Ok rngs →
  (∀ i c, types !! i = Some c →
     rngs !! KClass c = Some (seeded (s + Z.of_nat i)))
  ∧ rngs !! KAdaptation = Some (seeded (s + Z.of_nat (length types)))
  ∧ ∀ c, c ∉ types → rngs !! KClass c = None.
Proof.
  intros Htypes Hnd H. unfold init_RNGs in H. rewrite Htypes in H.
  cbn [mbind result_bind] in H.
  apply bind_Ok in H as (rngs0 & Hseed & H).
  apply bind_Ok in H as (g & [_ ->]%default_rng_inv & H).
  injection H as <-. split; [| split].
  - intros i c Hi. rewrite lookup_insert_ne by done.
    by destruct (seed_streams_lookup s types 0 ∅ _ i c Hseed Hnd Hi).
  - rewrite lookup_insert_eq. unfold seeded. do 2 f_equal. lia.
  - intros c Hc. rewrite lookup_insert_ne by done.
    rewrite (seed_streams_other _ _ _ _ _ (KClass c) Hseed); [done |].
    by intros c' [= <-].
Qed.

(** X18: no two keys of [self.RNGs] share a seed: the streams of two
    different agent types have different seeds, the adaptation stream has a
    seed of its own, and only the agent types and ["Adaptation"] have a
    stream. *)
Theorem streams_distinct
    (cfg : Config) (s : Z) (types : list AgentClass)
    (rngs : gmap RngKey Generator) :
  agent_types cfg = Ok types → NoDup types →
  init_RNGs cfg s = Ok rngs →
  (∀ c1 c2, c1 ∈ types → c2 ∈ types → c1 ≠ c2 →
     is_Some (stream_seed rngs (KClass c1))
     ∧ stream_seed rngs (KClass c1) ≠ stream_seed rngs (KClass c2))
  ∧ (∀ c, c ∈ types →
       stream_seed rngs (KClass c) ≠ stream_seed rngs KAdaptation)
  ∧ (∀ c, c ∉ types → rngs !! KClass c = None).
Proof.
  intros Htypes Hnd Hinit.
  destruct (init_RNGs_lookup cfg s types rngs Htypes Hnd Hinit)
    as (Hcls & Hadapt & Hnone).
  unfold stream_seed. split; [| split; [| done]].
  - intros c1 c2 [i1 Hi1]%list_elem_of_lookup [i2 Hi2]%list_elem_of_lookup Hne.
    rewrite (Hcls i1 c1 Hi1), (Hcls i2 c2 Hi2). simpl.
    split; [by eexists |]. intros [= E].
    assert (i1 = i2) as -> by lia. congruence.
  - intros c [i Hi]%list_elem_of_lookup.
    rewrite (Hcls i c Hi), Hadapt. simpl. intros [= E].
    apply lookup_lt_Some in Hi. lia.
Qed.

(** X19: base seeds that differ by one share streams: under the base seed
    [s + 1] every agent type but the last has the generator that the next
    agent type has under [s], and the last agent type has the generator that
    the adaptation process has under [s]. *)
Theorem seed_shift
    (cfg : Config) (s : Z) (types : list AgentClass)
    (rngs rngs' : gmap RngKey Generator) :
  agent_types cfg = Ok types → NoDup types →
  init_RNGs cfg s = Ok rngs →
  init_RNGs cfg (s + 1) = Ok rngs' →
  (∀ i c c', types !! i = Some c → types !! S i = Some c' →
     rngs' !! KClass c = rngs !! KClass c')
  ∧ (∀ c, last types = Some c → rngs' !! KClass c = rngs !! KAdaptation).
Proof.
  intros Htypes Hnd Hinit Hinit'.
  destruct (init_RNGs_lookup cfg s types rngs Htypes Hnd Hinit)
    as (Hcls & Hadapt & _).
  destruct (init_RNGs_lookup cfg (s + 1) types rngs' Htypes Hnd Hinit')
    as (Hcls' & _).
  split.
  - intros i c c' Hi Hi'.
    rewrite (Hcls' i c Hi), (Hcls (S i) c' Hi'). do 2 f_equal. lia.
  - intros c Hlast. rewrite last_lookup in Hlast.
    rewrite (Hcls' _ c Hlast), Hadapt. do 2 f_equal.
    apply lookup_lt_Some in Hlast. lia.
Qed.

(** ** Flood-depth columns *)

Lemma digit_not_stripped c :
  char_in c "0123456789" = true → char_in c "Flood depth RP" = false.
Proof.
  intros H. simpl in H. revert H.
  repeat match goal with
         | |- context [Ascii.eqb c ?d] =>
             destruct (Ascii.eqb_spec c d) as [-> | _]; [reflexivity |]
         end.
  discriminate.
Qed.

Lemma py_lstrip_prefix chars p s :
  (∀ c, c ∈ String.list_ascii_of_string p → char_in c chars = true) →
  py_lstrip chars (String.append p s) = py_lstrip chars s.
Proof.
  induction p as [|c p IH]; intros Hp; [done |].
  change (String.append (String c p) s) with (String c (String.append p s)).
  simpl. rewrite (Hp c); [| left].
  apply IH. intros c' Hc'. apply Hp. by right.
Qed.

Lemma py_lstrip_all chars s :
  (∀ c, c ∈ String.list_ascii_of_string s → char_in c chars = true) →
  py_lstrip chars s = EmptyString.
Proof.
  induction s as [|c s IH]; intros Hs; [done |].
  simpl. rewrite (Hs c); [| left].
  apply IH. intros c' Hc'. apply Hs. by right.
Qed.

Lemma py_lstrip_split chars s :
  ∃ p,
    s = String.append p (py_lstrip chars s)
    ∧ (∀ c, c ∈ String.list_ascii_of_string p → char_in c chars = true)
    ∧ (py_lstrip chars s = EmptyString
       ∨ ∃ c rest, py_lstrip chars s = String c rest
                   ∧ char_in c chars = false).
Proof.
  induction s as [|c s IH].
  - exists EmptyString. split; [done |]. split; [| by left].
    intros c Hc. by apply elem_of_nil in Hc.
  - simpl. destruct (char_in c chars) eqn:Ec.
    + destruct IH as (p & Hp & Hin & Hrest).
      exists (String c p). split; [rewrite Hp at 1; reflexivity |].
      split; [| done].
      intros c' [-> | Hc']%elem_of_cons; [done | by apply Hin].
    + exists EmptyString. split; [done |]. split.
      * intros c' Hc'. by apply elem_of_nil in Hc'.
      * right. by exists c, s.
Qed.

Lemma py_lstrip_head chars c s :
  char_in c chars = false → py_lstrip chars (String c s) = String c s.
Proof. intros H. simpl. by rewrite H. Qed.

(** X20: [RP.lstrip("Flood depth RP")] drops the longest run of leading
    characters that occur in ["Flood depth RP"], whatever their order: the
    result is empty or starts with a character outside that set.  A column
    named ["Flood depth RP"] followed by decimal digits gives exactly the
    digits, and a name made of characters of the set only gives the empty
    string. *)
Theorem return_period_text_spec (RP : string) :
  (∃ p,
     RP = String.append p (return_period_text RP)
     ∧ (∀ c, c ∈ String.list_ascii_of_string p → char_in c "Flood depth RP" = true)
     ∧ (return_period_text RP = EmptyString
        ∨ ∃ c rest, return_period_text RP = String c rest
                    ∧ char_in c "Flood depth RP" = false))
  ∧ (∀ digits,
       all_digits digits = true →
       return_period_text (String.append "Flood depth RP" digits) = digits)
  ∧ ((∀ c, c ∈ String.list_ascii_of_string RP → char_in c "Flood depth RP" = true) →
     return_period_text RP = EmptyString).
Proof.
  unfold return_period_text. split; [| split].
  - apply py_lstrip_split.
  - intros digits Hd. rewrite py_lstrip_prefix.
    + destruct digits as [|c rest]; [done |].
      cbn [all_digits] in Hd. apply andb_true_iff in Hd as [Hc _].
      apply py_lstrip_head. by apply digit_not_stripped.
    + intros c Hc. simpl in Hc.
      repeat (apply elem_of_cons in Hc as [-> | Hc]; [reflexivity |]).
      by apply elem_of_nil in Hc.
  - apply py_lstrip_all.
Qed.

(** ** Connecting the capital firms to their suppliers *)

Section Connect.
Context (choice : Generator → list nat → result (nat * Generator)).

Local Abbreviation connect_supplier := (connect_supplier choice).
Local Abbreviation connect_firms := (connect_firms choice).

Lemma connect_supplier_inv cap_firms m firm m1 :
  connect_supplier cap_firms m firm = Ok m1 →
  ∃ f rng s rng' fs,
    heap m !! firm = Some f
    ∧ RNGs m !! KClass (f_class f) = Some rng
    ∧ choice rng cap_firms = Ok (s, rng')
    ∧ heap m !! s = Some fs
    ∧ heap m1
      = <[s := add_client firm
                 (if decide (s = firm)
                  then set_supplier s (brochure fs) f else fs)]>
          (<[firm := set_supplier s (brochure fs) f]> (heap m))
    ∧ RNGs m1 = <[KClass (f_class f) := rng']> (RNGs m)
    ∧ firms m1 = firms m ∧ governments m1 = governments m
    ∧ schedule m1 = schedule m.
Proof.
  unfold connect_supplier. intros H.
  apply bind_Ok in H as (f & Hf%deref_Ok & H).
  apply bind_Ok in H as (rng & Hrng%getitem_Ok & H).
  apply bind_Ok in H as ([s rng'] & Hchoice & H).
  apply bind_Ok in H as (fs & Hfs%deref_Ok & H).
  apply bind_Ok in H as (fs' & Hfs'%deref_Ok & H).
  injection H as <-. cbn in Hfs, Hfs'.
  exists f, rng, s, rng', fs. repeat (split; [done |]).
  split; [| done]. cbn. destruct (decide (s = firm)) as [->|Hne].
  - rewrite lookup_insert_eq in Hfs'. by injection Hfs' as <-.
  - rewrite lookup_insert_ne in Hfs' by done.
    rewrite Hfs in Hfs'. by injection Hfs' as <-.
Qed.

(** One pass of the loop: the firm is linked to the supplier drawn, and
    every object keeps its brochure and its clients, and, but for the firm,
    its supplier and offers. *)
Lemma connect_supplier_step cap_firms m firm m1 :
  (∀ g l x g', choice g l = Ok (x, g') → x ∈ l) →
  connect_supplier cap_firms m firm = Ok m1 →
  (∃ f s, heap m1 !! firm = Some f ∧ supplier f = Some s ∧ s ∈ cap_firms)
  ∧ linked (heap m1) firm
  ∧ firms m1 = firms m
  ∧ ∀ z fz, heap m !! z = Some fz →
      ∃ fz', heap m1 !! z = Some fz'
             ∧ brochure fz' = brochure fz
             ∧ (∀ c, c ∈ clients fz → c ∈ clients fz')
             ∧ (z ≠ firm → supplier fz' = supplier fz ∧ offers fz' = offers fz).
Proof.
  intros Hchoice H.
  apply connect_supplier_inv in H
    as (f & rng & s & rng' & fs & Hf & _ & Hdraw & Hfs & Hheap & _ & Hfirms & _).
  apply Hchoice in Hdraw. rewrite Hheap.
  split; [| split; [| split; [done |]]].
  - destruct (decide (s = firm)) as [->|Hne].
    + eexists _, firm. rewrite lookup_insert_eq. by split.
    + eexists _, s. rewrite lookup_insert_ne, lookup_insert_eq by done.
      by split.
  - destruct (decide (s = firm)) as [->|Hne].
    + rewrite Hf in Hfs. injection Hfs as <-.
      eexists _, firm, _. rewrite lookup_insert_eq.
      split; [done |]. split; [done |]. split; [done |].
      split; [done |]. cbn. apply elem_of_app. right. left.
    + eexists _, s, _. rewrite lookup_insert_ne, !lookup_insert_eq by done.
      split; [done |]. split; [done |]. split; [done |].
      split; [done |]. cbn. apply elem_of_app. right. left.
  - intros z fz Hz. destruct (decide (z = s)) as [->|Hzs].
    + rewrite lookup_insert_eq. rewrite Hfs in Hz. injection Hz as <-.
      eexists. split; [done |].
      destruct (decide (s = firm)) as [->|Hne]; cbn.
      * rewrite Hf in Hfs. injection Hfs as <-.
        split; [done |]. split; [| done].
        intros c Hc. apply elem_of_app. by left.
      * split; [done |]. split; [| done].
        intros c Hc. apply elem_of_app. by left.
    + rewrite lookup_insert_ne by done.
      destruct (decide (z = firm)) as [->|Hzf].
      * rewrite lookup_insert_eq. rewrite Hf in Hz. injection Hz as <-.
        eexists. split; [done |]. cbn.
        assert (Hbro : brochure f = brochure f) by done. done.
      * rewrite lookup_insert_ne by done. by exists fz.
Qed.

Lemma connect_firms_linked cap_firms todo : ∀ m m',
  (∀ g l x g', choice g l = Ok (x, g') → x ∈ l) →
  NoDup todo →
  connect_firms cap_firms todo m = Ok m' →
  (∀ x, x ∈ todo →
     linked (heap m') x
     ∧ ∃ f s, heap m' !! x = Some f ∧ supplier f = Some s ∧ s ∈ cap_firms)
  ∧ firms m' = firms m
  ∧ ∀ z fz, heap m !! z = Some fz →
      ∃ fz', heap m' !! z = Some fz'
             ∧ brochure fz' = brochure fz
             ∧ (∀ c, c ∈ clients fz → c ∈ clients fz')
             ∧ (z ∉ todo → supplier fz' = supplier fz ∧ offers fz' = offers fz).
Proof.
  induction todo as [|firm todo IH]; intros m m' Hchoice Hnd H; simpl in H.
  - injection H as <-. split; [| split; [done |]].
    + intros x Hx. by apply elem_of_nil in Hx.
    + intros z fz Hz. by exists fz.
  - apply bind_Ok in H as (m1 & Hstep & H).
    apply NoDup_cons in Hnd as [Hnotin Hnd].
    destruct (connect_supplier_step _ _ _ _ Hchoice Hstep)
      as ((f & s & Hf & Hs & Hin) & Hlinked & Hfirms1 & Hkept1).
    destruct (IH _ _ Hchoice Hnd H) as (Hall & Hfirms & Hkept).
    split; [| split; [congruence |]].
    + intros x [-> | Hx]%elem_of_cons; [| by apply Hall].
      destruct (Hkept firm f Hf) as (f' & Hf' & _ & _ & Hsame).
      destruct (Hsame Hnotin) as [Hsup _].
      split; [| exists f', s; by rewrite Hsup].
      destruct Hlinked as (f0 & s0 & fs0 & Hf0 & Hs0 & Hfs0 & Hoff & Hcl).
      rewrite Hf in Hf0. injection Hf0 as <-.
      destruct (Hkept s0 fs0 Hfs0) as (fs' & Hfs' & Hbro & Hcls & _).
      destruct (Hsame Hnotin) as [Hsup' Hoff'].
      exists f', s0, fs'. rewrite Hsup', Hoff', Hbro.
      repeat (split; [done |]). by apply Hcls.
    + intros z fz Hz.
      destruct (Hkept1 z fz Hz) as (fz1 & Hz1 & Hbro1 & Hcl1 & Hsame1).
      destruct (Hkept z fz1 Hz1) as (fz' & Hz' & Hbro & Hcl & Hsame).
      exists fz'. split; [done |]. split; [congruence |].
      split; [intros c Hc; by apply Hcl, Hcl1 |].
      intros [Hne Hz0]%not_elem_of_cons.
      destruct (Hsame1 Hne) as [E1 E2]. destruct (Hsame Hz0) as [E3 E4].
      split; congruence.
Qed.

(** X21: after the loop of [__init__] over the capital firms of a region,
    every one of them has a supplier drawn from those firms (possibly
    itself), holds that supplier's brochure as its single offer and is
    listed among that supplier's clients; the registry is untouched and the
    links of the other firms are kept. *)
Theorem suppliers_connected (cap_firms : list nat) (m m' : Model) :
  (∀ g l x g', choice g l = Ok (x, g') → x ∈ l) →
  NoDup cap_firms →
  connect_firms cap_firms cap_firms m = Ok m' →
  (∀ x, x ∈ cap_firms →
     linked (heap m') x
     ∧ ∃ f s, heap m' !! x = Some f ∧ supplier f = Some s ∧ s ∈ cap_firms)
  ∧ firms m' = firms m
  ∧ (∀ y, y ∉ cap_firms → linked (heap m) y → linked (heap m') y).
Proof.
  intros Hchoice Hnd H.
  destruct (connect_firms_linked _ _ _ _ Hchoice Hnd H)
    as (Hall & Hfirms & Hkept).
  split; [done |]. split; [done |].
  intros y Hy (f & s & fs & Hf & Hs & Hfs & Hoff & Hcl).
  destruct (Hkept y f Hf) as (f' & Hf' & _ & _ & Hsame).
  destruct (Hsame Hy) as [Hsup Hoff'].
  destruct (Hkept s fs Hfs) as (fs' & Hfs' & Hbro & Hcls & _).
  exists f', s, fs'. rewrite Hsup, Hoff', Hbro.
  repeat (split; [done |]). by apply Hcls.
Qed.

End Connect.

(** ** More scenarios, run *)

Import Cases.

Lemma scenario_hire :
  add_firm hire bankrupt_producer CapitalFirm 0 30%Q = Ok (after_hire, 10%nat).
Proof. vm_compute. reflexivity. Defined.

Lemma scenario_queue :
  drain_queue two_producers fixed_sample second_is_best plain_defaults
    [1%nat] bankrupt_producer = Ok after_entry.
Proof. vm_compute. reflexivity. Defined.

Lemma scenario_service :
  add_subsidiary two_producers fixed_sample second_is_best plain_defaults
    failed_service 3 = Ok (service_entry, 4%nat).
Proof. vm_compute. reflexivity. Defined.

Lemma scenario_connect :
  connect_firms first_choice [1%nat; 2%nat] [1%nat; 2%nat] unconnected
  = Ok connected.
Proof. vm_compute. reflexivity. Defined.

Lemma first_choice_elem g l x g' : first_choice g l = Ok (x, g') → x ∈ l.
Proof. destruct l as [|y l]; [done |]. intros [= <- _]. left. Defined.

Lemma scenario_producers_NoDup : NoDup [1%nat; 2%nat].
Proof. apply (bool_decide_unpack _). vm_compute. exact I. Defined.

Lemma scenario_registry_wf : registry_wf bankrupt_producer.
Proof.
  intros r by_type cls bucket Hr Hin.
  change (firms bankrupt_producer)
    with ({[ 0%nat := [(CapitalFirm, [1%nat; 2%nat])] ]}
          : gmap nat (list (AgentClass * list nat))) in Hr.
  apply lookup_singleton_Some in Hr as [<- <-].
  apply list_elem_of_singleton in Hin. injection Hin as -> ->.
  split; [exact scenario_producers_NoDup |].
  intros x [-> | [-> | Hx]%elem_of_cons]%elem_of_cons.
  - by eexists.
  - by eexists.
  - by apply elem_of_nil in Hx.
Defined.

(** With the three buckets of [__init__], [get_firms] is the capital firms
    1 and 2 followed by the consumption firms 3, 4 and 5. *)
Lemma getters_agree_witness :
  get_firms three_buckets 0 (@None string)
  = Ok [1%nat; 2%nat; 3%nat; 4%nat; 5%nat]
  ∧ get_cons_firms three_buckets 0 = Ok [3%nat; 4%nat; 5%nat]
  ∧ [3%nat; 4%nat; 5%nat] ⊆ [1%nat; 2%nat; 3%nat; 4%nat; 5%nat]
  ∧ length [1%nat; 2%nat; 3%nat; 4%nat; 5%nat]
    = sum_list (n_firms three_buckets 0
                  <$> [CapitalFirm; ConsumptionGoodFirm; ServiceFirm]).
Proof.
  assert (H : get_firms three_buckets 0 (@None string)
              = Ok [1%nat; 2%nat; 3%nat; 4%nat; 5%nat]) by reflexivity.
  destruct (getters_agree three_buckets 0 None _ H)
    as (_ & Hcons & Hshape & Hlen).
  destruct (Hshape [1%nat; 2%nat] [3%nat] [4%nat; 5%nat] eq_refl) as [Hc _].
  split; [exact H |]. split; [exact Hc |]. split; [exact (Hcons _ Hc) |].
  apply (Hlen _ eq_refl). apply (bool_decide_unpack _). vm_compute. exact I.
Defined.

(** The scenario has no region 7, and no goods or service bucket in
    region 0. *)
Lemma getters_missing_witness :
  firms bankrupt_producer !! 7%nat = None
  ∧ firms bankrupt_producer !! 0%nat = Some [(CapitalFirm, [1%nat; 2%nat])]
  ∧ get_firms bankrupt_producer 7 (@None string) = Raise AttributeError
  ∧ get_cons_firms bankrupt_producer 7 = Raise TypeError
  ∧ get_firms_by_type bankrupt_producer ServiceFirm 0 = Raise KeyError
  ∧ get_cons_firms bankrupt_producer 0 = Raise KeyError.
Proof.
  destruct (getters_missing bankrupt_producer 7 (@None string)) as [Hnone _].
  destruct (getters_missing bankrupt_producer 0 (@None string)) as [_ Hsome].
  destruct (Hnone eq_refl) as (Hall & _ & Hcons).
  destruct (Hsome _ eq_refl) as (_ & Htype & Hcons0).
  do 2 (split; [reflexivity |]).
  split; [exact Hall |]. split; [exact Hcons |].
  split; [exact (proj2 (Htype ServiceFirm) eq_refl) |].
  exact (proj2 Hcons0 (or_introl eq_refl)).
Defined.

(** A capital producer added to the scenario is the third of its bucket; a
    service firm has no bucket there, and region 7 no firm dictionary. *)
Lemma add_firm_registers_witness :
  firms_bucket bankrupt_producer 0 CapitalFirm = Ok [1%nat; 2%nat]
  ∧ (∃ m' new,
       add_firm hire bankrupt_producer CapitalFirm 0 30%Q = Ok (m', new)
       ∧ heap bankrupt_producer !! new = None
       ∧ get_firms_by_type m' CapitalFirm 0 = Ok [1%nat; 2%nat; new]
       ∧ n_firms m' 0 CapitalFirm = 3%nat)
  ∧ add_firm hire bankrupt_producer CapitalFirm 7 30%Q = Raise TypeError
  ∧ add_firm hire bankrupt_producer ServiceFirm 0 30%Q = Raise KeyError.
Proof.
  split; [reflexivity |]. split; [| split].
  - destruct (proj1 (add_firm_registers hire bankrupt_producer CapitalFirm 0
                       30%Q) [1%nat; 2%nat] eq_refl)
      as (m' & new & Hadd & Hfresh & _ & _ & Hbucket & _ & Hn & _).
    exists m', new. split; [exact Hadd |]. split; [exact Hfresh |].
    split; [exact Hbucket | exact Hn].
  - exact (proj1 (proj2 (add_firm_registers hire bankrupt_producer CapitalFirm
                           7 30%Q)) eq_refl).
  - exact (proj2 (proj2 (add_firm_registers hire bankrupt_producer ServiceFirm
                           0 30%Q)) _ eq_refl eq_refl).
Defined.

(** A producer of net worth 30 hired into the scenario and removed again:
    the registry is the one before, the bailout cost is 30. *)
Lemma add_then_remove_witness :
  add_firm hire bankrupt_producer CapitalFirm 0 30%Q = Ok (after_hire, 10%nat)
  ∧ governments bankrupt_producer !! 0%nat = Some government
  ∧ firms_bucket bankrupt_producer 0 CapitalFirm = Ok [1%nat; 2%nat]
  ∧ ∃ m2,
      remove_firm after_hire 10 = Ok m2
      ∧ firms m2 = firms bankrupt_producer
      ∧ governments m2
        = <[0%nat := set_bailout_cost (0 + 30) government]>
            (governments bankrupt_producer).
Proof.
  split; [exact scenario_hire |]. do 2 (split; [reflexivity |]).
  assert (Hlive : ∀ x, x ∈ [1%nat; 2%nat] → is_Some (heap bankrupt_producer !! x)).
  { intros x [-> | [-> | Hx]%elem_of_cons]%elem_of_cons;
      [by eexists | by eexists | by apply elem_of_nil in Hx]. }
  destruct (add_then_remove hire bankrupt_producer after_hire CapitalFirm 0
              30%Q 10 government [1%nat; 2%nat]
              scenario_hire eq_refl eq_refl eq_refl eq_refl Hlive)
    as (m2 & Hrem & Hfirms & _ & Hgov & _).
  exists m2. split; [exact Hrem |]. split; [exact Hfirms | exact Hgov].
Defined.

(** Producer 1 of the scenario cannot be removed twice. *)
Lemma remove_firm_unregistered_witness :
  heap bankrupt_producer !! 1%nat = Some (producer CapitalFirm (-10))
  ∧ governments bankrupt_producer !! 0%nat = Some government
  ∧ firms_bucket bankrupt_producer 0 CapitalFirm = Ok [1%nat; 2%nat]
  ∧ remove_firm bankrupt_producer 1 = Ok after_exit
  ∧ remove_firm after_exit 1
    = Raise (ValueError "list.remove(x): x not in list").
Proof.
  do 3 (split; [reflexivity |]). split; [exact scenario_exit |].
  exact (proj2 (remove_firm_unregistered bankrupt_producer 1
                  (producer CapitalFirm (-10)) government [1%nat; 2%nat]
                  eq_refl eq_refl eq_refl)
           scenario_producers_NoDup after_exit scenario_exit).
Defined.

(** The subsidiary of the service firm 3: market share 0, productivity 3/2
    of producer 2's brochure, competitiveness 4/5, one uniform draw. *)
Lemma consumption_subsidiary_witness :
  heap failed_service !! 3%nat = Some (producer ServiceFirm (-10))
  ∧ isinstance ServiceFirm CapitalFirm = false
  ∧ add_subsidiary two_producers fixed_sample second_is_best plain_defaults
      failed_service 3 = Ok (service_entry, 4%nat)
  ∧ ∃ sub_obj,
      heap service_entry !! 4%nat = Some sub_obj
      ∧ market_share sub_obj = 0%Q
      ∧ prod sub_obj = (3 # 2)%Q
      ∧ competitiveness sub_obj = (4 # 5)%Q
      ∧ RNGs service_entry !! KClass ServiceFirm
        = Some (advance DrawUniform (seeded 2)).
Proof.
  do 2 (split; [reflexivity |]). split; [exact scenario_service |].
  destruct (consumption_subsidiary two_producers fixed_sample second_is_best
              plain_defaults failed_service service_entry 3 4
              (producer ServiceFirm (-10)) eq_refl eq_refl scenario_service)
    as (gov & rng & best_cap & best & sub_obj
        & _ & Hgov & Hrng & Hbc & Hbest & Hsub & _ & _ & Hshare & _ & _
        & Hprod & Hcomp & _ & Hstream).
  vm_compute in Hgov. injection Hgov as <-.
  vm_compute in Hrng. injection Hrng as <-.
  vm_compute in Hbc. injection Hbc as <-.
  vm_compute in Hbest. injection Hbest as <-.
  vm_compute in Hprod. injection Hprod as Hprod.
  vm_compute in Hcomp. injection Hcomp as Hcomp.
  exists sub_obj. split; [exact Hsub |]. split; [exact Hshare |].
  split; [symmetry; exact Hprod |]. split; [symmetry; exact Hcomp |].
  exact Hstream.
Defined.

(** With an endowment of 0.35 and a capital-output ratio of 10 the float
    product is 3.5, although the float 0.35 lies below 0.35, and the
    capital amount is [round(3.5)], the even neighbour 4. *)
Lemma subsidiary_endowment_witness :
  heap failed_heavy !! 1%nat = Some heavy_producer
  ∧ add_subsidiary two_producers skewed_sample second_is_best plain_defaults
      failed_heavy 1 = Ok (heavy_entry, 3%nat)
  ∧ capital_new_firm frugal_government !! CapitalFirm = Some (b64 0.35)
  ∧ cap_out_ratio heavy_producer = 10%Q
  ∧ (b64 0.35 * 10 < 7 # 2)%Q
  ∧ (b64 (b64 0.35 * 10) == 7 # 2)%Q
  ∧ ∃ sub_obj,
      heap heavy_entry !! 3%nat = Some sub_obj
      ∧ n_machines sub_obj = 1
      ∧ cap_amount sub_obj = 4
      ∧ sales sub_obj = inject_Z 4.
Proof.
  split; [reflexivity |]. split; [exact scenario_heavy |].
  split; [reflexivity |]. split; [reflexivity |].
  split; [vm_compute; reflexivity |]. split; [vm_compute; reflexivity |].
  destruct (subsidiary_endowment two_producers skewed_sample second_is_best
              plain_defaults failed_heavy heavy_entry 1 3
              heavy_producer eq_refl scenario_heavy)
    as (gov & cap & sub_obj & Hgov & Hcap & Hsub & Hn & Hamount
        & _ & _ & _ & Hsales).
  vm_compute in Hgov. injection Hgov as <-.
  cbn zeta in Hamount. destruct Hamount as (Hamount & _).
  assert (Hfour : cap_amount sub_obj = 4).
  { rewrite Hamount.
    change (capital_new_firm frugal_government !! f_class heavy_producer)
      with (Some (b64 0.35)) in Hcap.
    injection Hcap as <-. vm_compute. reflexivity. }
  exists sub_obj. split; [exact Hsub |]. split; [exact Hn |].
  split; [exact Hfour |]. rewrite Hsales, Hfour. reflexivity.
Defined.

(** In the scenario the subsidiary, object 10, is linked to producer 2,
    the one the government ranks best. *)
Lemma subsidiary_links_witness :
  add_subsidiary two_producers fixed_sample second_is_best plain_defaults
    after_exit 1 = Ok (after_entry, 10%nat)
  ∧ heap after_exit !! 10%nat = None
  ∧ (∃ sub_obj,
       heap after_entry !! 10%nat = Some sub_obj
       ∧ supplier sub_obj = Some 2%nat)
  ∧ linked (heap after_entry) 10.
Proof.
  split; [exact scenario_entry |].
  destruct (subsidiary_links two_producers fixed_sample second_is_best
              plain_defaults after_exit after_entry 1 10 scenario_entry)
    as (f & rng & best_cap & best & sub_obj & _ & _ & Hbc & Hfresh & _ & Hsub
        & Hsup & _ & _ & _ & _ & _ & Hlinked).
  injection Hbc as <-.
  split; [exact Hfresh |]. split; [by exists sub_obj | exact Hlinked].
Defined.

(** In the scenario the stream of [CapitalFirm] has made a uniform and a
    beta draw, and the stream of [Firm] none. *)
Lemma subsidiary_streams_witness :
  add_subsidiary two_producers fixed_sample second_is_best plain_defaults
    after_exit 1 = Ok (after_entry, 10%nat)
  ∧ RNGs after_entry !! KClass CapitalFirm
    = Some {| rng_seed := 0; rng_history := [DrawUniform; DrawBeta 2 4] |}
  ∧ RNGs after_entry !! KClass Firm = Some (seeded 7).
Proof.
  split; [exact scenario_entry |].
  destruct (subsidiary_streams two_producers fixed_sample second_is_best
              plain_defaults after_exit after_entry 1 10 scenario_entry)
    as (f & rng & Hf & Hrng & Hstream & Hother & _).
  vm_compute in Hf. injection Hf as <-.
  vm_compute in Hrng. injection Hrng as <-.
  split; [exact Hstream |].
  rewrite (Hother (KClass Firm)) by discriminate. reflexivity.
Defined.

(** With no capital producer counted in region 0, replacing producer 1
    divides by zero. *)
Lemma capital_zero_count_witness :
  N_FIRMS no_producers !! 0%nat = Some [(CapitalFirm, 0%nat)]
  ∧ add_subsidiary no_producers fixed_sample second_is_best plain_defaults
      after_exit 1 = Raise ZeroDivisionError.
Proof.
  split; [reflexivity |].
  apply (capital_zero_count no_producers fixed_sample second_is_best
           plain_defaults after_exit 1 (producer CapitalFirm (-10))
           (seeded 0) (set_bailout_cost (0 + -10) government) 7%Q 2%nat
           (producer CapitalFirm 50) [(CapitalFirm, 0%nat)]);
    try reflexivity.
  by eexists.
Defined.

(** The scenario without a stream, without a government, without a capital
    endowment. *)
Lemma lookup_order_witness :
  add_subsidiary two_producers fixed_sample second_is_best plain_defaults
    (set_governments ∅ no_streams) 1 = Raise KeyError
  ∧ add_subsidiary two_producers fixed_sample second_is_best plain_defaults
      no_government 1 = Raise AttributeError
  ∧ add_subsidiary two_producers fixed_sample second_is_best plain_defaults
      no_endowment 1 = Raise KeyError.
Proof.
  split; [| split].
  - exact (proj1 (lookup_order two_producers fixed_sample second_is_best
                    plain_defaults (set_governments ∅ no_streams) 1
                    (producer CapitalFirm (-10)) eq_refl) eq_refl).
  - refine (proj1 (proj2 (lookup_order two_producers fixed_sample
                            second_is_best plain_defaults no_government 1
                            (producer CapitalFirm (-10)) eq_refl)) _ eq_refl).
    by eexists.
  - refine (proj2 (proj2 (lookup_order two_producers fixed_sample
                            second_is_best plain_defaults no_endowment 1
                            (producer CapitalFirm (-10)) eq_refl)) _ _
              eq_refl eq_refl).
    by eexists.
Defined.

(** In the scenario the queue of region 0, which held producer 1, is empty
    after the drain. *)
Lemma queues_emptied_witness :
  remove_bankrupt_firms two_producers fixed_sample second_is_best
    plain_defaults bankrupt_producer = Ok after_drain
  ∧ firms_to_remove bankrupt_producer !! 0%nat = Some [1%nat]
  ∧ firms_to_remove after_drain !! 0%nat = Some [].
Proof.
  split; [exact scenario_drain |]. split; [reflexivity |].
  destruct (queues_emptied two_producers fixed_sample second_is_best
              plain_defaults bankrupt_producer after_drain scenario_drain)
    as [Hempty _].
  apply Hempty. simpl. lia.
Defined.

(** A second drain of the scenario finds empty queues and changes no
    object and no stream. *)
Lemma no_bankruptcy_witness :
  firms_to_remove after_drain !! 0%nat = Some []
  ∧ ∃ m',
      remove_bankrupt_firms two_producers fixed_sample second_is_best
        plain_defaults after_drain = Ok m'
      ∧ firms m' = firms after_drain ∧ heap m' = heap after_drain
      ∧ RNGs m' = RNGs after_drain.
Proof.
  split; [vm_compute; reflexivity |].
  destruct (no_bankruptcy two_producers fixed_sample second_is_best
              plain_defaults after_drain)
    as (m' & Hdrain & Hfirms & Hheap & Hrngs & _).
  - intros r Hr. assert (r = 0%nat) as -> by (simpl in Hr; lia).
    split; [vm_compute; reflexivity |]. vm_compute. by eexists.
  - exists m'. split; [exact Hdrain |]. split; [exact Hfirms |].
    split; [exact Hheap | exact Hrngs].
Defined.

(** In the scenario the drain of the queue adds one object, and the
    removed producer 1 is still an object of net worth -10. *)
Lemma drain_objects_witness :
  drain_queue two_producers fixed_sample second_is_best plain_defaults
    [1%nat] bankrupt_producer = Ok after_entry
  ∧ size (heap bankrupt_producer) = 3%nat
  ∧ size (heap after_entry) = 4%nat
  ∧ ∃ f', heap after_entry !! 1%nat = Some f'
          ∧ net_worth f' = (-10)%Q ∧ f_class f' = CapitalFirm.
Proof.
  split; [exact scenario_queue |]. split; [reflexivity |].
  destruct (drain_objects two_producers fixed_sample second_is_best
              plain_defaults [1%nat] bankrupt_producer after_entry
              scenario_queue) as [Hsize Hkept].
  split; [exact Hsize |].
  destruct (Hkept 1%nat (producer CapitalFirm (-10)) eq_refl)
    as (cs & f' & Hf' & _ & _ & _ & _ & _ & Hworth & Hclass & _).
  exists f'. split; [exact Hf' |]. split; [exact Hworth | exact Hclass].
Defined.

(** In the scenario the object the drain created, 10, is linked to its
    supplier. *)
Lemma drain_links_witness :
  drain_queue two_producers fixed_sample second_is_best plain_defaults
    [1%nat] bankrupt_producer = Ok after_entry
  ∧ heap bankrupt_producer !! 10%nat = None
  ∧ linked (heap after_entry) 10.
Proof.
  split; [exact scenario_queue |]. split; [reflexivity |].
  destruct (drain_links two_producers fixed_sample second_is_best
              plain_defaults [1%nat] bankrupt_producer after_entry
              scenario_queue) as [_ Hnew].
  apply Hnew; [reflexivity |]. vm_compute. by eexists.
Defined.

(** The registry of the scenario is well formed before and after the
    drain. *)
Lemma registry_stays_wf_witness :
  registry_wf bankrupt_producer
  ∧ remove_bankrupt_firms two_producers fixed_sample second_is_best
      plain_defaults bankrupt_producer = Ok after_drain
  ∧ registry_wf after_drain.
Proof.
  split; [exact scenario_registry_wf |]. split; [exact scenario_drain |].
  exact (registry_stays_wf two_producers fixed_sample second_is_best
           plain_defaults bankrupt_producer after_drain
           scenario_registry_wf scenario_drain).
Defined.

(** In the scenario, where a capital producer is queued, the stream of
    [Firm] is untouched by the drain. *)
Lemma drain_streams_witness :
  drain_queue two_producers fixed_sample second_is_best plain_defaults
    [1%nat] bankrupt_producer = Ok after_entry
  ∧ queued_firms (heap bankrupt_producer) [1%nat]
  ∧ RNGs after_entry !! KClass Firm = Some (seeded 7)
  ∧ RNGs after_entry !! KAdaptation = RNGs bankrupt_producer !! KAdaptation.
Proof.
  assert (Hq : queued_firms (heap bankrupt_producer) [1%nat]).
  { intros x Hx. apply list_elem_of_singleton in Hx as ->. by eexists. }
  split; [exact scenario_queue |]. split; [exact Hq |].
  destruct (drain_streams two_producers fixed_sample second_is_best
              plain_defaults [1%nat] bankrupt_producer after_entry
              scenario_queue Hq) as [Hother Hadapt].
  split; [| exact Hadapt].
  rewrite (Hother (KClass Firm)); [reflexivity |].
  intros x f Hx Hf. apply list_elem_of_singleton in Hx as ->.
  vm_compute in Hf. injection Hf as <-. discriminate.
Defined.

(** With the constants of [model.py] and base seed 0: the capital and the
    service streams differ in their seeds, and [Firm] has no stream. *)
Lemma streams_distinct_witness :
  agent_types reference_config
  = Ok [CapitalFirm; ConsumptionGoodFirm; ServiceFirm; Household; Government]
  ∧ ∃ rngs,
      init_RNGs reference_config 0 = Ok rngs
      ∧ stream_seed rngs (KClass CapitalFirm)
        ≠ stream_seed rngs (KClass ServiceFirm)
      ∧ stream_seed rngs (KClass Government) ≠ stream_seed rngs KAdaptation
      ∧ rngs !! KClass Firm = None.
Proof.
  split; [reflexivity |]. eexists. split; [reflexivity |].
  assert (Hnd : NoDup [CapitalFirm; ConsumptionGoodFirm; ServiceFirm;
                       Household; Government]).
  { apply (bool_decide_unpack _). vm_compute. exact I. }
  destruct (streams_distinct reference_config 0 _ _ eq_refl Hnd eq_refl)
    as (Hpair & Hadapt & Hnone).
  split; [| split].
  - apply Hpair; [| | discriminate].
    + left.
    + right. right. left.
  - apply Hadapt. do 4 right. left.
  - apply Hnone. intros Hin.
    repeat (apply elem_of_cons in Hin as [Hin | Hin]; [discriminate |]).
    by apply elem_of_nil in Hin.
Defined.

(** With the constants of [model.py]: under base seed 1 the capital firms
    have the generator the goods firms have under base seed 0, and the
    governments the one of the adaptation process. *)
Lemma seed_shift_witness :
  ∃ rngs rngs',
    init_RNGs reference_config 0 = Ok rngs
    ∧ init_RNGs reference_config (0 + 1) = Ok rngs'
    ∧ rngs' !! KClass CapitalFirm = rngs !! KClass ConsumptionGoodFirm
    ∧ rngs' !! KClass Government = rngs !! KAdaptation.
Proof.
  eexists _, _. split; [reflexivity |]. split; [reflexivity |].
  assert (Hnd : NoDup [CapitalFirm; ConsumptionGoodFirm; ServiceFirm;
                       Household; Government]).
  { apply (bool_decide_unpack _). vm_compute. exact I. }
  destruct (seed_shift reference_config 0 _ _ _ eq_refl Hnd eq_refl eq_refl)
    as [Hnext Hlast].
  split.
  - exact (Hnext 0%nat CapitalFirm ConsumptionGoodFirm eq_refl eq_refl).
  - exact (Hlast Government eq_refl).
Defined.

(** The column ["Flood depth RP100"] gives ["100"]; a name made of
    characters of the set gives the empty string. *)
Lemma return_period_text_spec_witness :
  all_digits "100" = true
  ∧ return_period_text "Flood depth RP100" = "100"
  ∧ return_period_text "RP depth" = "".
Proof.
  split; [reflexivity |]. split.
  - exact (proj1 (proj2 (return_period_text_spec "")) "100" eq_refl).
  - apply (proj2 (proj2 (return_period_text_spec "RP depth"))).
    intros c Hc. apply list_elem_of_In in Hc. simpl in Hc.
    repeat (destruct Hc as [<- | Hc]; [reflexivity |]). destruct Hc.
Defined.

(** With a generator that draws the first of the list, both capital
    producers of the scenario end up linked to producer 1. *)
Lemma suppliers_connected_witness :
  NoDup [1%nat; 2%nat]
  ∧ connect_firms first_choice [1%nat; 2%nat] [1%nat; 2%nat] unconnected
    = Ok connected
  ∧ linked (heap connected) 1 ∧ linked (heap connected) 2
  ∧ firms connected = firms unconnected.
Proof.
  split; [exact scenario_producers_NoDup |]. split; [exact scenario_connect |].
  destruct (suppliers_connected first_choice [1%nat; 2%nat] unconnected
              connected first_choice_elem scenario_producers_NoDup
              scenario_connect) as (Hall & Hfirms & _).
  split; [apply Hall; left |]. split; [apply Hall; right; left | exact Hfirms].
Defined.
